(** * node-anvil: the request pipeline of the Anvil API client

    A shallow embedding of [src/index.js] (the client with GraphQL uploads)
    and of its earlier REST-only revision, together with the properties the
    specification states about them.

    JavaScript values are modelled by the inductive [value]; Numbers that take
    part in arithmetic are IEEE 754 binary64 floats ([spec_float] of the
    Standard Library, precision 53, maximal exponent 1024); asynchronous code
    is a state-and-completion monad over a [World] that records every token
    acquisition, sleep and physical network call. *)

From Stdlib Require Import ZArith List String Ascii Bool Lia.
From Stdlib Require Import Floats.SpecFloat DecimalString DecimalNat.
Import ListNotations.

Local Open Scope string_scope.
Local Open Scope Z_scope.

(* ===================================================================== *)
(** * JavaScript Numbers *)
(* ===================================================================== *)

Module Number.

Definition prec : Z := 53.
Definition emax : Z := 1024.

Definition t := spec_float.

Definition NaN : t := S754_nan.

(** The Number nearest to an integer (ties to even). *)
Definition of_Z (z : Z) : t := binary_normalize prec emax z 0 false.

Definition add : t -> t -> t := SFadd prec emax.
Definition mul : t -> t -> t := SFmul prec emax.
Definition div : t -> t -> t := SFdiv prec emax.

(** [ToBoolean]: NaN, +0 and -0 are falsy. *)
Definition ToBoolean (x : t) : bool :=
  match x with
  | S754_nan | S754_zero _ => false
  | _ => true
  end.

(** The Number nearest to [(-1)^neg * m * 10^e10], for [0 <= m]. *)
Definition of_decimal (neg : bool) (m e10 : Z) : t :=
  match m with
  | Zpos p =>
      if 0 <=? e10
      then binary_normalize prec emax
             (if neg then - (m * 10 ^ e10) else m * 10 ^ e10) 0 neg
      else div (S754_finite neg p 0)
               (S754_finite false (Z.to_pos (10 ^ (- e10))) 0)
  | _ => S754_zero neg
  end.

(** The same Number (the two zeros are told apart). *)
Definition same (x y : t) : bool :=
  match x, y with
  | S754_zero a, S754_zero b => Bool.eqb a b
  | S754_infinity a, S754_infinity b => Bool.eqb a b
  | S754_nan, S754_nan => true
  | S754_finite a m e, S754_finite b m' e' => Bool.eqb a b && Pos.eqb m m' && Z.eqb e e'
  | _, _ => false
  end.

(** [SameValueZero] on Numbers: NaN is NaN, and the two zeros are one. *)
Definition sameValueZero (x y : t) : bool :=
  match x, y with
  | S754_zero _, S754_zero _ => true
  | _, _ => same x y
  end.

(** The integer value of a finite integral Number; [None] otherwise. *)
Definition to_Z (x : t) : option Z :=
  match x with
  | S754_zero _ => Some 0
  | S754_finite s m e =>
      if 0 <=? e
      then Some (cond_Zopp s (Zpos m * 2 ^ e))
      else if (Zpos m) mod 2 ^ (- e) =? 0
           then Some (cond_Zopp s (Zpos m / 2 ^ (- e)))
           else None
  | _ => None
  end.

End Number.

Abbreviation Number := Number.t.

(** [x || 0] on Numbers. *)
Definition or_zero (x : Number) : Number :=
  if Number.ToBoolean x then x else Number.of_Z 0.

Module Math.

Definition abs : Number -> Number := SFabs.

(** [Math.round]: the integral Number closest to [x], ties towards
    +Infinity; NaN, the infinities and the zeros are returned unchanged and
    a result of zero keeps the sign of [x]. *)
Definition round (x : Number) : Number :=
  match x with
  | S754_finite s m e =>
      if 0 <=? e then x
      else
        let k := - e in
        let n := (cond_Zopp s (2 * Zpos m) + 2 ^ k) / 2 ^ (k + 1) in
        binary_normalize Number.prec Number.emax n 0 s
  | _ => x
  end.

End Math.

(** The one-character string made of a double quote. *)
Definition dquote : string := String (ascii_of_nat 34) EmptyString.

Definition string_of_nat (n : nat) : string :=
  NilEmpty.string_of_uint (Nat.to_uint n).

(* ===================================================================== *)
(** * [parseFloat] *)
(* ===================================================================== *)

(** Strings are sequences of code units below 256. *)

Definition code (c : ascii) : Z := Z.of_nat (nat_of_ascii c).

(** [StrWhiteSpaceChar] among those code units: TAB, LF, VT, FF, CR, SP and
    NBSP. *)
Definition isWhiteSpace (c : ascii) : bool :=
  let n := code c in
  ((9 <=? n) && (n <=? 13)) || (n =? 32) || (n =? 160).

Fixpoint trimStart (s : string) : string :=
  match s with
  | String c r => if isWhiteSpace c then trimStart r else s
  | EmptyString => s
  end.

Definition digit_value (c : ascii) : option Z :=
  let n := code c in
  if (48 <=? n) && (n <=? 57) then Some (n - 48) else None.

(** The longest run of [DecimalDigits] at the head of [s]: the accumulated
    value (starting from [acc]), the number of digits read, and the rest. *)
Fixpoint digits (s : string) (acc : Z) (count : Z) : Z * Z * string :=
  match s with
  | String c r =>
      match digit_value c with
      | Some d => digits r (10 * acc + d) (count + 1)
      | None => (acc, count, s)
      end
  | EmptyString => (acc, count, s)
  end.

(** The sign of a [StrDecimalLiteral] or of a [SignedInteger]. *)
Definition sign (s : string) : bool * string :=
  match s with
  | String "-" r => (true, r)
  | String "+" r => (false, r)
  | _ => (false, s)
  end.

(** [ExponentPart], when the text continues with a well-formed one; an
    [e] that is not followed by a [SignedInteger] is not part of the
    literal. *)
Definition exponentPart (s : string) : Z :=
  match s with
  | String c r =>
      if (code c =? 101) || (code c =? 69)
      then
        let '(neg, r1) := sign r in
        let '(e, n, _) := digits r1 0 0 in
        if n =? 0 then 0 else if neg then - e else e
      else 0
  | EmptyString => 0
  end.

(** [parseFloat(string)]: leading white space is skipped, the longest prefix
    that is a [StrDecimalLiteral] is converted, and anything after it is
    ignored; NaN when no prefix is one. *)
Definition parseFloat (input : string) : Number :=
  let s := trimStart input in
  let '(neg, s1) := sign s in
  if String.prefix "Infinity" s1 then S754_infinity neg
  else
    let '(ip, ni, s2) := digits s1 0 0 in
    let '(m, nf, s3) :=
      match s2 with
      | String "." r => digits r ip 0
      | _ => (ip, 0, s2)
      end in
    if (ni =? 0) && (nf =? 0) then Number.NaN
    else Number.of_decimal neg m (exponentPart s3 - nf).

(** A text that does not start, after white space and a sign, with a digit,
    a dot or [Infinity] is not a number. *)
Definition starts_number (s : string) : bool :=
  let s1 := snd (sign (trimStart s)) in
  String.prefix "Infinity" s1
  || match s1 with
     | String c _ =>
         match digit_value c with
         | Some _ => true
         | None => Ascii.eqb c "."
         end
     | EmptyString => false
     end.

(* ===================================================================== *)
(** * The retry delay *)
(* ===================================================================== *)

Definition failBufferMS : Number := Number.of_Z 50.

(** [response.headers.get(name)] is a string, or [null] when the header is
    absent; [parseFloat] applies [ToString] to its argument. *)
Definition ToString_header (h : option string) : string :=
  match h with
  | Some s => s
  | None => "null"
  end.

Definition getRetryMS (retryAfterSeconds : option string) : Number :=
  Number.add
    (Math.round
       (Number.mul
          (or_zero (Math.abs (parseFloat (ToString_header retryAfterSeconds))))
          (Number.of_Z 1000)))
    failBufferMS.

(** The delay for a header of [n] whole seconds, with or without a minus
    sign, is [1000 * n + 50]. *)
Definition whole_seconds_delay (n : nat) : bool :=
  let expected := Number.of_Z (1000 * Z.of_nat n + 50) in
  Number.same (getRetryMS (Some (string_of_nat n))) expected
  && Number.same (getRetryMS (Some ("-" ++ string_of_nat n))) expected.

(** The delay as the specification words it:
    [round(abs(parseFloat(retryAfter) || 0) * 1000) + 50]. *)
Definition specified_delay (retryAfter : option string) : Number :=
  Number.add
    (Math.round
       (Number.mul
          (Math.abs (or_zero (parseFloat (ToString_header retryAfter))))
          (Number.of_Z 1000)))
    (Number.of_Z 50).


(* ===================================================================== *)
(** * Base64 *)
(* ===================================================================== *)

Module Base64.

Definition alphabet : string :=
  "ABCDEFGHIJKLMNOPQRSTUVWXYZabcdefghijklmnopqrstuvwxyz0123456789+/".

Definition digit (n : N) : ascii :=
  match String.get (N.to_nat n) alphabet with
  | Some c => c
  | None => "="%char
  end.

Definition str (cs : list ascii) : string :=
  fold_right String EmptyString cs.

(** [buffer.toString('base64')]: three bytes give four digits; a final
    group of one or two bytes is padded with [=]. *)
Fixpoint encode (bytes : list Byte.byte) : string :=
  match bytes with
  | [] => ""
  | [a] =>
      let x := Byte.to_N a in
      str [digit (x / 4); digit ((x mod 4) * 16); "="; "="]%char%N
  | [a; b] =>
      let x := Byte.to_N a in
      let y := Byte.to_N b in
      str [digit (x / 4); digit ((x mod 4) * 16 + y / 16);
           digit ((y mod 16) * 4); "="%char]%N
  | a :: b :: c :: rest =>
      let x := Byte.to_N a in
      let y := Byte.to_N b in
      let z := Byte.to_N c in
      (str [digit (x / 4); digit ((x mod 4) * 16 + y / 16);
            digit ((y mod 16) * 4 + z / 64); digit (z mod 64)]%N
       ++ encode rest)%string
  end.

(** The value of a base64 digit; [-] and [_] are read as [+] and [/]. *)
Definition sextet (c : ascii) : option N :=
  let n := N_of_ascii c in
  (if (65 <=? n) && (n <=? 90) then Some (n - 65)
   else if (97 <=? n) && (n <=? 122) then Some (n - 71)
   else if (48 <=? n) && (n <=? 57) then Some (n + 4)
   else if (n =? 43) || (n =? 45) then Some 62
   else if (n =? 47) || (n =? 95) then Some 63
   else None)%N.

(** The digits of the text up to the first [=]; other characters are
    skipped. *)
Fixpoint sextets (s : string) : list N :=
  match s with
  | EmptyString => []
  | String c r =>
      if Ascii.eqb c "=" then []
      else match sextet c with
           | Some n => n :: sextets r
           | None => sextets r
           end
  end.

Definition byte_of (n : N) : Byte.byte :=
  match Byte.of_N (n mod 256) with
  | Some b => b
  | None => Byte.x00
  end.

Fixpoint bytes_of_sextets (l : list N) : list Byte.byte :=
  match l with
  | a :: b :: c :: d :: rest =>
      [byte_of (a * 4 + b / 16); byte_of ((b mod 16) * 16 + c / 4);
       byte_of ((c mod 4) * 64 + d)]%N ++ bytes_of_sextets rest
  | [a; b; c] =>
      [byte_of (a * 4 + b / 16); byte_of ((b mod 16) * 16 + c / 4)]%N
  | [a; b] => [byte_of (a * 4 + b / 16)]%N
  | _ => []
  end.

(** [Buffer.from(text, 'base64')]. *)
Definition decode (s : string) : list Byte.byte :=
  bytes_of_sextets (sextets s).

End Base64.

(** [Buffer.from(text, 'ascii')]: one byte per code unit. *)
Definition Buffer_from_ascii (s : string) : list Byte.byte :=
  list_byte_of_string s.


(* ===================================================================== *)
(** * JavaScript values *)
(* ===================================================================== *)

(** A byte source: a [Buffer] or a readable stream ([fs.ReadStream]).  [ref]
    is the identity of the object: two occurrences with the same [ref] are
    one object. *)
Inductive source : Type :=
| Buffer (ref : nat) (bytes : list Byte.byte)
| ReadStream (ref : nat) (path : string).

(** Plain data, and the objects that can stand for a file in GraphQL
    variables: a byte source, or an [UploadWithOptions] (a byte source
    wrapped together with options for [form.append]). *)
#[warnings="-register-all"]
Inductive value : Type :=
| VUndefined
| VNull
| VBool (b : bool)
| VNum (n : Number)
| VStr (s : string)
| VArr (items : list value)
| VObj (fields : list (string * value))
| VFile (file : source)
| VUpload (ref : nat) (file : source) (options : value).

(** The properties of a plain object, in property order. *)
Definition obj := list (string * value).

Definition truthy (v : value) : bool :=
  match v with
  | VUndefined | VNull => false
  | VBool b => b
  | VNum n => Number.ToBoolean n
  | VStr s => negb (s =? "")%string
  | _ => true
  end.

(** [v == null]. *)
Definition nullish (v : value) : bool :=
  match v with
  | VUndefined | VNull => true
  | _ => false
  end.

Module Obj.

Fixpoint get (o : obj) (k : string) : value :=
  match o with
  | [] => VUndefined
  | (k', v) :: rest => if (k' =? k)%string then v else get rest k
  end.

Fixpoint has (o : obj) (k : string) : bool :=
  match o with
  | [] => false
  | (k', _) :: rest => (k' =? k)%string || has rest k
  end.

(** [o[k] = v]: an existing property keeps its place. *)
Fixpoint set (o : obj) (k : string) (v : value) : obj :=
  match o with
  | [] => [(k, v)]
  | (k', v') :: rest =>
      if (k' =? k)%string then (k', v) :: rest else (k', v') :: set rest k v
  end.

(** [{ ...base, ...extra }]. *)
Definition spread (base extra : obj) : obj :=
  fold_left (fun acc kv => set acc (fst kv) (snd kv)) extra base.

End Obj.

(** The own enumerable properties that [{ ...v }] copies. *)
Definition own_properties (v : value) : obj :=
  match v with
  | VObj fields => fields
  | VArr items =>
      combine (map string_of_nat (seq 0 (List.length items))) items
  | VStr s =>
      combine (map string_of_nat (seq 0 (String.length s)))
              (map (fun c => VStr (String c EmptyString)) (list_ascii_of_string s))
  | _ => []
  end.

Inductive exn : Type :=
| Error (message : string)
| TypeError (message : string)
| FetchError (message : string).

(** [v.k] for a property name [k] that no prototype defines: reading a
    property of [undefined] or [null] throws. *)
Definition getProperty (v : value) (k : string) : exn + value :=
  match v with
  | VUndefined => inl (TypeError ("Cannot read property '" ++ k ++ "' of undefined"))
  | VNull => inl (TypeError ("Cannot read property '" ++ k ++ "' of null"))
  | VObj fields => inr (Obj.get fields k)
  | _ => inr VUndefined
  end.

(* ===================================================================== *)
(** * Requests and responses *)
(* ===================================================================== *)

(** One [form.append(name, content, options)]. *)
Record Part : Type := {
  part_name : string;
  part_content : value;
  part_options : value
}.

Definition FormData := list Part.

(** The signal of an [AbortController], with the streams whose [error]
    event aborts it. *)
Record AbortSignal : Type := { abort_on_error_of : list nat }.

Inductive Body : Type :=
| NoBody
| TextBody (text : string)
| FormBody (form : FormData).

(** The options of [fetch]. *)
Record RequestInit : Type := {
  method : string;
  headers : option obj;
  body : Body;
  signal : option AbortSignal
}.

(** A [node-fetch] response.  [json] is the body parsed as JSON, [None] when
    the body is not JSON ([response.json()] then rejects). *)
Record Response : Type := {
  status : Z;
  response_headers : list (string * string);
  json : option value;
  buffer : value;
  stream : value
}.

(** [response.headers.get(name)]. *)
Fixpoint headers_get (hs : list (string * string)) (name : string) : option string :=
  match hs with
  | [] => None
  | (k, v) :: rest => if (k =? name)%string then Some v else headers_get rest name
  end.

(* ===================================================================== *)
(** * Asynchronous computations *)
(* ===================================================================== *)

Inductive Reply : Type :=
| Respond (r : Response)
| NetworkError (e : exn).

(** What a run does to the outside, in the order it happens. *)
Inductive Event : Type :=
| Acquire
| Sleep (ms : Number)
| Fetch (url : string) (init : RequestInit)
| Warn (message : string).

(** The outside of the client: the reply of the network to the n-th physical
    call, what the rate limiter hands the callback of the n-th
    [removeTokens] (its [err] and [remainingRequests]), and the events so
    far. *)
Record World : Type := {
  network : nat -> Reply;
  limiter : nat -> option exn * Number;
  trace : list Event
}.

Definition is_fetch (e : Event) : bool :=
  match e with Fetch _ _ => true | _ => false end.

Definition is_acquire (e : Event) : bool :=
  match e with Acquire => true | _ => false end.

Definition calls (w : World) : nat := List.length (filter is_fetch (trace w)).
Definition acquired (w : World) : nat := List.length (filter is_acquire (trace w)).

Definition emit (es : list Event) (w : World) : World :=
  {| network := network w; limiter := limiter w; trace := trace w ++ es |}.

(** How a promise stands: [Pending] is a promise that has not settled when
    the bound on the number of attempts is reached. *)
Inductive Completion (A : Type) : Type :=
| Resolved (a : A)
| Rejected (e : exn)
| Pending.

Arguments Resolved {A} a.
Arguments Rejected {A} e.
Arguments Pending {A}.

Definition Async (A : Type) : Type := World -> Completion A * World.

Definition ret {A} (a : A) : Async A := fun w => (Resolved a, w).
Definition reject {A} (e : exn) : Async A := fun w => (Rejected e, w).
Definition pending {A} : Async A := fun w => (Pending, w).

Definition bind {A B} (m : Async A) (k : A -> Async B) : Async B :=
  fun w =>
    match m w with
    | (Resolved a, w') => k a w'
    | (Rejected e, w') => (Rejected e, w')
    | (Pending, w') => (Pending, w')
    end.

Declare Scope async_scope.
Delimit Scope async_scope with async.
Notation "x <- m ;; k" := (bind m (fun x => k))
  (at level 61, m at next level, right associativity) : async_scope.
Notation "m ;;; k" := (bind m (fun _ => k))
  (at level 61, right associativity) : async_scope.
Local Open Scope async_scope.

(** A synchronous computation that may throw, awaited. *)
Definition lift {A} (r : exn + A) : Async A :=
  match r with
  | inl e => reject e
  | inr a => ret a
  end.

Definition sleep (ms : Number) : Async unit :=
  fun w => (Resolved tt, emit [Sleep ms] w).

Definition console_warn (message : string) : Async unit :=
  fun w => (Resolved tt, emit [Warn message] w).

(** [limiter.removeTokens(1, callback)]: the arguments of the callback. *)
Definition removeTokens : Async (option exn * Number) :=
  fun w => (Resolved (limiter w (acquired w)), emit [Acquire] w).

(** [fetch(url, init)]: one physical call. *)
Definition fetch (url : string) (init : RequestInit) : Async Response :=
  fun w =>
    match network w (calls w) with
    | Respond r => (Resolved r, emit [Fetch url init] w)
    | NetworkError e => (Rejected e, emit [Fetch url init] w)
    end.

(** [response.json()]. *)
Definition response_json (r : Response) : Async value :=
  match json r with
  | Some v => ret v
  | None => reject (FetchError "invalid json response body")
  end.

(** [response.buffer()]. *)
Definition response_buffer (r : Response) : Async value := ret (buffer r).

(* ===================================================================== *)
(** * Uploads in GraphQL variables *)
(* ===================================================================== *)

(** The module [./validation] is not among the sources: [requestGraphQL]
    and the properties of its encoding take [isFile] and
    [graphQLUploadSchemaIsValid] as parameters; the definitions of this module
    follow the specification and serve where a property is about the
    validation itself. *)
Module Validation.

(** Modelled from the spec: [isFile] of [./validation], which is not among
    the sources.  An upload-capable leaf is a stream, a byte buffer or an
    [UploadWithOptions]; a Base64 descriptor is a plain object and stays in
    the variables (test "file is a base64 upload"). *)
Definition isFile (v : value) : bool :=
  match v with
  | VFile _ | VUpload _ _ _ => true
  | _ => false
  end.

(** An object with some but not all of [data], [filename], [mimetype]. *)
Definition partially_file_like (o : obj) : bool :=
  let d := Obj.has o "data" in
  let f := Obj.has o "filename" in
  let m := Obj.has o "mimetype" in
  (d || f || m) && negb (d && f && m).

(** An object shaped as a Base64 descriptor. *)
Definition isBase64Upload (v : value) : bool :=
  match v with
  | VObj o => Obj.has o "data" && Obj.has o "filename" && Obj.has o "mimetype"
  | _ => false
  end.

(** Modelled from the spec: [graphQLUploadSchemaIsValid] of [./validation],
    which is not among the sources.  The pass rejects a tree in which some
    object is partially file-like; following the test "file is not a stream or
    buffer" it also rejects a property named [file] that holds neither an
    upload nor a Base64 descriptor. *)
Fixpoint graphQLUploadSchemaIsValid (schema : value) : bool :=
  match schema with
  | VArr items => forallb graphQLUploadSchemaIsValid items
  | VObj fields =>
      negb (partially_file_like fields)
      && forallb
           (fun kv =>
              graphQLUploadSchemaIsValid (snd kv)
              && (if (fst kv =? "file")%string
                  then isFile (snd kv) || isBase64Upload (snd kv)
                  else true))
           fields
  | _ => true
  end.

End Validation.

(** The library [extract-files] (a dependency), in the versions that take the
    predicate as third argument: [extractFiles(value, path,
    isExtractableFile)], with the [Map] it returns as a list of entries in
    insertion order. *)
Module ExtractFiles.

Definition FilesMap := list (value * list string).

Definition object_ref (v : value) : option nat :=
  match v with
  | VFile (Buffer r _) | VFile (ReadStream r _) | VUpload r _ _ => Some r
  | _ => None
  end.

(** Equality of [Map] keys ([SameValueZero]): the same primitive value or
    the same object.  Plain objects and arrays carry no identity in [value]:
    two occurrences count as two objects. *)
Definition same_object (a b : value) : bool :=
  match a, b with
  | VUndefined, VUndefined | VNull, VNull => true
  | VBool x, VBool y => Bool.eqb x y
  | VNum x, VNum y => Number.sameValueZero x y
  | VStr x, VStr y => (x =? y)%string
  | _, _ =>
      match object_ref a, object_ref b with
      | Some r, Some r' => Nat.eqb r r'
      | _, _ => false
      end
  end.

Fixpoint addFile (files : FilesMap) (paths : list string) (file : value) : FilesMap :=
  match files with
  | [] => [(file, paths)]
  | (f, storedPaths) :: rest =>
      if same_object f file then (f, (storedPaths ++ paths)%list) :: rest
      else (f, storedPaths) :: addFile rest paths file
  end.

(** [result.files.forEach(addFile)]. *)
Definition addFiles (files : FilesMap) (result_files : FilesMap) : FilesMap :=
  fold_left (fun acc entry => addFile acc (snd entry) (fst entry)) result_files files.

Definition prefix_of (path : string) : string :=
  if (path =? "")%string then "" else path ++ ".".

(** The loops over the elements of an array and over the properties of an
    object: each child is extracted under its own path and the files found
    are added to those found so far. *)
Definition children (extract : value -> string -> value * FilesMap) (prefix : string)
  : list value -> nat -> FilesMap -> list value * FilesMap :=
  fix children (items : list value) (i : nat) (files : FilesMap) :=
    match items with
    | [] => ([], files)
    | child :: rest =>
        let result := extract child (prefix ++ string_of_nat i) in
        let '(clones, files') := children rest (S i) (addFiles files (snd result)) in
        (fst result :: clones, files')
    end.

Definition properties (extract : value -> string -> value * FilesMap) (prefix : string)
  : obj -> FilesMap -> obj * FilesMap :=
  fix properties (fields : obj) (files : FilesMap) :=
    match fields with
    | [] => ([], files)
    | (i, child) :: rest =>
        let result := extract child (prefix ++ i) in
        let '(clones, files') := properties rest (addFiles files (snd result)) in
        ((i, fst result) :: clones, files')
    end.

Fixpoint extractFiles (v : value) (path : string) (isExtractableFile : value -> bool)
    {struct v} : value * FilesMap :=
  if isExtractableFile v then (VNull, [(v, [path])])
  else
    let prefix := prefix_of path in
    let extract := fun child path' => extractFiles child path' isExtractableFile in
    match v with
    | VArr items =>
        let '(clones, files) := children extract prefix items O [] in
        (VArr clones, files)
    | VObj fields =>
        let '(clones, files) := properties extract prefix fields [] in
        (VObj clones, files)
    | _ => (v, [])
    end.

End ExtractFiles.

(* ===================================================================== *)
(** * The client ([class Anvil]) *)
(* ===================================================================== *)

Definition DATA_TYPE_STREAM : string := "stream".
Definition DATA_TYPE_BUFFER : string := "buffer".
Definition DATA_TYPE_JSON : string := "json".

(** The argument of the constructor. *)
Record ClientOptions : Type := {
  apiKey : option string;
  accessToken : option string;
  baseURL : option string;
  userAgent : option string
}.

(** An instance: [this.options], [this.authHeader] and the limits of the
    rate limiter. *)
Record Anvil : Type := {
  options_apiKey : option string;
  options_accessToken : option string;
  options_baseURL : string;
  options_userAgent : string;
  authHeader : string;
  requestLimit : Number;
  requestLimitMS : Number
}.

(** Truthiness of an option that holds a string when present. *)
Definition present (o : option string) : bool :=
  match o with
  | Some s => negb (s =? "")%string
  | None => false
  end.

(** [`${o}`]. *)
Definition interpolate (o : option string) : string :=
  match o with
  | Some s => s
  | None => "undefined"
  end.

Definition or_default (o : option string) (d : string) : string :=
  match o with
  | Some s => s
  | None => d
  end.

(** [v === s] for a string [s]. *)
Definition is_string (v : value) (s : string) : bool :=
  match v with
  | VStr t => (t =? s)%string
  | _ => false
  end.

(** [supportedDataTypes.includes(dataType)]. *)
Definition includes (l : list string) (v : value) : bool :=
  match v with
  | VStr s => existsb (String.eqb s) l
  | _ => false
  end.

(** [clientOptions = {}]. *)
Definition or_empty (o : option obj) : obj :=
  match o with
  | Some fields => fields
  | None => []
  end.

(** What [_wrapRequest] resolves to: one of the object literals
    [{ statusCode, errors }] and [{ statusCode, ...json }], given by their
    properties, or [{ response, data, statusCode }]. *)
Inductive Wrapped : Type :=
| Failure (properties : obj)
| Success (response : Response) (data : value) (statusCode : Z).

Definition wrapped_get (r : Wrapped) (k : string) : value :=
  match r with
  | Failure o => Obj.get o k
  | Success _ data statusCode =>
      if (k =? "data")%string then data
      else if (k =? "statusCode")%string then VNum (Number.of_Z statusCode)
      else VUndefined
  end.

(** The [response] property of a result: the response object, or whatever
    the body of a failed call stores under that name. *)
Definition wrapped_response (r : Wrapped) : Response + value :=
  match r with
  | Failure o => inr (Obj.get o "response")
  | Success response _ _ => inl response
  end.

Record RESTResult : Type := {
  rest_response : Response + value;
  rest_statusCode : value;
  rest_data : value;
  rest_errors : value
}.

Record GraphQLResult : Type := {
  gql_statusCode : value;
  gql_data : value;
  gql_errors : value
}.

Section Client.

(** [description] and [version] of [package.json], [JSON.stringify], and
    the two functions that [./validation] exports. *)
Variables description version : string.
Variable JSON_stringify : value -> string.
Variable isFile : value -> bool.
Variable graphQLUploadSchemaIsValid : value -> bool.

Definition defaultOptions_baseURL : string := "https://app.useanvil.com".
Definition defaultOptions_userAgent : string := description ++ "/" ++ version.

Definition constructor (options : option ClientOptions) : exn + Anvil :=
  match options with
  | None => inl (Error "options are required")
  | Some options =>
      let apiKey := apiKey options in
      let accessToken := accessToken options in
      if negb (present apiKey || present accessToken)
      then inl (Error "apiKey or accessToken required")
      else
        inr {|
          options_apiKey := apiKey;
          options_accessToken := accessToken;
          options_baseURL := or_default (baseURL options) defaultOptions_baseURL;
          options_userAgent := or_default (userAgent options) defaultOptions_userAgent;
          authHeader :=
            if present accessToken
            then "Bearer " ++ Base64.encode (Buffer_from_ascii (interpolate accessToken))
            else "Basic " ++ Base64.encode (Buffer_from_ascii (interpolate apiKey ++ ":"));
          requestLimit := Number.of_Z 200;
          requestLimitMS := Number.of_Z 5000
        |}
  end.

Variable this : Anvil.

Definition _url (path : string) : string := options_baseURL this ++ path.

Definition _addHeaders (existingOptions : RequestInit) (newHeaders : obj)
    (defaults : bool) : RequestInit :=
  let existingHeaders :=
    match headers existingOptions with
    | Some h => h
    | None => []
    end in
  let newHeaders :=
    if defaults then newHeaders
    else fold_left
           (fun acc kv => if negb (nullish (snd kv))
                          then Obj.set acc (fst kv) (snd kv) else acc)
           newHeaders [] in
  {| method := method existingOptions;
     headers := Some (Obj.spread existingHeaders newHeaders);
     body := body existingOptions;
     signal := signal existingOptions |}.

Definition _addDefaultHeaders (options : RequestInit) : RequestInit :=
  let userAgent := options_userAgent this in
  _addHeaders options
    [("User-Agent", VStr userAgent); ("Authorization", VStr (authHeader this))]
    true.

Definition _request (url : string) (options : RequestInit) : Async Response :=
  let url := if String.prefix (options_baseURL this) url then url else _url url in
  let opts := _addDefaultHeaders options in
  fetch url opts.

(** [settle err promise]: the promise of [_throttle] once [fn] has run.  A
    limiter error rejects it before [fn] runs, and [fn] runs all the
    same. *)
Definition settle {A} (err : option exn) (m : Async A) : Async A :=
  fun w =>
    match err with
    | Some e => (Rejected e, snd (m w))
    | None => m w
    end.

Fixpoint _throttle {A} (attempts : nat) (fn : (Number -> Async A) -> Async A)
    : Async A :=
  match attempts with
  | O => pending
  | S attempts' =>
      r <- removeTokens ;;
      let '(err, remainingRequests) := r in
      (if SFltb remainingRequests (Number.of_Z 1)
       then sleep (Number.add (requestLimitMS this) failBufferMS)
       else ret tt) ;;;
      let retry := fun ms => sleep ms ;;; _throttle attempts' fn in
      settle err (fn retry)
  end.


(** The function that [_wrapRequest] hands to [_throttle]. *)
Definition attempt (retryableRequestFn : Async Response) (clientOptions : obj)
    (retry : Number -> Async Wrapped) : Async Wrapped :=
  response <- retryableRequestFn ;;
  let statusCode := status response in
  if 300 <=? statusCode then
    if statusCode =? 429
    then retry (getRetryMS (headers_get (response_headers response) "retry-after"))
    else
      json <- response_json response ;;
      json_errors <- lift (getProperty json "errors") ;;
      errors <- (if truthy json_errors then ret json_errors
                 else
                   json_message <- lift (getProperty json "message") ;;
                   ret (if truthy json_message then VArr [json] else json_message)) ;;
      ret (if truthy errors
           then Failure [("statusCode", VNum (Number.of_Z statusCode));
                         ("errors", errors)]
           else Failure (Obj.spread
                           [("statusCode", VNum (Number.of_Z statusCode))]
                           (own_properties json)))
  else
    let dataType := Obj.get clientOptions "dataType" in
    data <- (if is_string dataType DATA_TYPE_STREAM then ret (stream response)
             else if is_string dataType DATA_TYPE_BUFFER then response_buffer response
             else if is_string dataType DATA_TYPE_JSON then response_json response
             else
               console_warn
                 ("Using default response dataType of " ++ dquote ++ "json"
                  ++ dquote ++ ". Please specifiy a dataType.") ;;;
               response_json response) ;;
    ret (Success response data statusCode).

Definition _wrapRequest (attempts : nat) (retryableRequestFn : Async Response)
    (clientOptions : option obj) : Async Wrapped :=
  _throttle attempts (attempt retryableRequestFn (or_empty clientOptions)).

Definition requestREST (attempts : nat) (url : string) (fetchOptions : RequestInit)
    (clientOptions : option obj) : Async RESTResult :=
  r <- _wrapRequest attempts (_request url fetchOptions) clientOptions ;;
  ret {| rest_response := wrapped_response r;
         rest_statusCode := wrapped_get r "statusCode";
         rest_data := wrapped_get r "data";
         rest_errors := wrapped_get r "errors" |}.

(** [const { dataType = DATA_TYPE_BUFFER } = clientOptions]. *)
Definition dataType_of (clientOptions : obj) : value :=
  match Obj.get clientOptions "dataType" with
  | VUndefined => VStr DATA_TYPE_BUFFER
  | v => v
  end.

Definition unsupported_dataType (supportedDataTypes : list string) : exn :=
  Error ("dataType must be one of: " ++ String.concat "|" supportedDataTypes).

Definition jsonRequest (payload : value) : RequestInit :=
  {| method := "POST";
     headers := Some [("Content-Type", VStr "application/json")];
     body := TextBody (JSON_stringify payload);
     signal := None |}.

(** The three operations are ordinary functions: the check of [dataType]
    throws ([inl]) before a promise exists. *)
Definition fillPDF (attempts : nat) (pdfTemplateID : string) (payload : value)
    (clientOptions : option obj) : exn + Async RESTResult :=
  let clientOptions := or_empty clientOptions in
  let supportedDataTypes := [DATA_TYPE_STREAM; DATA_TYPE_BUFFER] in
  let dataType := dataType_of clientOptions in
  if truthy dataType && negb (includes supportedDataTypes dataType)
  then inl (unsupported_dataType supportedDataTypes)
  else inr (requestREST attempts
              ("/api/v1/fill/" ++ pdfTemplateID ++ ".pdf")
              (jsonRequest payload)
              (Some (Obj.spread clientOptions [("dataType", dataType)]))).

Definition generatePDF (attempts : nat) (payload : value)
    (clientOptions : option obj) : exn + Async RESTResult :=
  let clientOptions := or_empty clientOptions in
  let supportedDataTypes := [DATA_TYPE_STREAM; DATA_TYPE_BUFFER] in
  let dataType := dataType_of clientOptions in
  if truthy dataType && negb (includes supportedDataTypes dataType)
  then inl (unsupported_dataType supportedDataTypes)
  else inr (requestREST attempts
              "/api/v1/generate-pdf"
              (jsonRequest payload)
              (Some (Obj.spread clientOptions [("dataType", dataType)]))).

Definition downloadDocuments (attempts : nat) (documentGroupEid : string)
    (clientOptions : option obj) : exn + Async RESTResult :=
  let clientOptions := or_empty clientOptions in
  let supportedDataTypes := [DATA_TYPE_STREAM; DATA_TYPE_BUFFER] in
  let dataType := dataType_of clientOptions in
  if truthy dataType && negb (includes supportedDataTypes dataType)
  then inl (unsupported_dataType supportedDataTypes)
  else inr (requestREST attempts
              ("/api/document-group/" ++ documentGroupEid ++ ".zip")
              {| method := "GET"; headers := None; body := NoBody; signal := None |}
              (Some (Obj.spread clientOptions [("dataType", dataType)]))).


(** The two [filesMap.forEach] loops of [requestGraphQL]: the object
    [map], filled by [map[++i] = paths], and the file parts, appended as
    [form.append(`${++i}`, file, appendOptions)]. *)
Definition pathsMap (filesMap : ExtractFiles.FilesMap) : obj :=
  fst (fold_left
         (fun acc entry =>
            let i := S (snd acc) in
            (Obj.set (fst acc) (string_of_nat i) (VArr (map VStr (snd entry))), i))
         filesMap ([], O)).

Definition filePart (i : nat) (file : value) : Part :=
  match file with
  | VUpload _ f options =>
      {| part_name := string_of_nat i; part_content := VFile f; part_options := options |}
  | _ =>
      {| part_name := string_of_nat i; part_content := file; part_options := VObj [] |}
  end.

Definition fileParts (filesMap : ExtractFiles.FilesMap) : list Part :=
  fst (fold_left
         (fun acc entry =>
            let i := S (snd acc) in
            ((fst acc ++ [filePart i (fst entry)])%list, i))
         filesMap ([], O)).

(** The streams that get an [error] listener: [typeof file.on ===
    'function'], after an [UploadWithOptions] is unwrapped. *)
Definition listened (filesMap : ExtractFiles.FilesMap) : list nat :=
  flat_map
    (fun entry =>
       match fst entry with
       | VFile (ReadStream r _) | VUpload _ (ReadStream r _) _ => [r]
       | _ => []
       end)
    filesMap.

(** The [options] that [requestGraphQL] builds: a multipart form when a
    file was extracted, the text of the operation otherwise. *)
Definition graphQLOptions (operationJSON : string)
    (filesMap : ExtractFiles.FilesMap) : RequestInit :=
  match filesMap with
  | _ :: _ =>
      let form :=
        ([{| part_name := "operations"; part_content := VStr operationJSON;
             part_options := VUndefined |};
          {| part_name := "map";
             part_content := VStr (JSON_stringify (VObj (pathsMap filesMap)));
             part_options := VUndefined |}]
         ++ fileParts filesMap)%list in
      {| method := "POST";
         headers := Some [];
         body := FormBody form;
         signal := Some {| abort_on_error_of := listened filesMap |} |}
  | [] =>
      {| method := "POST";
         headers := Some (Obj.set [] "Content-Type" (VStr "application/json"));
         body := TextBody operationJSON;
         signal := None |}
  end.

Definition requestGraphQL (attempts : nat) (query variables : value)
    (clientOptions : option obj) : Async GraphQLResult :=
  let variables := match variables with VUndefined => VObj [] | v => v end in
  let originalOperation := VObj [("query", query); ("variables", variables)] in
  let '(augmentedOperation, filesMap) :=
    ExtractFiles.extractFiles originalOperation "" isFile in
  let operationJSON := JSON_stringify augmentedOperation in
  if negb (graphQLUploadSchemaIsValid originalOperation)
  then reject (Error "Invalid File schema detected")
  else
    let options := graphQLOptions operationJSON filesMap in
    r <- _wrapRequest attempts (_request "/graphql" options) clientOptions ;;
    ret {| gql_statusCode := wrapped_get r "statusCode";
           gql_data := wrapped_get r "data";
           gql_errors := wrapped_get r "errors" |}.

(** The static methods that [class Anvil] defines. *)
Definition static_methods : list string :=
  ["prepareGraphQLFile"; "_prepareGraphQLBase64"].

(** What a static method of the class returns when it is called on a
    buffer and options. *)
Variable static_method : string -> list Byte.byte -> obj -> exn + value.

(** [this.name(buffer, options)] in a static method: a name that the class
    does not define is [undefined], and calling it throws. *)
Definition call_static (name : string) (buffer : list Byte.byte) (options : obj)
    : exn + value :=
  if existsb (String.eqb name) static_methods
  then static_method name buffer options
  else inl (TypeError ("this." ++ name ++ " is not a function")).

Definition _prepareGraphQLBase64 (data : string) (options : option obj)
    : exn + value :=
  let options := or_empty options in
  let filename := Obj.get options "filename" in
  let mimetype := Obj.get options "mimetype" in
  if negb (truthy filename)
  then inl (Error "options.filename must be provided for Base64 upload")
  else if negb (truthy mimetype)
  then inl (Error "options.mimetype must be provided for Base64 upload")
  else if truthy (Obj.get options "bufferize")
  then
    let buffer := Base64.decode data in
    call_static "_prepareGraphQLBuffer" buffer options
  else inr (VObj [("data", VStr data); ("filename", filename); ("mimetype", mimetype)]).

End Client.

(** [Anvil.prepareGraphQLFile(pathOrStreamLikeThing, formDataAppendOptions)]:
    a path is opened as a stream, and the stream or buffer is wrapped in an
    [UploadWithOptions].  [fresh] is the first identity no object has yet:
    the stream that is opened and the wrapper are new objects. *)
Definition prepareGraphQLFile (fresh : nat) (pathOrStreamLikeThing : string + source)
    (formDataAppendOptions : value) : value :=
  let pathOrStreamLikeThing :=
    match pathOrStreamLikeThing with
    | inl path => ReadStream fresh path
    | inr streamLikeThing => streamLikeThing
    end in
  VUpload (S fresh) pathOrStreamLikeThing formDataAppendOptions.


Section EtchOperations.

(** [JSON.stringify], the two functions of [./validation], and the
    generators of [./graphql], none of which is among the sources. *)
Variable JSON_stringify : value -> string.
Variable isFile : value -> bool.
Variable graphQLUploadSchemaIsValid : value -> bool.
Variable generateCreateEtchPacketMutation : value -> value.
Variable generateEtchPacketQuery : value -> value.
Variable generateEtchSignUrlMutation : value.

Variable this : Anvil.

Definition createEtchPacket (attempts : nat) (variables responseQuery mutation : value)
    : Async GraphQLResult :=
  requestGraphQL JSON_stringify isFile graphQLUploadSchemaIsValid this attempts
    (if truthy mutation then mutation
     else generateCreateEtchPacketMutation responseQuery)
    variables
    (Some [("dataType", VStr DATA_TYPE_JSON)]).

Definition getEtchPacket (attempts : nat) (variables responseQuery : value)
    : Async GraphQLResult :=
  requestGraphQL JSON_stringify isFile graphQLUploadSchemaIsValid this attempts
    (generateEtchPacketQuery responseQuery)
    variables
    (Some [("dataType", VStr DATA_TYPE_JSON)]).


End EtchOperations.

(* ===================================================================== *)
(** * The earlier REST-only client *)
(* ===================================================================== *)

(** [requestREST] and what it calls in the earlier revision of
    [src/index.js], in which the executor is part of [requestREST] and a
    result is an object literal [{ statusCode, errors }],
    [{ statusCode, ...json }] or [{ statusCode, data }]. *)
Module Legacy.

Section Client.

Variable this : Anvil.

Definition url (path : string) : string := options_baseURL this ++ path.

Definition request (url' : string) (options : RequestInit) : Async Response :=
  let url' := if String.prefix (options_baseURL this) url' then url' else url url' in
  fetch url' options.

Fixpoint throttle {A} (attempts : nat) (fn : (Number -> Async A) -> Async A)
    : Async A :=
  match attempts with
  | O => pending
  | S attempts' =>
      r <- removeTokens ;;
      let '(err, remainingRequests) := r in
      (if SFltb remainingRequests (Number.of_Z 1)
       then sleep (Number.add (requestLimitMS this) failBufferMS)
       else ret tt) ;;;
      let retry := fun ms => sleep ms ;;; throttle attempts' fn in
      settle err (fn retry)
  end.

(** The function that [requestREST] hands to [throttle]. *)
Definition attempt (url' : string) (options : RequestInit) (clientOptions : obj)
    (retry : Number -> Async obj) : Async obj :=
  response <- request url' options ;;
  let statusCode := status response in
  if statusCode =? 429
  then retry (getRetryMS (headers_get (response_headers response) "retry-after"))
  else if 300 <=? statusCode then
    json <- response_json response ;;
    json_errors <- lift (getProperty json "errors") ;;
    errors <- (if truthy json_errors then ret json_errors
               else
                 json_message <- lift (getProperty json "message") ;;
                 ret (if truthy json_message then VArr [json_message]
                      else json_message)) ;;
    ret (if truthy errors
         then [("statusCode", VNum (Number.of_Z statusCode)); ("errors", errors)]
         else Obj.spread [("statusCode", VNum (Number.of_Z statusCode))]
                         (own_properties json))
  else
    let dataType := Obj.get clientOptions "dataType" in
    data <- (if is_string dataType "stream" then ret (stream response)
             else response_buffer response) ;;
    ret [("statusCode", VNum (Number.of_Z statusCode)); ("data", data)].

Definition requestREST (attempts : nat) (url' : string) (options : RequestInit)
    (clientOptions : option obj) : Async obj :=
  throttle attempts (attempt url' options (or_empty clientOptions)).

End Client.

Section Operations.

Variable JSON_stringify : value -> string.
Variable this : Anvil.

Definition fillPDF (attempts : nat) (pdfTemplateID : string) (payload : value)
    (clientOptions : option obj) : Async obj :=
  requestREST this attempts
    ("/api/v1/fill/" ++ pdfTemplateID ++ ".pdf")
    {| method := "POST";
       headers := Some [("Content-Type", VStr "application/json");
                        ("Authorization", VStr (authHeader this))];
       body := TextBody (JSON_stringify payload);
       signal := None |}
    clientOptions.

End Operations.

End Legacy.

(* ===================================================================== *)
(** * Vocabulary of the properties *)
(* ===================================================================== *)

Section Vocabulary.

Variable this : Anvil.

(** The address that [_request] calls. *)
Definition address (url : string) : string :=
  if String.prefix (options_baseURL this) url then url else _url this url.

(** What one pass through the rate limiter does when the limiter reports
    [remainingRequests]: the acquisition, and a wait of a full window plus
    the margin when no request remains. *)
Definition admission (remainingRequests : Number) : list Event :=
  Acquire ::
  (if SFltb remainingRequests (Number.of_Z 1)
   then [Sleep (Number.add (requestLimitMS this) failBufferMS)]
   else []).

(** One attempt that the server answers with 429: a pass through the
    limiter, the physical call, and the wait that the response asks for. *)
Definition throttled_attempt (url : string) (options : RequestInit)
    (remainingRequests : Number) (r : Response) : list Event :=
  (admission remainingRequests
   ++ [Fetch (address url) (_addDefaultHeaders this options);
       Sleep (getRetryMS (headers_get (response_headers r) "retry-after"))])%list.

(** The world after [k] attempts that are all answered with 429. *)
Fixpoint after_throttled (k : nat) (url : string) (options : RequestInit)
    (w : World) : World :=
  match k with
  | O => w
  | S k' =>
      match network w (calls w) with
      | Respond r =>
          after_throttled k' url options
            (emit (throttled_attempt url options
                     (snd (limiter w (acquired w))) r) w)
      | NetworkError _ => w
      end
  end.

(** An event of a run of [_wrapRequest] on [_request url options]: every
    physical call goes to the address of [url] with the default headers
    added to [options]. *)
Definition expected_event (url : string) (options : RequestInit) (e : Event) : Prop :=
  match e with
  | Fetch u init => u = address url /\ init = _addDefaultHeaders this options
  | _ => True
  end.

(** What a run of the executor on [_request url options] from [w] to [w']
    with completion [c] keeps: the network and the limiter are those of
    [w]; the events are added at the end and the physical calls among them
    are the expected ones; the calls and the token acquisitions added
    differ by [d] (none for a run of [_wrapRequest], one call ahead inside
    an attempt); and a result comes from the reply to the last call, which
    is a response whose status is not 429. *)
Definition run_invariant (d : nat) (url : string) (options : RequestInit)
    (w : World) (c : Completion Wrapped) (w' : World) : Prop :=
  network w' = network w
  /\ limiter w' = limiter w
  /\ (exists es, trace w' = (trace w ++ es)%list
                 /\ Forall (expected_event url options) es)
  /\ (calls w' + acquired w = calls w + acquired w' + d)%nat
  /\ (forall res, c = Resolved res ->
        (calls w < calls w')%nat
        /\ exists r, network w (pred (calls w')) = Respond r /\ status r <> 429).

(** The physical call that [_request url options] makes. *)
Definition physical_call (url : string) (options : RequestInit) : Event :=
  Fetch (address url) (_addDefaultHeaders this options).

(** One pass through the limiter followed by the physical call. *)
Definition admitted_call (url : string) (options : RequestInit)
    (remainingRequests : Number) : list Event :=
  (admission remainingRequests ++ [physical_call url options])%list.


End Vocabulary.

(** The credential that the constructor uses: the access token when there
    is one, the API key otherwise. *)
Definition credential (options : ClientOptions) : string + string :=
  if present (accessToken options)
  then inl (interpolate (accessToken options))
  else inr (interpolate (apiKey options)).

(** The outcome of [response.json()] on a response below 300: the parsed
    body as [data], or the rejection of [node-fetch] when the body is not
    JSON. *)
Definition decoded_json (r : Response) (c : Completion Wrapped) : Prop :=
  match json r with
  | Some data => c = Resolved (Success r data (status r))
  | None => exists message, c = Rejected (FetchError message)
  end.

(** An event other than a warning on the console. *)
Definition silent (e : Event) : Prop :=
  match e with
  | Warn _ => False
  | _ => True
  end.

(** The text that [_wrapRequest] prints when no [dataType] is given. *)
Definition default_dataType_warning : string :=
  "Using default response dataType of " ++ dquote ++ "json" ++ dquote
  ++ ". Please specifiy a dataType.".

(** A text that begins with neither white space nor a sign. *)
Definition bare (s : string) : bool :=
  match s with
  | String c _ =>
      negb (isWhiteSpace c) && negb (Ascii.eqb c "-") && negb (Ascii.eqb c "+")
  | EmptyString => true
  end.

(** The operation [{ query, variables }] of [requestGraphQL], with
    [variables = {}] when none are given. *)
Definition operation (query variables : value) : value :=
  VObj [("query", query);
        ("variables", match variables with VUndefined => VObj [] | v => v end)].

(** The keys of [map] are the numbers up to [i]. *)
Definition numbered_below (i : nat) (o : obj) : Prop :=
  Forall (fun kv => exists j, (j <= i)%nat /\ fst kv = string_of_nat j) o.

(** The elements of a list with their 1-based positions. *)
Definition indexed {A} (l : list A) : list (nat * A) :=
  combine (seq 1 (List.length l)) l.

(** No two entries of a files map are keyed by one object. *)
Fixpoint distinct (files : ExtractFiles.FilesMap) : Prop :=
  match files with
  | [] => True
  | entry :: rest =>
      Forall (fun e => ExtractFiles.same_object (fst entry) (fst e) = false) rest
      /\ distinct rest
  end.

(** [within v t]: the value [v] occurs in the tree [t], at the root, as an
    element of an array or as the value of a property. *)
Inductive within (v : value) : value -> Prop :=
| within_here : within v v
| within_item (items : list value) (x : value) :
    In x items -> within v x -> within v (VArr items)
| within_property (fields : obj) (k : string) (x : value) :
    In (k, x) fields -> within v x -> within v (VObj fields).

(** [occurs_at isFile f v path p]: the file [f] is referenced in the tree
    [v], which lies at [path], at the dotted path [p]: it is [v] itself, or
    it is referenced in an element of the array [v] or in the value of a
    property of the object [v], whose paths continue [path] with the index
    or the name. *)
Inductive occurs_at (isFile : value -> bool) (f : value)
  : value -> string -> string -> Prop :=
| occurs_here (path : string) :
    isFile f = true -> occurs_at isFile f f path path
| occurs_in_item (items : list value) (i : nat) (x : value) (path p : string) :
    isFile (VArr items) = false ->
    nth_error items i = Some x ->
    occurs_at isFile f x (ExtractFiles.prefix_of path ++ string_of_nat i) p ->
    occurs_at isFile f (VArr items) path p
| occurs_in_property (fields : obj) (k : string) (x : value) (path p : string) :
    isFile (VObj fields) = false ->
    In (k, x) fields ->
    occurs_at isFile f x (ExtractFiles.prefix_of path ++ k) p ->
    occurs_at isFile f (VObj fields) path p.

(** What [form.append] is given for a file of the files map: the wrapped
    source and the options of an [UploadWithOptions], the file itself and
    [{}] otherwise. *)
Definition appended_content (file : value) : value :=
  match file with
  | VUpload _ f _ => VFile f
  | _ => file
  end.

Definition appended_options (file : value) : value :=
  match file with
  | VUpload _ _ options => options
  | _ => VObj []
  end.

(** A call of an operation that threw for its [dataType]. *)
Definition rejected {A} (r : exn + A) : Prop :=
  r = inl (Error "dataType must be one of: stream|buffer").

(** An event that is neither a physical call nor a token acquisition. *)
Definition quiet (e : Event) : Prop := is_fetch e = false /\ is_acquire e = false.

(** The result [{ statusCode, errors }] or [{ statusCode, ...json }] that
    the executor of the current client computes from the decoded body of a
    failed call. *)
Definition failure_of (statusCode : Z) (json : value) : obj :=
  let prop k := match json with VObj fields => Obj.get fields k | _ => VUndefined end in
  if truthy (prop "errors")
  then [("statusCode", VNum (Number.of_Z statusCode)); ("errors", prop "errors")]
  else if truthy (prop "message")
  then [("statusCode", VNum (Number.of_Z statusCode)); ("errors", VArr [json])]
  else Obj.spread [("statusCode", VNum (Number.of_Z statusCode))] (own_properties json).

(** The same for the earlier client, which wraps [json.message]. *)
Definition legacy_failure_of (statusCode : Z) (json : value) : obj :=
  let prop k := match json with VObj fields => Obj.get fields k | _ => VUndefined end in
  if truthy (prop "errors")
  then [("statusCode", VNum (Number.of_Z statusCode)); ("errors", prop "errors")]
  else if truthy (prop "message")
  then [("statusCode", VNum (Number.of_Z statusCode)); ("errors", VArr [prop "message"])]
  else Obj.spread [("statusCode", VNum (Number.of_Z statusCode))] (own_properties json).

(* ===================================================================== *)
(** * Sample data *)
(* ===================================================================== *)

Module Sample.

(** [new Anvil({ apiKey: 'abc123' })]. *)
Definition client : Anvil :=
  {| options_apiKey := Some "abc123";
     options_accessToken := None;
     options_baseURL := "https://app.useanvil.com";
     options_userAgent := "Anvil API Client/2.0.0";
     authHeader := "Basic YWJjMTIzOg==";
     requestLimit := Number.of_Z 200;
     requestLimitMS := Number.of_Z 5000 |}.

Definition response (status : Z) (headers : list (string * string))
    (json : option value) : Response :=
  {| status := status; response_headers := headers; json := json;
     buffer := VStr "This would be PDF data..."; stream := VUndefined |}.

(** A transport that answers the n-th call with the n-th response of a
    script and with the last one from then on, behind a limiter that always
    has requests left. *)
Definition world (script : list Response) (last : Response) : World :=
  {| network := fun n => Respond (nth n script last);
     limiter := fun _ => (None, Number.of_Z 199);
     trace := [] |}.

Definition tooManyRequests : Response := response 429 [("retry-after", "0.2")] None.
Definition ok : Response := response 200 [] (Some (VObj [("result", VStr "ok")])).

Definition authorizationError : value :=
  VObj [("name", VStr "AuthorizationError"); ("message", VStr "problem")].
Definition unauthorized : Response := response 401 [] (Some authorizationError).
Definition badRequest : Response :=
  response 400 [] (Some (VObj [("errors", VArr [VObj [("message", VStr "problem")]])])).
Definition teapot : Response :=
  response 418 [] (Some (VObj [("hint", VStr "tea")])).

Definition post : RequestInit :=
  {| method := "POST"; headers := None; body := NoBody; signal := None |}.

(** The same transport behind a limiter that has no request left. *)
Definition exhausted (last : Response) : World :=
  {| network := fun _ => Respond last;
     limiter := fun _ => (None, Number.of_Z 0);
     trace := [] |}.

(** The same transport behind a limiter that reports an error. *)
Definition refused (e : exn) (last : Response) : World :=
  {| network := fun _ => Respond last;
     limiter := fun _ => (Some e, Number.of_Z 199);
     trace := [] |}.

(** A transport on which every call fails. *)
Definition offline (e : exn) : World :=
  {| network := fun _ => NetworkError e;
     limiter := fun _ => (None, Number.of_Z 199);
     trace := [] |}.

(** A failure whose body is not JSON. *)
Definition badGateway : Response := response 502 [] None.

(** A failure whose body carries a [statusCode] and [data] of its own. *)
Definition misleading : Response :=
  response 500 [] (Some (VObj [("statusCode", VNum (Number.of_Z 200));
                               ("data", VStr "fine")])).

Definition query : value := VObj [("foo", VStr "bar")].
Definition pdf : value := VFile (ReadStream 7 "test/assets/dummy.pdf").
Definition withFile : value := VObj [("aNested", VObj [("file", pdf)])].
Definition withoutFile : value := VObj [("baz", VStr "bop")].
(** Variables in which one upload is referenced at two places. *)
Definition twice : value :=
  VObj [("front", pdf); ("pages", VArr [VObj [("scan", pdf)]])].

(** A reply to [generateEtchSignUrl]. *)
Definition signed : Response :=
  response 200 []
    (Some (VObj [("data",
                  VObj [("generateEtchSignURL", VStr "https://app.useanvil.com/sign")])])).

Definition halfAFile : value :=
  VObj [("file", VObj [("data", VStr "QmFzZTY0IERhdGE="); ("filename", VStr "x")])].

Definition escape (c : ascii) : string :=
  if (Ascii.eqb c (ascii_of_nat 34) || Ascii.eqb c (ascii_of_nat 92))%bool
  then String (ascii_of_nat 92) (String c EmptyString)
  else String c EmptyString.

Definition quoted (s : string) : string :=
  dquote ++ String.concat "" (map escape (list_ascii_of_string s)) ++ dquote.

(** A serializer that agrees with [JSON.stringify] on trees of null,
    booleans, strings without control characters, arrays and plain
    objects. *)
Fixpoint stringify (v : value) : string :=
  match v with
  | VBool true => "true"
  | VBool false => "false"
  | VStr s => quoted s
  | VArr items => "[" ++ String.concat "," (map stringify items) ++ "]"
  | VObj fields =>
      "{" ++ String.concat ","
               (map (fun kv => match kv with
                               | (k, v') => quoted k ++ ":" ++ stringify v'
                               end) fields)
      ++ "}"
  | _ => "null"
  end.

End Sample.

(* ===================================================================== *)
(** * Properties *)
(* ===================================================================== *)

(** ** The retry delay *)

Lemma or_zero_abs (x : Number) : or_zero (Math.abs x) = Math.abs (or_zero x).
Proof. destruct x; reflexivity. Qed.

Lemma getRetryMS_specified (h : option string) :
  getRetryMS h = specified_delay h.
Proof.
  unfold getRetryMS, specified_delay. rewrite or_zero_abs. reflexivity.
Qed.

Lemma getRetryMS_NaN (h : option string) :
  parseFloat (ToString_header h) = Number.NaN -> getRetryMS h = Number.of_Z 50.
Proof.
  intros H. unfold getRetryMS. rewrite H. vm_compute. reflexivity.
Qed.

Lemma digits_no_digit (s : string) (acc count : Z) :
  match s with
  | String c _ => digit_value c = None
  | EmptyString => True
  end ->
  digits s acc count = (acc, count, s).
Proof.
  destruct s as [|c r]; simpl; [reflexivity|]. intros ->. reflexivity.
Qed.

Lemma parseFloat_not_a_number (s : string) :
  starts_number s = false -> parseFloat s = Number.NaN.
Proof.
  unfold starts_number, parseFloat.
  destruct (sign (trimStart s)) as [neg s1]. cbn [snd].
  intros H. apply orb_false_elim in H. destruct H as [HI Hc].
  rewrite HI.
  destruct s1 as [|c r]; [reflexivity|].
  destruct (digit_value c) eqn:Hd; [discriminate|].
  rewrite (digits_no_digit (String c r) 0 0) by exact Hd.
  destruct (Ascii.eqb_spec c "."); [discriminate|].
  destruct c as [[] [] [] [] [] [] [] []]; try reflexivity; congruence.
Qed.

Lemma same_eq (x y : Number) : Number.same x y = true -> x = y.
Proof.
  destruct x as [a|a| |a m e], y as [b|b| |b m' e']; cbn; try discriminate.
  - intros H. apply Bool.eqb_prop in H. congruence.
  - intros H. apply Bool.eqb_prop in H. congruence.
  - reflexivity.
  - intros H. apply andb_prop in H. destruct H as [H He].
    apply andb_prop in H. destruct H as [Hs Hm].
    apply Bool.eqb_prop in Hs. apply Pos.eqb_eq in Hm. apply Z.eqb_eq in He. congruence.
Qed.

Lemma getRetryMS_whole_seconds (n : nat) :
  (n <= 3600)%nat ->
  getRetryMS (Some (string_of_nat n)) = Number.of_Z (1000 * Z.of_nat n + 50)
  /\ getRetryMS (Some ("-" ++ string_of_nat n)) = Number.of_Z (1000 * Z.of_nat n + 50).
Proof.
  intros Hn.
  assert (Hall : forallb whole_seconds_delay (seq 0 3601) = true)
    by (vm_compute; reflexivity).
  rewrite forallb_forall in Hall.
  specialize (Hall n ltac:(apply in_seq; lia)).
  unfold whole_seconds_delay in Hall. apply andb_prop in Hall.
  split; apply same_eq; tauto.
Qed.

(** C2. For every value of the [retry-after] header the delay of
    [getRetryMS] is [round(abs(parseFloat(retryAfter) || 0) * 1000) + 50] in
    binary64 arithmetic; an absent header and a header that [parseFloat]
    does not read as a number give exactly 50 ms, and ["0.2"] gives 250 ms;
    a header of [n] whole seconds up to an hour, negative or not, gives
    [1000 * n + 50] ms. *)
Theorem getRetryMS_delay :
  (forall h : option string, getRetryMS h = specified_delay h)
  /\ getRetryMS None = Number.of_Z 50
  /\ (forall s : string, parseFloat s = Number.NaN ->
                         getRetryMS (Some s) = Number.of_Z 50)
  /\ (forall s : string, starts_number s = false ->
                         getRetryMS (Some s) = Number.of_Z 50)
  /\ getRetryMS (Some "0.2") = Number.of_Z 250
  /\ Number.to_Z (getRetryMS (Some "0.2")) = Some 250
  /\ (forall n : nat, (n <= 3600)%nat ->
        getRetryMS (Some (string_of_nat n)) = Number.of_Z (1000 * Z.of_nat n + 50)
        /\ getRetryMS (Some ("-" ++ string_of_nat n))
           = Number.of_Z (1000 * Z.of_nat n + 50)).
Proof.
  split; [exact getRetryMS_specified|].
  split; [vm_compute; reflexivity|].
  split; [intros s H; apply (getRetryMS_NaN (Some s)); exact H|].
  split; [intros s H; apply (getRetryMS_NaN (Some s));
          apply parseFloat_not_a_number; exact H|].
  split; [vm_compute; reflexivity|].
  split; [vm_compute; reflexivity|].
  exact getRetryMS_whole_seconds.
Qed.

Lemma getRetryMS_delay_witness :
  parseFloat "soon" = Number.NaN
  /\ starts_number "a while" = false
  /\ getRetryMS (Some "soon") = Number.of_Z 50
  /\ getRetryMS (Some "a while") = Number.of_Z 50
  /\ getRetryMS (Some "120") = Number.of_Z 120050
  /\ getRetryMS (Some "-120") = Number.of_Z 120050.
Proof.
  pose proof getRetryMS_delay as [_ [_ [H1 [H2 [_ [_ H3]]]]]].
  split; [reflexivity|]. split; [reflexivity|].
  split; [apply H1; reflexivity|].
  split; [apply H2; reflexivity|].
  exact (H3 120%nat ltac:(repeat constructor)).
Defined.

(** ** Worlds and events *)

Lemma calls_emit (es : list Event) (w : World) :
  calls (emit es w) = (calls w + List.length (filter is_fetch es))%nat.
Proof. unfold calls, emit; simpl. rewrite filter_app, length_app. reflexivity. Qed.

Lemma acquired_emit (es : list Event) (w : World) :
  acquired (emit es w) = (acquired w + List.length (filter is_acquire es))%nat.
Proof. unfold acquired, emit; simpl. rewrite filter_app, length_app. reflexivity. Qed.

Lemma emit_emit (es1 es2 : list Event) (w : World) :
  emit es2 (emit es1 w) = emit (es1 ++ es2) w.
Proof. unfold emit; simpl. rewrite app_assoc. reflexivity. Qed.

Lemma emit_nil (w : World) : emit [] w = w.
Proof. destruct w; unfold emit; simpl. rewrite app_nil_r. reflexivity. Qed.

Lemma calls_admission (this : Anvil) (rem : Number) (w : World) :
  calls (emit (admission this rem) w) = calls w.
Proof.
  rewrite calls_emit. unfold admission.
  destruct (SFltb rem (Number.of_Z 1)); simpl; lia.
Qed.

Lemma acquired_admission (this : Anvil) (rem : Number) (w : World) :
  acquired (emit (admission this rem) w) = S (acquired w).
Proof.
  rewrite acquired_emit. unfold admission.
  destruct (SFltb rem (Number.of_Z 1)); simpl; lia.
Qed.

(** ** One pass through the rate limiter *)

Lemma throttle_step {A} (this : Anvil) (n : nat)
    (fn : (Number -> Async A) -> Async A) (w : World) :
  _throttle this (S n) fn w =
  settle (fst (limiter w (acquired w)))
         (fn (fun ms => sleep ms ;;; _throttle this n fn))
         (emit (admission this (snd (limiter w (acquired w)))) w).
Proof.
  cbn [_throttle]. unfold bind at 1. unfold removeTokens at 1.
  destruct (limiter w (acquired w)) as [err rem]. cbn [fst snd].
  unfold bind at 1. unfold admission.
  destruct (SFltb rem (Number.of_Z 1)).
  - unfold sleep at 1. rewrite emit_emit. reflexivity.
  - unfold ret at 1. reflexivity.
Qed.

Lemma request_run (this : Anvil) (url : string) (options : RequestInit) (w : World) :
  _request this url options w =
  (match network w (calls w) with
   | Respond r => Resolved r
   | NetworkError e => Rejected e
   end,
   emit [Fetch (address this url) (_addDefaultHeaders this options)] w).
Proof.
  unfold _request, fetch, address.
  destruct (network w (calls w)); reflexivity.
Qed.

(** ** Retrying on 429 *)

Section Retry.

Variable this : Anvil.
Variables (url : string) (options : RequestInit) (clientOptions : option obj).

Let run (n : nat) : Async Wrapped :=
  _wrapRequest this n (_request this url options) clientOptions.

Lemma calls_throttled_attempt (rem : Number) (r : Response) (w : World) :
  calls (emit (throttled_attempt this url options rem r) w) = S (calls w).
Proof.
  rewrite calls_emit. unfold throttled_attempt, admission.
  destruct (SFltb rem (Number.of_Z 1)); simpl; lia.
Qed.

Lemma acquired_throttled_attempt (rem : Number) (r : Response) (w : World) :
  acquired (emit (throttled_attempt this url options rem r) w) = S (acquired w).
Proof.
  rewrite acquired_emit. unfold throttled_attempt, admission.
  destruct (SFltb rem (Number.of_Z 1)); simpl; lia.
Qed.

(** A 429 sends the request back into [_throttle]: the run continues as a
    fresh run from the world in which the attempt and the wait have
    happened. *)
Lemma wrapRequest_throttled (n : nat) (w : World) (r : Response) :
  fst (limiter w (acquired w)) = None ->
  network w (calls w) = Respond r ->
  status r = 429 ->
  run (S n) w =
  run n (emit (throttled_attempt this url options (snd (limiter w (acquired w))) r) w).
Proof.
  intros Hlim Hnet Hst. unfold run, _wrapRequest.
  rewrite throttle_step, Hlim. unfold settle.
  unfold attempt at 1. unfold bind at 1.
  rewrite request_run, calls_admission. cbn [network emit].
  rewrite Hnet, Hst. cbn [Z.leb Z.eqb Z.compare Pos.compare Pos.compare_cont Pos.eqb].
  unfold bind at 1. unfold sleep at 1.
  rewrite !emit_emit. reflexivity.
Qed.

Lemma wrapRequest_retries (k n : nat) : forall w : World,
  (forall i, (i < k)%nat ->
     exists r, network w (calls w + i) = Respond r /\ status r = 429) ->
  (forall i, (i < k)%nat -> fst (limiter w (acquired w + i)) = None) ->
  let w' := after_throttled this k url options w in
  run (k + n) w = run n w'
  /\ calls w' = (calls w + k)%nat
  /\ acquired w' = (acquired w + k)%nat
  /\ network w' = network w
  /\ limiter w' = limiter w.
Proof.
  induction k as [|k IH]; intros w Hnet Hlim.
  - cbn. repeat split; lia.
  - destruct (Hnet O ltac:(lia)) as [r [Hr Hst]].
    rewrite Nat.add_0_r in Hr.
    pose proof (Hlim O ltac:(lia)) as Hl. rewrite Nat.add_0_r in Hl.
    cbn [after_throttled]. rewrite Hr.
    set (w1 := emit (throttled_attempt this url options
                       (snd (limiter w (acquired w))) r) w).
    assert (Hc : calls w1 = S (calls w)) by apply calls_throttled_attempt.
    assert (Ha : acquired w1 = S (acquired w)) by apply acquired_throttled_attempt.
    destruct (IH w1) as [Hrun [Hcalls [Hacq [Hn Hl']]]].
    + intros i Hi. rewrite Hc. cbn [network w1 emit].
      replace (S (calls w) + i)%nat with (calls w + S i)%nat by lia.
      apply Hnet. lia.
    + intros i Hi. rewrite Ha. cbn [limiter w1 emit].
      replace (S (acquired w) + i)%nat with (acquired w + S i)%nat by lia.
      apply Hlim. lia.
    + cbn zeta in *. split.
      * change (S k + n)%nat with (S (k + n)).
        rewrite (wrapRequest_throttled (k + n) w r Hl Hr Hst). exact Hrun.
      * rewrite Hcalls, Hacq, Hn, Hl', Hc, Ha. cbn [network limiter w1 emit].
        repeat split; lia.
Qed.

End Retry.

(** ** What every run keeps *)

Ltac run_step :=
  match goal with
  | |- context [bind (ret _) _ _] => unfold bind at 1; unfold ret at 1
  | |- context [bind (reject _) _ _] => unfold bind at 1; unfold reject at 1
  | |- context [bind (lift ?x) _ _] => destruct x; unfold lift at 1
  | |- context [bind (response_json ?r) _ _] =>
      unfold response_json at 1; destruct (json r)
  | |- context [bind (response_buffer _) _ _] => unfold response_buffer at 1
  | |- context [bind (console_warn _) _ _] =>
      unfold bind at 1; unfold console_warn at 1
  | |- context [bind (if ?b then _ else _) _ _] => destruct b
  | |- context [bind (bind _ _) _ _] => unfold bind at 1
  end.

Section Invariant.

Variable this : Anvil.
Variables (url : string) (options : RequestInit) (clientOptions : obj).

(** An attempt whose response is not a 429 settles on the spot: nothing
    follows the physical call but, possibly, a warning. *)
Lemma attempt_settles (K : Number -> Async Wrapped) (w : World) (r : Response) :
  network w (calls w) = Respond r ->
  status r <> 429 ->
  exists c warnings,
    attempt (_request this url options) clientOptions K w
    = (c, emit (Fetch (address this url) (_addDefaultHeaders this options)
                :: warnings) w)
    /\ Forall quiet warnings.
Proof.
  intros Hnet Hst. unfold attempt. unfold bind at 1.
  rewrite request_run, Hnet.
  assert (Hdone : forall (c : Completion Wrapped) (es : list Event),
             Forall quiet es ->
             exists c' warnings,
               (c, emit es (emit [Fetch (address this url)
                                    (_addDefaultHeaders this options)] w))
               = (c', emit (Fetch (address this url)
                              (_addDefaultHeaders this options) :: warnings) w)
               /\ Forall quiet warnings).
  { intros c es Hes. exists c, es. rewrite emit_emit. split; [reflexivity|exact Hes]. }
  assert (Hnow : forall c : Completion Wrapped,
             exists c' warnings,
               (c, emit [Fetch (address this url)
                           (_addDefaultHeaders this options)] w)
               = (c', emit (Fetch (address this url)
                              (_addDefaultHeaders this options) :: warnings) w)
               /\ Forall quiet warnings).
  { intros c. exists c, []. split; [reflexivity|constructor]. }
  destruct (300 <=? status r).
  - destruct (Z.eqb_spec (status r) 429) as [E|_]; [contradiction|].
    repeat run_step; unfold ret; cbn beta iota; try apply Hnow.
  - repeat run_step; unfold response_json, ret, reject; try destruct (json r);
      cbn beta iota; try apply Hnow; apply Hdone; repeat constructor.
Qed.

Lemma sleep_then {A} (ms : Number) (m : Async A) (w : World) :
  (sleep ms ;;; m) w = m (emit [Sleep ms] w).
Proof. reflexivity. Qed.

Lemma attempt_throttled (K : Number -> Async Wrapped) (w : World) (r : Response) :
  network w (calls w) = Respond r ->
  status r = 429 ->
  attempt (_request this url options) clientOptions K w
  = K (getRetryMS (headers_get (response_headers r) "retry-after"))
      (emit [Fetch (address this url) (_addDefaultHeaders this options)] w).
Proof.
  intros Hnet Hst. unfold attempt. unfold bind at 1.
  rewrite request_run, Hnet, Hst. reflexivity.
Qed.

Lemma attempt_network_error (K : Number -> Async Wrapped) (w : World) (e : exn) :
  network w (calls w) = NetworkError e ->
  attempt (_request this url options) clientOptions K w
  = (Rejected e,
     emit [Fetch (address this url) (_addDefaultHeaders this options)] w).
Proof.
  intros Hnet. unfold attempt. unfold bind at 1.
  rewrite request_run, Hnet. reflexivity.
Qed.

Lemma quiet_filters (l : list Event) :
  Forall quiet l -> filter is_fetch l = [] /\ filter is_acquire l = [].
Proof.
  induction 1 as [|e l [Hf Ha] _ [IHf IHa]]; [split; reflexivity|].
  cbn. rewrite Hf, Ha. split; assumption.
Qed.

Lemma invariant_after (es : list Event) (d d' : nat) (w w' : World)
    (c : Completion Wrapped) :
  Forall (expected_event this url options) es ->
  (d' + List.length (filter is_acquire es)
   = d + List.length (filter is_fetch es))%nat ->
  run_invariant this d url options (emit es w) c w' ->
  run_invariant this d' url options w c w'.
Proof.
  intros Hes Hd (Hn & Hl & (es' & Ht & Hes') & Hc & Hr).
  rewrite calls_emit, acquired_emit in Hc.
  repeat split.
  - exact Hn.
  - exact Hl.
  - exists (es ++ es')%list. split.
    + rewrite Ht. cbn [trace emit]. rewrite app_assoc. reflexivity.
    + apply Forall_app. split; assumption.
  - lia.
  - destruct (Hr res H) as [Hlt _]. rewrite calls_emit in Hlt. lia.
  - destruct (Hr res H) as [_ Hex]. exact Hex.
Qed.

Lemma invariant_settled (w : World) (r : Response) (c : Completion Wrapped)
    (warnings : list Event) :
  network w (calls w) = Respond r ->
  status r <> 429 ->
  Forall quiet warnings ->
  run_invariant this 1 url options w c
    (emit (Fetch (address this url) (_addDefaultHeaders this options)
           :: warnings) w).
Proof.
  intros Hnet Hst Hq.
  destruct (quiet_filters warnings Hq) as [Hf Ha].
  repeat split.
  - eexists. split; [reflexivity|]. constructor; [split; reflexivity|].
    clear Hf Ha. induction Hq as [|e l [He _] _ IH]; constructor; [|exact IH].
    destruct e; try exact I. discriminate.
  - rewrite calls_emit, acquired_emit. cbn [filter is_fetch is_acquire].
    rewrite Hf, Ha. cbn. lia.
  - rewrite calls_emit. cbn [filter is_fetch]. rewrite Hf. cbn. lia.
  - exists r. rewrite calls_emit. cbn [filter is_fetch]. rewrite Hf. cbn.
    rewrite Nat.add_1_r. cbn [pred]. split; assumption.
Qed.

Lemma invariant_unsettled (w w' : World) (c : Completion Wrapped) (d : nat) :
  network w' = network w ->
  limiter w' = limiter w ->
  (exists es, trace w' = (trace w ++ es)%list
              /\ Forall (expected_event this url options) es) ->
  (calls w' + acquired w = calls w + acquired w' + d)%nat ->
  (forall res, c <> Resolved res) ->
  run_invariant this d url options w c w'.
Proof.
  intros Hn Hl Ht Hc Hr. repeat split; try assumption;
    exfalso; exact (Hr res H).
Qed.

Let fn := attempt (_request this url options) clientOptions.

Lemma throttle_invariant (n : nat) : forall w : World,
  run_invariant this 0 url options w
    (fst (_throttle this n fn w)) (snd (_throttle this n fn w)).
Proof.
  induction n as [|n IH]; intros w.
  - cbn. apply invariant_unsettled; try reflexivity; try lia.
    + exists []. rewrite app_nil_r. split; [reflexivity|constructor].
    + intros res H. discriminate H.
  - rewrite throttle_step.
    set (rem := snd (limiter w (acquired w))).
    set (w2 := emit (admission this rem) w).
    assert (Hinner : run_invariant this 1 url options w2
                       (fst (fn (fun ms => sleep ms ;;; _throttle this n fn) w2))
                       (snd (fn (fun ms => sleep ms ;;; _throttle this n fn) w2))).
    { unfold fn at 1 3. destruct (network w2 (calls w2)) as [r|e] eqn:Hnet.
      - destruct (Z.eq_dec (status r) 429) as [Hst|Hst].
        + rewrite (attempt_throttled _ w2 r Hnet Hst), sleep_then, emit_emit.
          eapply invariant_after; [| |apply IH].
          * repeat constructor.
          * reflexivity.
        + destruct (attempt_settles (fun ms => sleep ms ;;; _throttle this n fn)
                      w2 r Hnet Hst) as (c & warnings & Heq & Hq).
          rewrite Heq. cbn [fst snd]. apply (invariant_settled w2 r); assumption.
      - rewrite (attempt_network_error _ w2 e Hnet). cbn [fst snd].
        apply invariant_unsettled; try reflexivity.
        + eexists. split; [reflexivity|]. repeat constructor.
        + rewrite calls_emit, acquired_emit. cbn. lia.
        + intros res H. discriminate H. }
    assert (Hadm : Forall (expected_event this url options) (admission this rem)).
    { unfold admission. destruct (SFltb rem (Number.of_Z 1)); repeat constructor. }
    assert (Hcount : (0 + List.length (filter is_acquire (admission this rem))
                      = 1 + List.length (filter is_fetch (admission this rem)))%nat).
    { unfold admission. destruct (SFltb rem (Number.of_Z 1)); reflexivity. }
    unfold settle. destruct (fst (limiter w (acquired w))) as [e|].
    + cbn [fst snd].
      destruct Hinner as (Hn & Hl & Ht & Hc & _).
      eapply invariant_after; [exact Hadm|exact Hcount|].
      apply invariant_unsettled; try assumption.
      intros res H. discriminate H.
    + eapply invariant_after; [exact Hadm|exact Hcount|exact Hinner].
Qed.

End Invariant.

(** ** C1: the executor retries every 429 *)

Section Retry429.

Variable this : Anvil.
Variables (url : string) (options : RequestInit) (clientOptions : option obj).

Let run (n : nat) : Async Wrapped :=
  _wrapRequest this n (_request this url options) clientOptions.

(** A response below 300 decoded as JSON ends the run with its payload. *)
Lemma wrapRequest_json (n : nat) (w : World) (r : Response) (data : value) :
  fst (limiter w (acquired w)) = None ->
  network w (calls w) = Respond r ->
  status r < 300 ->
  Obj.get (or_empty clientOptions) "dataType" = VStr DATA_TYPE_JSON ->
  json r = Some data ->
  _wrapRequest this (S n) (_request this url options) clientOptions w =
  (Resolved (Success r data (status r)),
   emit (admission this (snd (limiter w (acquired w)))
         ++ [Fetch (address this url) (_addDefaultHeaders this options)]) w).
Proof.
  intros Hlim Hnet Hst Hdt Hjson. unfold _wrapRequest.
  rewrite throttle_step, Hlim. unfold settle, attempt.
  unfold bind at 1. rewrite request_run, calls_admission. cbn [network emit].
  rewrite Hnet. apply Z.leb_gt in Hst. rewrite Hst, Hdt.
  cbn [is_string]. cbn. unfold response_json. rewrite Hjson.
  unfold bind, ret. rewrite emit_emit. reflexivity.
Qed.

(** C1. A response with status 429 makes the executor wait the delay of
    [getRetryMS] and run the same request again through [_throttle], where
    it acquires a token again; this goes on for any number [k] of 429s in
    a row; in every run the physical calls and the token acquisitions are
    equally many and a result is computed from the reply to the last call,
    a response whose status is not 429; and when the transport answers 429
    and then 200, two physical calls are made and the payload of the 200
    is the result. *)
Theorem retry_on_429 :
  (forall (n : nat) (w : World) (r : Response),
      fst (limiter w (acquired w)) = None ->
      network w (calls w) = Respond r ->
      status r = 429 ->
      run (S n) w =
      run n (emit (throttled_attempt this url options
                     (snd (limiter w (acquired w))) r) w))
  /\ (forall (k n : nat) (w : World),
        (forall i, (i < k)%nat ->
           exists r, network w (calls w + i) = Respond r /\ status r = 429) ->
        (forall i, (i < k)%nat -> fst (limiter w (acquired w + i)) = None) ->
        run (k + n) w = run n (after_throttled this k url options w)
        /\ calls (after_throttled this k url options w) = (calls w + k)%nat
        /\ acquired (after_throttled this k url options w) = (acquired w + k)%nat)
  /\ (forall (n : nat) (w : World),
        run_invariant this 0 url options w (fst (run n w)) (snd (run n w)))
  /\ (forall (n : nat) (w : World) (r1 r2 : Response) (data : value),
        fst (limiter w (acquired w)) = None ->
        fst (limiter w (S (acquired w))) = None ->
        network w (calls w) = Respond r1 ->
        status r1 = 429 ->
        network w (S (calls w)) = Respond r2 ->
        status r2 = 200 ->
        json r2 = Some data ->
        Obj.get (or_empty clientOptions) "dataType" = VStr DATA_TYPE_JSON ->
        fst (run (S (S n)) w) = Resolved (Success r2 data 200)
        /\ calls (snd (run (S (S n)) w)) = (calls w + 2)%nat
        /\ acquired (snd (run (S (S n)) w)) = (acquired w + 2)%nat
        /\ trace (snd (run (S (S n)) w)) =
           (trace w
            ++ admission this (snd (limiter w (acquired w)))
            ++ [Fetch (address this url) (_addDefaultHeaders this options);
                Sleep (getRetryMS (headers_get (response_headers r1) "retry-after"))]
            ++ admission this (snd (limiter w (S (acquired w))))
            ++ [Fetch (address this url) (_addDefaultHeaders this options)])%list).
Proof.
  split; [|split; [|split]].
  - intros n w r. apply wrapRequest_throttled.
  - intros k n w Hnet Hlim.
    destruct (wrapRequest_retries this url options clientOptions k n w Hnet Hlim)
      as (H1 & H2 & H3 & _).
    repeat split; assumption.
  - intros n w. apply throttle_invariant.
  - intros n w r1 r2 data Hl1 Hl2 Hn1 Hs1 Hn2 Hs2 Hjson Hdt.
    unfold run.
    rewrite (wrapRequest_throttled this url options clientOptions (S n) w r1 Hl1 Hn1 Hs1).
    set (w1 := emit (throttled_attempt this url options
                       (snd (limiter w (acquired w))) r1) w).
    assert (Hc : calls w1 = S (calls w)) by apply calls_throttled_attempt.
    assert (Ha : acquired w1 = S (acquired w)) by apply acquired_throttled_attempt.
    rewrite (wrapRequest_json n w1 r2 data).
    + cbn [fst snd]. rewrite Hs2. split; [reflexivity|].
      rewrite calls_emit, acquired_emit, Hc, Ha.
      rewrite !filter_app, !length_app.
      pose proof (calls_admission this (snd (limiter w1 (acquired w1))) w1) as Hca.
      pose proof (acquired_admission this (snd (limiter w1 (acquired w1))) w1) as Haa.
      rewrite calls_emit in Hca. rewrite acquired_emit in Haa.
      cbn [filter is_fetch is_acquire List.length].
      rewrite Hc, Ha in Hca. rewrite Ha in Haa.
      split; [lia|]. split; [lia|].
      cbn [trace limiter emit w1]. unfold throttled_attempt.
      rewrite <- !app_assoc. reflexivity.
    + rewrite Ha. exact Hl2.
    + rewrite Hc. exact Hn2.
    + rewrite Hs2. lia.
    + exact Hdt.
    + exact Hjson.
Qed.

End Retry429.

Lemma retry_on_429_witness :
  let run :=
    _wrapRequest Sample.client 2 (_request Sample.client "/test" Sample.post)
      (Some [("dataType", VStr "json")])
      (Sample.world [Sample.tooManyRequests] Sample.ok) in
  fst run = Resolved (Success Sample.ok (VObj [("result", VStr "ok")]) 200)
  /\ calls (snd run) = 2%nat
  /\ acquired (snd run) = 2%nat
  /\ trace (snd run) =
     [Acquire;
      Fetch "https://app.useanvil.com/test" (_addDefaultHeaders Sample.client Sample.post);
      Sleep (Number.of_Z 250);
      Acquire;
      Fetch "https://app.useanvil.com/test" (_addDefaultHeaders Sample.client Sample.post)].
Proof.
  destruct (retry_on_429 Sample.client "/test" Sample.post
              (Some [("dataType", VStr "json")])) as (_ & _ & _ & scenario).
  destruct (scenario 0%nat (Sample.world [Sample.tooManyRequests] Sample.ok)
              Sample.tooManyRequests Sample.ok (VObj [("result", VStr "ok")])
              eq_refl eq_refl eq_refl eq_refl eq_refl eq_refl eq_refl eq_refl)
    as (R & C & A & T).
  cbv zeta.
  split; [exact R | split; [exact C | split; [exact A | rewrite T; reflexivity]]].
Defined.

(** ** C3: failed calls are results *)

Lemma legacy_throttle_step {A} (this : Anvil) (n : nat)
    (fn : (Number -> Async A) -> Async A) (w : World) :
  Legacy.throttle this (S n) fn w =
  settle (fst (limiter w (acquired w)))
         (fn (fun ms => sleep ms ;;; Legacy.throttle this n fn))
         (emit (admission this (snd (limiter w (acquired w)))) w).
Proof.
  cbn [Legacy.throttle]. unfold bind at 1. unfold removeTokens at 1.
  destruct (limiter w (acquired w)) as [err rem]. cbn [fst snd].
  unfold bind at 1. unfold admission.
  destruct (SFltb rem (Number.of_Z 1)).
  - unfold sleep at 1. rewrite emit_emit. reflexivity.
  - unfold ret at 1. reflexivity.
Qed.

Section Failures.

Variable this : Anvil.
Variables (url : string) (options : RequestInit) (clientOptions : option obj).

Lemma wrapRequest_failure (n : nat) (w : World) (r : Response) (body : value) :
  fst (limiter w (acquired w)) = None ->
  network w (calls w) = Respond r ->
  300 <= status r ->
  status r <> 429 ->
  json r = Some body ->
  nullish body = false ->
  _wrapRequest this (S n) (_request this url options) clientOptions w =
  (Resolved (Failure (failure_of (status r) body)),
   emit (admission this (snd (limiter w (acquired w)))
         ++ [Fetch (address this url) (_addDefaultHeaders this options)]) w).
Proof.
  intros Hlim Hnet Hge Hne Hjson Hbody. unfold _wrapRequest.
  rewrite throttle_step, Hlim. unfold settle, attempt.
  unfold bind at 1. rewrite request_run, calls_admission. cbn [network emit].
  rewrite Hnet. apply Z.leb_le in Hge. rewrite Hge.
  destruct (Z.eqb_spec (status r) 429) as [E|_]; [contradiction|].
  unfold response_json. rewrite Hjson. rewrite emit_emit.
  unfold failure_of.
  destruct body; try discriminate Hbody;
    unfold getProperty, lift, bind, ret, reject; cbn [truthy];
    repeat match goal with
      | |- context [truthy ?v] => destruct (truthy v) eqn:?
      end;
    try reflexivity; try congruence; try (cbn [truthy] in *; discriminate).
Qed.

Lemma legacy_requestREST_failure (n : nat) (w : World) (r : Response) (body : value) :
  fst (limiter w (acquired w)) = None ->
  network w (calls w) = Respond r ->
  300 <= status r ->
  status r <> 429 ->
  json r = Some body ->
  nullish body = false ->
  Legacy.requestREST this (S n) url options clientOptions w =
  (Resolved (legacy_failure_of (status r) body),
   emit (admission this (snd (limiter w (acquired w)))
         ++ [Fetch (address this url) options]) w).
Proof.
  intros Hlim Hnet Hge Hne Hjson Hbody. unfold Legacy.requestREST.
  rewrite legacy_throttle_step, Hlim. unfold settle, Legacy.attempt.
  unfold bind at 1. unfold Legacy.request, fetch.
  rewrite calls_admission. cbn [network emit]. rewrite Hnet.
  destruct (Z.eqb_spec (status r) 429) as [E|_]; [contradiction|].
  apply Z.leb_le in Hge. rewrite Hge.
  unfold response_json. rewrite Hjson.
  unfold legacy_failure_of.
  destruct body; try discriminate Hbody;
    unfold getProperty, lift, bind, ret, reject; cbn [truthy];
    repeat match goal with
      | |- context [truthy ?v] => destruct (truthy v) eqn:?
      end;
    rewrite ?emit_emit; try reflexivity; try congruence;
    try (cbn [truthy] in *; discriminate).
Qed.

End Failures.

(** C3, with the body as the wrapped error.  A response with status 300 or
    more other than 429 whose body decodes to a JSON object is turned into a
    result, not an exception: [{ statusCode, errors: body.errors }] when [body.errors] is
    truthy; otherwise, when [body.message] is truthy,
    [{ statusCode, errors: [body] }] with the whole body as the one element
    (the earlier [requestREST] wraps [body.message] instead); otherwise the
    properties of the body merged over [statusCode]. *)
Theorem failure_is_a_result (this : Anvil) (url : string) (options : RequestInit)
    (clientOptions : option obj) (n : nat) (w : World) (r : Response) (fields : obj) :
  fst (limiter w (acquired w)) = None ->
  network w (calls w) = Respond r ->
  300 <= status r ->
  status r <> 429 ->
  json r = Some (VObj fields) ->
  let statusCode := ("statusCode", VNum (Number.of_Z (status r))) in
  let result := fst (_wrapRequest this (S n) (_request this url options) clientOptions w) in
  let earlier := fst (Legacy.requestREST this (S n) url options clientOptions w) in
  (truthy (Obj.get fields "errors") = true ->
     result = Resolved (Failure [statusCode; ("errors", Obj.get fields "errors")])
     /\ earlier = Resolved [statusCode; ("errors", Obj.get fields "errors")])
  /\ (truthy (Obj.get fields "errors") = false ->
      truthy (Obj.get fields "message") = true ->
      result = Resolved (Failure [statusCode; ("errors", VArr [VObj fields])])
      /\ earlier = Resolved [statusCode; ("errors", VArr [Obj.get fields "message"])])
  /\ (truthy (Obj.get fields "errors") = false ->
      truthy (Obj.get fields "message") = false ->
      result = Resolved (Failure (Obj.spread [statusCode] fields))
      /\ earlier = Resolved (Obj.spread [statusCode] fields)).
Proof.
  intros Hlim Hnet Hge Hne Hjson statusCode result earlier.
  unfold result, earlier.
  rewrite (wrapRequest_failure this url options clientOptions n w r (VObj fields))
    by (assumption || reflexivity).
  rewrite (legacy_requestREST_failure this url options clientOptions n w r (VObj fields))
    by (assumption || reflexivity).
  cbn [fst]. unfold failure_of, legacy_failure_of, statusCode.
  repeat split; intros; repeat match goal with H : truthy _ = _ |- _ => rewrite H end;
    reflexivity.
Qed.

Lemma failure_is_a_result_witness :
  fst (_wrapRequest Sample.client 1
         (_request Sample.client "/api/v1/fill/cast123.pdf" Sample.post) None
         (Sample.world [] Sample.badRequest))
  = Resolved (Failure [("statusCode", VNum (Number.of_Z 400));
                       ("errors", VArr [VObj [("message", VStr "problem")]])])
  /\ fst (_wrapRequest Sample.client 1
            (_request Sample.client "/api/v1/fill/cast123.pdf" Sample.post) None
            (Sample.world [] Sample.unauthorized))
     = Resolved (Failure [("statusCode", VNum (Number.of_Z 401));
                          ("errors", VArr [Sample.authorizationError])])
  /\ fst (_wrapRequest Sample.client 1
            (_request Sample.client "/api/v1/fill/cast123.pdf" Sample.post) None
            (Sample.world [] Sample.teapot))
     = Resolved (Failure [("statusCode", VNum (Number.of_Z 418));
                          ("hint", VStr "tea")]).
Proof.
  pose proof (failure_is_a_result Sample.client "/api/v1/fill/cast123.pdf" Sample.post
                None 0 (Sample.world [] Sample.badRequest) Sample.badRequest
                [("errors", VArr [VObj [("message", VStr "problem")]])]) as H400.
  pose proof (failure_is_a_result Sample.client "/api/v1/fill/cast123.pdf" Sample.post
                None 0 (Sample.world [] Sample.unauthorized) Sample.unauthorized
                [("name", VStr "AuthorizationError"); ("message", VStr "problem")]) as H401.
  pose proof (failure_is_a_result Sample.client "/api/v1/fill/cast123.pdf" Sample.post
                None 0 (Sample.world [] Sample.teapot) Sample.teapot
                [("hint", VStr "tea")]) as H418.
  destruct (H400 eq_refl eq_refl ltac:(cbv; discriminate) ltac:(cbv; discriminate) eq_refl)
    as (A & _ & _).
  destruct (H401 eq_refl eq_refl ltac:(cbv; discriminate) ltac:(cbv; discriminate) eq_refl)
    as (_ & B & _).
  destruct (H418 eq_refl eq_refl ltac:(cbv; discriminate) ltac:(cbv; discriminate) eq_refl)
    as (_ & _ & C).
  split; [|split].
  - exact (proj1 (A eq_refl)).
  - exact (proj1 (B eq_refl eq_refl)).
  - exact (proj1 (C eq_refl eq_refl)).
Defined.

(** C3 with [errors: [body.message]] does not hold of the current executor:
    for a 401 with body [{ name, message: 'problem' }] the list holds the
    body, not the message. *)
Lemma message_is_not_what_is_wrapped :
  fst (_wrapRequest Sample.client 1
         (_request Sample.client "/api/v1/fill/cast123.pdf" Sample.post) None
         (Sample.world [] Sample.unauthorized))
  <> Resolved (Failure [("statusCode", VNum (Number.of_Z 401));
                        ("errors", VArr [VStr "problem"])]).
Proof. vm_compute. intros H. discriminate H. Qed.

(** ** C7: Base64 uploads *)

Section Base64Upload.

Variable static_method : string -> list Byte.byte -> obj -> exn + value.

Lemma prepareGraphQLBase64_requires (data : string) (options : option obj) :
  (truthy (Obj.get (or_empty options) "filename") = false ->
     _prepareGraphQLBase64 static_method data options
     = inl (Error "options.filename must be provided for Base64 upload"))
  /\ (truthy (Obj.get (or_empty options) "filename") = true ->
      truthy (Obj.get (or_empty options) "mimetype") = false ->
      _prepareGraphQLBase64 static_method data options
      = inl (Error "options.mimetype must be provided for Base64 upload"))
  /\ (truthy (Obj.get (or_empty options) "filename") = true ->
      truthy (Obj.get (or_empty options) "mimetype") = true ->
      truthy (Obj.get (or_empty options) "bufferize") = false ->
      _prepareGraphQLBase64 static_method data options
      = inr (VObj [("data", VStr data);
                   ("filename", Obj.get (or_empty options) "filename");
                   ("mimetype", Obj.get (or_empty options) "mimetype")])).
Proof.
  unfold _prepareGraphQLBase64.
  repeat split; intros; repeat match goal with H : truthy _ = _ |- _ => rewrite H end;
    reflexivity.
Qed.

(** C7, the [bufferize] path.  With [filename] and [mimetype] given and
    [bufferize] set, [_prepareGraphQLBase64] calls
    [this._prepareGraphQLBuffer], a static method that the class does not
    define: the call throws a [TypeError] and no buffer upload is
    returned. *)
Theorem prepareGraphQLBase64_bufferize (data : string) (options : option obj) :
  truthy (Obj.get (or_empty options) "filename") = true ->
  truthy (Obj.get (or_empty options) "mimetype") = true ->
  truthy (Obj.get (or_empty options) "bufferize") = true ->
  _prepareGraphQLBase64 static_method data options
  = inl (TypeError "this._prepareGraphQLBuffer is not a function").
Proof.
  intros Hf Hm Hb. unfold _prepareGraphQLBase64. rewrite Hf, Hm, Hb. reflexivity.
Qed.

End Base64Upload.

Lemma prepareGraphQLBase64_bufferize_witness :
  _prepareGraphQLBase64 (fun _ bytes _ => inr (VFile (Buffer 0 bytes)))
    "QmFzZTY0IERhdGE="
    (Some [("filename", VStr "omgwow.pdf"); ("mimetype", VStr "application/pdf");
           ("bufferize", VBool true)])
  = inl (TypeError "this._prepareGraphQLBuffer is not a function").
Proof.
  apply (prepareGraphQLBase64_bufferize
           (fun _ bytes _ => inr (VFile (Buffer 0 bytes))) "QmFzZTY0IERhdGE="
           (Some [("filename", VStr "omgwow.pdf"); ("mimetype", VStr "application/pdf");
                  ("bufferize", VBool true)]));
    reflexivity.
Defined.

(** ** Objects *)

Lemma get_set_same (o : obj) (k : string) (v : value) :
  Obj.get (Obj.set o k v) k = v.
Proof.
  induction o as [|[k' v'] o IH]; cbn.
  - rewrite String.eqb_refl. reflexivity.
  - destruct (String.eqb_spec k' k) as [->|Hne]; cbn.
    + rewrite String.eqb_refl. reflexivity.
    + destruct (String.eqb_spec k' k); [contradiction|]. exact IH.
Qed.

Lemma get_set_other (o : obj) (k k' : string) (v : value) :
  k <> k' -> Obj.get (Obj.set o k v) k' = Obj.get o k'.
Proof.
  intros Hne. induction o as [|[k0 v0] o IH]; cbn.
  - destruct (String.eqb_spec k k'); [contradiction|]. reflexivity.
  - destruct (String.eqb_spec k0 k) as [->|Hk]; cbn.
    + destruct (String.eqb_spec k k'); [contradiction|]. reflexivity.
    + destruct (String.eqb_spec k0 k'); [reflexivity|]. exact IH.
Qed.

(** ** C9 and C10: the authorization header *)

Section Authorization.

Variables description version : string.

Lemma constructor_authHeader (options : ClientOptions) (this : Anvil) :
  constructor description version (Some options) = inr this ->
  authHeader this =
  (if present (accessToken options)
   then "Bearer " ++ Base64.encode (Buffer_from_ascii (interpolate (accessToken options)))
   else "Basic " ++ Base64.encode (Buffer_from_ascii (interpolate (apiKey options) ++ ":")))
  /\ options_userAgent this
     = or_default (userAgent options) (description ++ "/" ++ version)
  /\ (present (apiKey options) || present (accessToken options)) = true.
Proof.
  unfold constructor. 
  destruct (present (apiKey options) || present (accessToken options)) eqn:Hp;
    cbn [negb]; [|discriminate].
  intros H. injection H as <-. cbn. repeat split.
Qed.

Lemma addDefaultHeaders_spec (this : Anvil) (options : RequestInit) :
  let sent := _addDefaultHeaders this options in
  let given := match headers options with Some h => h | None => [] end in
  exists h,
    headers sent = Some h
    /\ Obj.get h "Authorization" = VStr (authHeader this)
    /\ Obj.get h "User-Agent" = VStr (options_userAgent this)
    /\ (forall k, k <> "Authorization" -> k <> "User-Agent" ->
                  Obj.get h k = Obj.get given k)
    /\ method sent = method options
    /\ body sent = body options
    /\ signal sent = signal options.
Proof.
  cbv zeta. unfold _addDefaultHeaders, _addHeaders. cbn [headers method body signal].
  eexists. split; [reflexivity|]. unfold Obj.spread. cbn [fold_left fst snd].
  split; [apply get_set_same|].
  split; [rewrite get_set_other by discriminate; apply get_set_same|].
  split; [|repeat split].
  intros k Ha Hu. rewrite !get_set_other by congruence. reflexivity.
Qed.

(** C9. The constructor derives one [Authorization] value, [Bearer] and the
    base64 of the access token, or [Basic] and the base64 of the API key
    followed by a colon; the client keeps it, and every physical call of a
    run of the executor on [_request] is sent with headers in which
    [Authorization] is that value and [User-Agent] the configured one,
    whatever headers of those names the caller gave. *)
Theorem authorization_on_every_request (options : ClientOptions) (this : Anvil) :
  constructor description version (Some options) = inr this ->
  (forall token, accessToken options = Some token -> token <> "" ->
     authHeader this = "Bearer " ++ Base64.encode (Buffer_from_ascii token))
  /\ (forall key, present (accessToken options) = false -> apiKey options = Some key ->
        authHeader this = "Basic " ++ Base64.encode (Buffer_from_ascii (key ++ ":")))
  /\ options_userAgent this
     = or_default (userAgent options) (description ++ "/" ++ version)
  /\ (forall (init : RequestInit),
        exists h,
          headers (_addDefaultHeaders this init) = Some h
          /\ Obj.get h "Authorization" = VStr (authHeader this)
          /\ Obj.get h "User-Agent" = VStr (options_userAgent this))
  /\ (forall (n : nat) (url : string) (init : RequestInit) (clientOptions : option obj)
             (w : World),
        exists es,
          trace (snd (_wrapRequest this n (_request this url init) clientOptions w))
          = (trace w ++ es)%list
          /\ Forall (fun e => match e with
                              | Fetch _ sent => sent = _addDefaultHeaders this init
                              | _ => True
                              end) es).
Proof.
  intros Hc. destruct (constructor_authHeader options this Hc) as (Ha & Hu & _).
  split; [|split; [|split; [|split]]].
  - intros token Ht Hne. rewrite Ha, Ht. cbn [present interpolate].
    destruct (String.eqb_spec token ""); [contradiction|]. reflexivity.
  - intros key Hp Hk. rewrite Ha, Hp, Hk. reflexivity.
  - exact Hu.
  - intros init. destruct (addDefaultHeaders_spec this init) as (h & H1 & H2 & H3 & _).
    exists h. repeat split; assumption.
  - intros n url init clientOptions w.
    destruct (throttle_invariant this url init (or_empty clientOptions) n w)
      as (_ & _ & (es & Ht & Hes) & _).
    exists es. split; [exact Ht|].
    eapply Forall_impl; [|exact Hes].
    intros [] He; try exact I. exact (proj2 He).
Qed.

(** C10. With a non-empty access token in the options the header is the
    [Bearer] form of that token, whatever the API key; the [Basic] form is
    derived only when there is no access token (or an empty one). *)
Theorem accessToken_takes_precedence (options : ClientOptions) :
  (forall token, accessToken options = Some token -> token <> "" ->
     exists this,
       constructor description version (Some options) = inr this
       /\ authHeader this = "Bearer " ++ Base64.encode (Buffer_from_ascii token))
  /\ (forall this,
        constructor description version (Some options) = inr this ->
        String.prefix "Basic " (authHeader this) = true ->
        (accessToken options = None \/ accessToken options = Some "")
        /\ authHeader this
           = "Basic " ++ Base64.encode (Buffer_from_ascii (interpolate (apiKey options) ++ ":"))).
Proof.
  split.
  - intros token Ht Hne.
    assert (Hp : present (accessToken options) = true).
    { rewrite Ht. cbn. destruct (String.eqb_spec token ""); [contradiction|]. reflexivity. }
    unfold constructor. rewrite Hp, orb_true_r. cbn [negb].
    eexists. split; [reflexivity|]. cbn [authHeader]. rewrite Ht. reflexivity.
  - intros this Hc Hb.
    destruct (constructor_authHeader options this Hc) as (Ha & _ & _).
    rewrite Ha in Hb |- *.
    destruct (accessToken options) as [token|] eqn:Ht; cbn [present] in *.
    + destruct (String.eqb_spec token "") as [->|Hne]; cbn [negb] in *.
      * split; [right; reflexivity|reflexivity].
      * cbn in Hb. discriminate Hb.
    + split; [left; reflexivity|reflexivity].
Qed.

End Authorization.

Lemma authorization_on_every_request_witness :
  authHeader Sample.client = "Basic YWJjMTIzOg=="
  /\ exists h,
       headers (_addDefaultHeaders Sample.client
                  {| method := "POST";
                     headers := Some [("Authorization", VStr "Bearer mine");
                                      ("User-Agent", VStr "curl");
                                      ("Content-Type", VStr "application/json")];
                     body := NoBody; signal := None |}) = Some h
       /\ Obj.get h "Authorization" = VStr "Basic YWJjMTIzOg=="
       /\ Obj.get h "User-Agent" = VStr "Anvil API Client/2.0.0".
Proof.
  destruct (authorization_on_every_request "Anvil API Client" "2.0.0"
              {| apiKey := Some "abc123"; accessToken := None;
                 baseURL := None; userAgent := None |}
              Sample.client eq_refl) as (_ & Hbasic & _ & Hsent & _).
  split.
  - rewrite (Hbasic "abc123" eq_refl eq_refl). reflexivity.
  - destruct (Hsent {| method := "POST";
                       headers := Some [("Authorization", VStr "Bearer mine");
                                        ("User-Agent", VStr "curl");
                                        ("Content-Type", VStr "application/json")];
                       body := NoBody; signal := None |}) as (h & H1 & H2 & H3).
    exists h. split; [exact H1|]. split; [exact H2|exact H3].
Defined.

Lemma accessToken_takes_precedence_witness :
  exists this,
    constructor "Anvil API Client" "2.0.0"
      (Some {| apiKey := Some "abc123"; accessToken := Some "def345";
               baseURL := None; userAgent := None |}) = inr this
    /\ authHeader this = "Bearer ZGVmMzQ1".
Proof.
  destruct (accessToken_takes_precedence "Anvil API Client" "2.0.0"
              {| apiKey := Some "abc123"; accessToken := Some "def345";
                 baseURL := None; userAgent := None |}) as [Hbearer _].
  destruct (Hbearer "def345" eq_refl ltac:(discriminate)) as (this & Hc & Ha).
  exists this. split; [exact Hc|]. rewrite Ha. reflexivity.
Defined.

(** ** C8: the data types of the REST operations *)

Section DataTypes.

Variable JSON_stringify : value -> string.
Variable this : Anvil.

(** C8, for truthy values.  For [fillPDF], [generatePDF] and
    [downloadDocuments]:
    every truthy [clientOptions.dataType] other than ['stream'] and
    ['buffer'] makes the call throw, before a promise exists and so before
    any network call; with [dataType] omitted the request is made with
    [dataType: 'buffer']; with ['stream'] or ['buffer'] it is made with that
    value. *)
Theorem dataType_is_checked (n : nat) (id : string) (payload : value)
    (clientOptions : obj) :
  let dataType := Obj.get clientOptions "dataType" in
  let forwarded v := Some (Obj.spread clientOptions [("dataType", v)]) in
  (truthy dataType = true ->
   includes [DATA_TYPE_STREAM; DATA_TYPE_BUFFER] dataType = false ->
     rejected (fillPDF JSON_stringify this n id payload (Some clientOptions))
     /\ rejected (generatePDF JSON_stringify this n payload (Some clientOptions))
     /\ rejected (downloadDocuments this n id (Some clientOptions)))
  /\ (dataType = VUndefined ->
      fillPDF JSON_stringify this n id payload (Some clientOptions)
      = inr (requestREST this n ("/api/v1/fill/" ++ id ++ ".pdf")
               (jsonRequest JSON_stringify payload) (forwarded (VStr "buffer")))
      /\ generatePDF JSON_stringify this n payload (Some clientOptions)
         = inr (requestREST this n "/api/v1/generate-pdf"
                  (jsonRequest JSON_stringify payload) (forwarded (VStr "buffer")))
      /\ downloadDocuments this n id (Some clientOptions)
         = inr (requestREST this n ("/api/document-group/" ++ id ++ ".zip")
                  {| method := "GET"; headers := None; body := NoBody; signal := None |}
                  (forwarded (VStr "buffer"))))
  /\ (includes [DATA_TYPE_STREAM; DATA_TYPE_BUFFER] dataType = true ->
      fillPDF JSON_stringify this n id payload (Some clientOptions)
      = inr (requestREST this n ("/api/v1/fill/" ++ id ++ ".pdf")
               (jsonRequest JSON_stringify payload) (forwarded dataType))
      /\ generatePDF JSON_stringify this n payload (Some clientOptions)
         = inr (requestREST this n "/api/v1/generate-pdf"
                  (jsonRequest JSON_stringify payload) (forwarded dataType))
      /\ downloadDocuments this n id (Some clientOptions)
         = inr (requestREST this n ("/api/document-group/" ++ id ++ ".zip")
                  {| method := "GET"; headers := None; body := NoBody; signal := None |}
                  (forwarded dataType)))
  /\ fillPDF JSON_stringify this n id payload None
     = inr (requestREST this n ("/api/v1/fill/" ++ id ++ ".pdf")
              (jsonRequest JSON_stringify payload) (Some [("dataType", VStr "buffer")])).
Proof.
  cbv zeta. unfold rejected, fillPDF, generatePDF, downloadDocuments, dataType_of.
  cbn [or_empty].
  split; [|split; [|split]].
  - intros Ht Hi.
    assert (Hd : match Obj.get clientOptions "dataType" with
                 | VUndefined => VStr DATA_TYPE_BUFFER
                 | v => v
                 end = Obj.get clientOptions "dataType").
    { destruct (Obj.get clientOptions "dataType"); try reflexivity. discriminate Ht. }
    rewrite Hd, Ht, Hi. repeat split.
  - intros ->. repeat split.
  - intros Hi.
    assert (Hd : match Obj.get clientOptions "dataType" with
                 | VUndefined => VStr DATA_TYPE_BUFFER
                 | v => v
                 end = Obj.get clientOptions "dataType").
    { destruct (Obj.get clientOptions "dataType"); try reflexivity. discriminate Hi. }
    rewrite Hd, Hi, andb_false_r. repeat split.
  - reflexivity.
Qed.

End DataTypes.

Lemma dataType_is_checked_witness :
  fillPDF Sample.stringify Sample.client 1 "cast123" (VObj [])
    (Some [("dataType", VStr "json")])
  = inl (Error "dataType must be one of: stream|buffer")
  /\ downloadDocuments Sample.client 1 "docGroupEid123" (Some [("dataType", VStr "json")])
     = inl (Error "dataType must be one of: stream|buffer")
  /\ downloadDocuments Sample.client 1 "docGroupEid123" (Some [("dataType", VStr "stream")])
     = inr (requestREST Sample.client 1 "/api/document-group/docGroupEid123.zip"
              {| method := "GET"; headers := None; body := NoBody; signal := None |}
              (Some [("dataType", VStr "stream")])).
Proof.
  destruct (dataType_is_checked Sample.stringify Sample.client 1 "cast123" (VObj [])
              [("dataType", VStr "json")]) as (Hrej & _).
  destruct (dataType_is_checked Sample.stringify Sample.client 1 "docGroupEid123"
              (VObj []) [("dataType", VStr "json")]) as (Hrej' & _).
  destruct (dataType_is_checked Sample.stringify Sample.client 1 "docGroupEid123"
              (VObj []) [("dataType", VStr "stream")]) as (_ & _ & Hok & _).
  split; [exact (proj1 (Hrej eq_refl eq_refl))|].
  split; [exact (proj2 (proj2 (Hrej' eq_refl eq_refl)))|].
  exact (proj2 (proj2 (Hok eq_refl))).
Defined.

(** C8 does not hold for a falsy [dataType] other than [undefined]: [null]
    is outside the supported set, yet [fillPDF] does not throw and the call
    goes to the network. *)
Lemma null_dataType_is_not_rejected :
  includes [DATA_TYPE_STREAM; DATA_TYPE_BUFFER] VNull = false
  /\ exists run,
       fillPDF Sample.stringify Sample.client 1 "cast123" (VObj [])
         (Some [("dataType", VNull)]) = inr run
       /\ calls (snd (run (Sample.world [] Sample.ok))) = 1%nat.
Proof.
  split; [reflexivity|]. eexists. split; [reflexivity|]. vm_compute. reflexivity.
Qed.

(** ** Induction on values *)

Section ValueInduction.

Variable P : value -> Prop.
Hypothesis leaf : forall v, match v with VArr _ | VObj _ => False | _ => True end -> P v.
Hypothesis array : forall items, Forall P items -> P (VArr items).
Hypothesis object : forall fields, Forall (fun kv => P (snd kv)) fields -> P (VObj fields).

Fixpoint value_induction (v : value) : P v :=
  match v with
  | VArr items =>
      array items
        ((fix all (l : list value) : Forall P l :=
            match l with
            | [] => Forall_nil P
            | x :: r => Forall_cons x (value_induction x) (all r)
            end) items)
  | VObj fields =>
      object fields
        ((fix all (l : obj) : Forall (fun kv => P (snd kv)) l :=
            match l with
            | [] => Forall_nil _
            | (k, x) :: r =>
                Forall_cons (P := fun kv => P (snd kv)) (k, x) (value_induction x) (all r)
            end) fields)
  | v' => leaf v' I
  end.

End ValueInduction.

(** ** The files map *)

Import ExtractFiles.

Lemma addFile_nonempty (files : FilesMap) (paths : list string) (file : value) :
  addFile files paths file <> [].
Proof.
  destruct files as [|[f ps] rest]; cbn; [discriminate|].
  destruct (same_object f file); discriminate.
Qed.

Lemma addFiles_empty (files found : FilesMap) :
  addFiles files found = [] -> files = [] /\ found = [].
Proof.
  unfold addFiles. revert files.
  induction found as [|[f ps] found IH]; intros files H; cbn in H.
  - split; [exact H|reflexivity].
  - apply IH in H. destruct H as [H _]. cbn in H.
    exfalso. exact (addFile_nonempty _ _ _ H).
Qed.

Lemma children_empty (extract : value -> string -> value * FilesMap) (prefix : string)
    (items : list value) :
  Forall (fun x => forall path, snd (extract x path) = [] -> fst (extract x path) = x) items ->
  forall i files,
    snd (children extract prefix items i files) = [] ->
    fst (children extract prefix items i files) = items /\ files = [].
Proof.
  induction 1 as [|x items Hx _ IH]; intros i files H; cbn in *.
  - split; [reflexivity|exact H].
  - destruct (children extract prefix items (S i)
                (addFiles files (snd (extract x (prefix ++ string_of_nat i)))))
      as [clones files'] eqn:E.
    cbn in *. subst files'.
    specialize (IH (S i) (addFiles files (snd (extract x (prefix ++ string_of_nat i))))).
    rewrite E in IH. cbn in IH. destruct (IH eq_refl) as [-> Hadd].
    apply addFiles_empty in Hadd. destruct Hadd as [-> Hx0].
    rewrite (Hx _ Hx0). split; reflexivity.
Qed.

Lemma properties_empty (extract : value -> string -> value * FilesMap) (prefix : string)
    (fields : obj) :
  Forall (fun kv => forall path, snd (extract (snd kv) path) = [] ->
                                 fst (extract (snd kv) path) = snd kv) fields ->
  forall files,
    snd (properties extract prefix fields files) = [] ->
    fst (properties extract prefix fields files) = fields /\ files = [].
Proof.
  induction 1 as [|[k x] fields Hx _ IH]; intros files H; cbn in *.
  - split; [reflexivity|exact H].
  - destruct (properties extract prefix fields
                (addFiles files (snd (extract x (prefix ++ k)))))
      as [clones files'] eqn:E.
    cbn in *. subst files'.
    specialize (IH (addFiles files (snd (extract x (prefix ++ k))))).
    rewrite E in IH. cbn in IH. destruct (IH eq_refl) as [-> Hadd].
    apply addFiles_empty in Hadd. destruct Hadd as [-> Hx0].
    rewrite (Hx _ Hx0). split; reflexivity.
Qed.

(** Without files, the clone is the value. *)
Lemma extractFiles_no_files (isFile : value -> bool) (v : value) :
  forall path, snd (extractFiles v path isFile) = [] ->
               fst (extractFiles v path isFile) = v.
Proof.
  induction v as [v Hv|items IH|fields IH] using value_induction; intros path H.
  - destruct v; cbn in *; try contradiction;
      destruct (isFile _); try reflexivity; discriminate H.
  - cbn in *. destruct (isFile (VArr items)); [discriminate H|].
    set (extract := fun child path' => extractFiles child path' isFile) in *.
    destruct (children extract (prefix_of path) items 0 []) as [clones files] eqn:E.
    cbn in *. subst files.
    pose proof (children_empty extract (prefix_of path) items IH 0%nat []) as Hc.
    rewrite E in Hc. cbn in Hc. destruct (Hc eq_refl) as [-> _]. reflexivity.
  - cbn in *. destruct (isFile (VObj fields)); [discriminate H|].
    set (extract := fun child path' => extractFiles child path' isFile) in *.
    destruct (properties extract (prefix_of path) fields []) as [clones files] eqn:E.
    cbn in *. subst files.
    pose proof (properties_empty extract (prefix_of path) fields IH []) as Hc.
    rewrite E in Hc. cbn in Hc. destruct (Hc eq_refl) as [-> _]. reflexivity.
Qed.

Lemma addFile_keeps (Q : value -> Prop) (files : FilesMap) (paths : list string)
    (file : value) :
  Forall (fun e => Q (fst e)) files -> Q file ->
  Forall (fun e => Q (fst e)) (addFile files paths file).
Proof.
  intros Hall Hfile. induction Hall as [|[f ps] rest Hf Hrest IH]; cbn.
  - constructor; [exact Hfile|constructor].
  - destruct (same_object f file); constructor; assumption.
Qed.

Lemma distinct_addFile (files : FilesMap) (paths : list string) (file : value) :
  distinct files -> distinct (addFile files paths file).
Proof.
  induction files as [|[f ps] rest IH]; cbn [distinct addFile]; intros H.
  - split; [constructor|exact I].
  - destruct H as [Hf Hrest].
    destruct (same_object f file) eqn:E; cbn [distinct fst].
    + split; assumption.
    + split; [|exact (IH Hrest)].
      apply (addFile_keeps (fun k => same_object f k = false)); assumption.
Qed.

Lemma distinct_addFiles (found files : FilesMap) :
  distinct files -> distinct (addFiles files found).
Proof.
  unfold addFiles. revert files.
  induction found as [|[f ps] found IH]; intros files H; cbn; [exact H|].
  apply IH, distinct_addFile, H.
Qed.

Lemma children_distinct (extract : value -> string -> value * FilesMap) (prefix : string)
    (items : list value) :
  forall i files, distinct files -> distinct (snd (children extract prefix items i files)).
Proof.
  induction items as [|x items IH]; intros i files H; cbn; [exact H|].
  specialize (IH (S i) (addFiles files (snd (extract x (prefix ++ string_of_nat i))))).
  destruct (children extract prefix items (S i) _) as [clones files'].
  apply IH, distinct_addFiles, H.
Qed.

Lemma properties_distinct (extract : value -> string -> value * FilesMap) (prefix : string)
    (fields : obj) :
  forall files, distinct files -> distinct (snd (properties extract prefix fields files)).
Proof.
  induction fields as [|[k x] fields IH]; intros files H; cbn; [exact H|].
  specialize (IH (addFiles files (snd (extract x (prefix ++ k))))).
  destruct (properties extract prefix fields _) as [clones files'].
  apply IH, distinct_addFiles, H.
Qed.

(** Every object is the key of at most one entry. *)
Lemma extractFiles_distinct (isFile : value -> bool) (v : value) (path : string) :
  distinct (snd (extractFiles v path isFile)).
Proof.
  destruct v; cbn; destruct (isFile _); cbn;
    try exact I; try (split; [constructor|exact I]).
  - pose proof (children_distinct (fun child path' => extractFiles child path' isFile)
                  (prefix_of path) items 0%nat [] I) as H.
    destruct (children _ (prefix_of path) items 0 []). exact H.
  - pose proof (properties_distinct (fun child path' => extractFiles child path' isFile)
                  (prefix_of path) fields [] I) as H.
    destruct (properties _ (prefix_of path) fields []). exact H.
Qed.

(** ** The parts of the multipart form *)

Lemma string_of_nat_inj (a b : nat) : string_of_nat a = string_of_nat b -> a = b.
Proof.
  unfold string_of_nat. intros H.
  apply (f_equal NilEmpty.uint_of_string) in H.
  rewrite !NilEmpty.usu in H. injection H as H.
  apply Unsigned.to_uint_inj, H.
Qed.

Lemma set_fresh (o : obj) (k : string) (v : value) :
  Obj.has o k = false -> Obj.set o k v = (o ++ [(k, v)])%list.
Proof.
  induction o as [|[k' v'] o IH]; cbn; [reflexivity|].
  destruct (k' =? k)%string; cbn; [discriminate|].
  intros H. rewrite (IH H). reflexivity.
Qed.

Lemma has_app (o o' : obj) (k : string) :
  Obj.has (o ++ o')%list k = Obj.has o k || Obj.has o' k.
Proof.
  induction o as [|[k' v'] o IH]; cbn; [reflexivity|].
  rewrite IH, orb_assoc. reflexivity.
Qed.

Lemma numbered_fresh (i : nat) (o : obj) :
  numbered_below i o -> Obj.has o (string_of_nat (S i)) = false.
Proof.
  induction 1 as [|[k v] o (j & Hj & Hk) _ IH]; cbn [Obj.has]; [reflexivity|].
  cbn [fst] in Hk. subst k. rewrite IH, orb_false_r.
  destruct (String.eqb_spec (string_of_nat j) (string_of_nat (S i))) as [E|_];
    [|reflexivity].
  apply string_of_nat_inj in E. lia.
Qed.

Lemma pathsMap_fold (filesMap : FilesMap) : forall (acc : obj) (i : nat),
  numbered_below i acc ->
  fst (fold_left
         (fun acc entry =>
            let i := S (snd acc) in
            (Obj.set (fst acc) (string_of_nat i) (VArr (map VStr (snd entry))), i))
         filesMap (acc, i))
  = (acc ++ map (fun p => (string_of_nat (fst p), VArr (map VStr (snd (snd p)))))
              (combine (seq (S i) (List.length filesMap)) filesMap))%list.
Proof.
  induction filesMap as [|entry rest IH]; intros acc i Hacc;
    cbn [fold_left List.length seq combine map fst snd].
  - rewrite app_nil_r. reflexivity.
  - rewrite set_fresh by (apply numbered_fresh, Hacc).
    rewrite IH.
    + rewrite <- app_assoc. reflexivity.
    + apply Forall_app. split.
      * eapply Forall_impl; [|exact Hacc].
        intros kv (j & Hj & Hk). exists j. split; [lia|exact Hk].
      * constructor; [|constructor]. exists (S i). split; [lia|reflexivity].
Qed.

Lemma pathsMap_indexed (filesMap : FilesMap) :
  pathsMap filesMap
  = map (fun p => (string_of_nat (fst p), VArr (map VStr (snd (snd p)))))
        (indexed filesMap).
Proof.
  unfold pathsMap, indexed. rewrite pathsMap_fold by constructor. reflexivity.
Qed.

Lemma fileParts_fold (filesMap : FilesMap) : forall (acc : list Part) (i : nat),
  fst (fold_left
         (fun acc entry =>
            let i := S (snd acc) in
            ((fst acc ++ [filePart i (fst entry)])%list, i))
         filesMap (acc, i))
  = (acc ++ map (fun p => filePart (fst p) (fst (snd p)))
              (combine (seq (S i) (List.length filesMap)) filesMap))%list.
Proof.
  induction filesMap as [|entry rest IH]; intros acc i;
    cbn [fold_left List.length seq combine map fst snd].
  - rewrite app_nil_r. reflexivity.
  - rewrite IH, <- app_assoc. reflexivity.
Qed.

Lemma fileParts_indexed (filesMap : FilesMap) :
  fileParts filesMap
  = map (fun p => filePart (fst p) (fst (snd p))) (indexed filesMap).
Proof.
  unfold fileParts, indexed. rewrite fileParts_fold. reflexivity.
Qed.

(** ** One entry for every upload object *)

Lemma same_object_ref (a b : value) (r : nat) :
  same_object a b = true -> object_ref b = Some r -> object_ref a = Some r.
Proof.
  intros Hs Hb.
  destruct b as [| | | | | | |[rb bytes|rb path]|rb fb ob]; cbn in Hb;
    try discriminate Hb; injection Hb as ->;
    destruct a as [| | | | | | |[ra bytes'|ra path']|ra fa oa]; cbn in Hs;
    try discriminate Hs; apply Nat.eqb_eq in Hs; subst; reflexivity.
Qed.

Lemma ref_same_object (a b : value) (r : nat) :
  object_ref a = Some r -> object_ref b = Some r -> same_object a b = true.
Proof.
  intros Ha Hb.
  destruct a as [| | | | | | |[ra bytes'|ra path']|ra fa oa]; cbn in Ha;
    try discriminate Ha; injection Ha as ->;
    destruct b as [| | | | | | |[rb bytes|rb path]|rb fb ob]; cbn in Hb;
    try discriminate Hb; injection Hb as ->; cbn; apply Nat.eqb_refl.
Qed.

(** [holds files r p]: an entry of the files map is keyed by the object [r]
    and lists the path [p]. *)
Lemma addFile_adds (files : FilesMap) (paths : list string) (file : value) (r : nat) :
  object_ref file = Some r ->
  exists entry,
    In entry (addFile files paths file)
    /\ object_ref (fst entry) = Some r
    /\ incl paths (snd entry).
Proof.
  intros Hr. induction files as [|[f ps] rest IH]; cbn [addFile].
  - exists (file, paths). split; [left; reflexivity|]. split; [exact Hr|apply incl_refl].
  - destruct (same_object f file) eqn:E.
    + exists (f, (ps ++ paths)%list). split; [left; reflexivity|].
      split; [exact (same_object_ref _ _ _ E Hr)|apply incl_appr, incl_refl].
    + destruct IH as (entry & Hin & Href & Hincl).
      exists entry. split; [right; exact Hin|]. split; assumption.
Qed.

Lemma addFile_grows (files : FilesMap) (paths : list string) (file : value)
    (entry : value * list string) :
  In entry files ->
  exists paths', In (fst entry, paths') (addFile files paths file)
                 /\ incl (snd entry) paths'.
Proof.
  induction files as [|[f ps] rest IH]; intros Hin; [contradiction|].
  cbn [addFile]. destruct Hin as [<-|Hin]; cbn [fst snd].
  - destruct (same_object f file).
    + exists (ps ++ paths)%list. split; [left; reflexivity|apply incl_appl, incl_refl].
    + exists ps. split; [left; reflexivity|apply incl_refl].
  - destruct (same_object f file).
    + exists (snd entry). rewrite <- surjective_pairing.
      split; [right; exact Hin|apply incl_refl].
    + destruct (IH Hin) as (paths' & Hin' & Hincl).
      exists paths'. split; [right; exact Hin'|exact Hincl].
Qed.

Lemma addFiles_grows (found : FilesMap) : forall (files : FilesMap)
    (entry : value * list string),
  In entry files ->
  exists paths', In (fst entry, paths') (addFiles files found)
                 /\ incl (snd entry) paths'.
Proof.
  unfold addFiles.
  induction found as [|[f ps] found IH]; intros files entry Hin; cbn [fold_left fst snd].
  - exists (snd entry). rewrite <- surjective_pairing. split; [exact Hin|apply incl_refl].
  - destruct (addFile_grows files ps f entry Hin) as (paths1 & Hin1 & Hincl1).
    destruct (IH _ _ Hin1) as (paths2 & Hin2 & Hincl2). cbn [fst snd] in *.
    exists paths2. split; [exact Hin2|]. eapply incl_tran; eassumption.
Qed.

Lemma addFiles_adds (found : FilesMap) : forall (files : FilesMap)
    (entry : value * list string) (r : nat),
  In entry found ->
  object_ref (fst entry) = Some r ->
  exists entry',
    In entry' (addFiles files found)
    /\ object_ref (fst entry') = Some r
    /\ incl (snd entry) (snd entry').
Proof.
  induction found as [|[f ps] found IH]; intros files entry r Hin Hr; [contradiction|].
  change (addFiles files ((f, ps) :: found)) with (addFiles (addFile files ps f) found).
  destruct Hin as [<-|Hin].
  - cbn [fst snd] in *.
    destruct (addFile_adds files ps f r Hr) as (e1 & Hin1 & Hr1 & Hincl1).
    destruct (addFiles_grows found _ e1 Hin1) as (paths2 & Hin2 & Hincl2).
    exists (fst e1, paths2). split; [exact Hin2|]. split; [exact Hr1|].
    cbn [snd]. eapply incl_tran; eassumption.
  - exact (IH _ entry r Hin Hr).
Qed.

Section Holding.

Variable extract : value -> string -> value * FilesMap.
Variable prefix : string.

(** An entry keyed by the object [r] that lists the path [p]. *)
Let holds (files : FilesMap) (r : nat) (p : string) : Prop :=
  exists entry, In entry files /\ object_ref (fst entry) = Some r /\ In p (snd entry).

Lemma children_hold_found (items : list value) : forall (i : nat) (files : FilesMap)
    (r : nat) (p : string),
  holds files r p -> holds (snd (children extract prefix items i files)) r p.
Proof.
  induction items as [|x items IH]; intros i files r p H; cbn; [exact H|].
  specialize (IH (S i) (addFiles files (snd (extract x (prefix ++ string_of_nat i)))) r p).
  destruct (children extract prefix items (S i) _) as [clones files'].
  cbn in *. apply IH.
  destruct H as (entry & Hin & Hr & Hp).
  destruct (addFiles_grows (snd (extract x (prefix ++ string_of_nat i))) files entry Hin)
    as (paths' & Hin' & Hincl).
  exists (fst entry, paths'). split; [exact Hin'|]. split; [exact Hr|apply Hincl, Hp].
Qed.

Lemma children_hold_item (items : list value) : forall (i j : nat) (files : FilesMap)
    (x : value) (r : nat) (p : string),
  nth_error items j = Some x ->
  holds (snd (extract x (prefix ++ string_of_nat (i + j)))) r p ->
  holds (snd (children extract prefix items i files)) r p.
Proof.
  induction items as [|y items IH]; intros i j files x r p Hnth H;
    [destruct j; discriminate Hnth|].
  cbn. destruct j as [|j]; cbn in Hnth.
  - injection Hnth as ->. rewrite Nat.add_0_r in H.
    pose proof (children_hold_found items (S i)
                  (addFiles files (snd (extract x (prefix ++ string_of_nat i)))) r p)
      as Hkeep.
    destruct (children extract prefix items (S i) _) as [clones files'].
    cbn in *. apply Hkeep.
    destruct H as (entry & Hin & Hr & Hp).
    destruct (addFiles_adds _ files entry r Hin Hr) as (entry' & Hin' & Hr' & Hincl).
    exists entry'. split; [exact Hin'|]. split; [exact Hr'|apply Hincl, Hp].
  - specialize (IH (S i) j
                  (addFiles files (snd (extract y (prefix ++ string_of_nat i)))) x r p Hnth).
    replace (S i + j)%nat with (i + S j)%nat in IH by lia.
    destruct (children extract prefix items (S i) _) as [clones files'].
    cbn [snd] in *. exact (IH H).
Qed.

Lemma properties_hold_found (fields : obj) : forall (files : FilesMap)
    (r : nat) (p : string),
  holds files r p -> holds (snd (properties extract prefix fields files)) r p.
Proof.
  induction fields as [|[k x] fields IH]; intros files r p H; cbn; [exact H|].
  specialize (IH (addFiles files (snd (extract x (prefix ++ k)))) r p).
  destruct (properties extract prefix fields _) as [clones files'].
  cbn in *. apply IH.
  destruct H as (entry & Hin & Hr & Hp).
  destruct (addFiles_grows (snd (extract x (prefix ++ k))) files entry Hin)
    as (paths' & Hin' & Hincl).
  exists (fst entry, paths'). split; [exact Hin'|]. split; [exact Hr|apply Hincl, Hp].
Qed.

Lemma properties_hold_property (fields : obj) : forall (files : FilesMap)
    (k : string) (x : value) (r : nat) (p : string),
  In (k, x) fields ->
  holds (snd (extract x (prefix ++ k))) r p ->
  holds (snd (properties extract prefix fields files)) r p.
Proof.
  induction fields as [|[k0 x0] fields IH]; intros files k x r p Hin H; [contradiction|].
  cbn. destruct Hin as [E|Hin].
  - injection E as -> ->.
    pose proof (properties_hold_found fields
                  (addFiles files (snd (extract x (prefix ++ k)))) r p) as Hkeep.
    destruct (properties extract prefix fields _) as [clones files'].
    cbn in *. apply Hkeep.
    destruct H as (entry & Hin & Hr & Hp).
    destruct (addFiles_adds _ files entry r Hin Hr) as (entry' & Hin' & Hr' & Hincl).
    exists entry'. split; [exact Hin'|]. split; [exact Hr'|apply Hincl, Hp].
  - specialize (IH (addFiles files (snd (extract x0 (prefix ++ k0)))) k x r p Hin H).
    destruct (properties extract prefix fields _) as [clones files'].
    cbn in *. exact IH.
Qed.

End Holding.

(** Every reference to an upload object is listed: the files map has an
    entry keyed by that object with the path of the reference. *)
Lemma occurrence_is_listed (isFile : value -> bool) (f v : value) (path p : string)
    (r : nat) :
  occurs_at isFile f v path p ->
  object_ref f = Some r ->
  exists entry,
    In entry (snd (extractFiles v path isFile))
    /\ object_ref (fst entry) = Some r
    /\ In p (snd entry).
Proof.
  intros Hocc Hr.
  induction Hocc as [path Hfile|items i x path p Hno Hnth _ IH|fields k x path p Hno Hin _ IH].
  - exists (f, [path]).
    assert (Hleaf : extractFiles f path isFile = (VNull, [(f, [path])])).
    { destruct f; cbn [extractFiles]; rewrite Hfile; reflexivity. }
    rewrite Hleaf. split; [left; reflexivity|]. split; [exact Hr|left; reflexivity].
  - cbn [extractFiles]. rewrite Hno.
    pose proof (children_hold_item (fun child path' => extractFiles child path' isFile)
                  (prefix_of path) items 0 i [] x r p Hnth IH) as H.
    destruct (children _ (prefix_of path) items 0 []) as [clones files]. exact H.
  - cbn [extractFiles]. rewrite Hno.
    pose proof (properties_hold_property (fun child path' => extractFiles child path' isFile)
                  (prefix_of path) fields [] k x r p Hin IH) as H.
    destruct (properties _ (prefix_of path) fields []) as [clones files]. exact H.
Qed.

(** No two entries are keyed by one upload object. *)
Lemma distinct_one_entry (files : FilesMap) : forall (i j : nat)
    (e1 e2 : value * list string) (r : nat),
  distinct files ->
  nth_error files i = Some e1 ->
  nth_error files j = Some e2 ->
  object_ref (fst e1) = Some r ->
  object_ref (fst e2) = Some r ->
  i = j.
Proof.
  induction files as [|e files IH]; intros i j e1 e2 r Hd H1 H2 Hr1 Hr2;
    [destruct i; discriminate H1|].
  destruct Hd as [Hfirst Hrest].
  rewrite Forall_forall in Hfirst.
  destruct i as [|i], j as [|j]; cbn in H1, H2.
  - reflexivity.
  - injection H1 as ->. apply nth_error_In in H2.
    specialize (Hfirst e2 H2). rewrite (ref_same_object _ _ r Hr1 Hr2) in Hfirst.
    discriminate Hfirst.
  - injection H2 as ->. apply nth_error_In in H1.
    specialize (Hfirst e1 H1). rewrite (ref_same_object _ _ r Hr2 Hr1) in Hfirst.
    discriminate Hfirst.
  - f_equal. exact (IH i j e1 e2 r Hrest H1 H2 Hr1 Hr2).
Qed.

Lemma nth_error_indexed {A} (l : list A) : forall (start i : nat) (x : A),
  nth_error l i = Some x ->
  nth_error (combine (seq start (List.length l)) l) i = Some ((start + i)%nat, x).
Proof.
  induction l as [|a l IH]; intros start i x H; [destruct i; discriminate H|].
  destruct i as [|i]; cbn in *.
  - injection H as ->. rewrite Nat.add_0_r. reflexivity.
  - rewrite (IH (S start) i x H). f_equal. f_equal. lia.
Qed.

Lemma filePart_appended (i : nat) (file : value) :
  filePart i file
  = {| part_name := string_of_nat i;
       part_content := appended_content file;
       part_options := appended_options file |}.
Proof. destruct file; reflexivity. Qed.

Lemma indexed_names {A} (l : list A) :
  map fst (indexed l) = seq 1 (List.length l).
Proof.
  unfold indexed. generalize 1%nat.
  induction l as [|a l IH]; intros start; cbn; [reflexivity|].
  rewrite IH. reflexivity.
Qed.

Lemma indexed_entries {A} (l : list A) : map snd (indexed l) = l.
Proof.
  unfold indexed. generalize 1%nat.
  induction l as [|a l IH]; intros start; cbn; [reflexivity|].
  rewrite IH. reflexivity.
Qed.

(** ** C4, C5, C6: GraphQL requests *)

Lemma valid_within (v t : value) :
  within v t ->
  Validation.graphQLUploadSchemaIsValid t = true ->
  Validation.graphQLUploadSchemaIsValid v = true.
Proof.
  induction 1 as [|items x Hin _ IH|fields k x Hin _ IH]; intros Hvalid.
  - exact Hvalid.
  - apply IH. cbn in Hvalid. rewrite forallb_forall in Hvalid. apply Hvalid, Hin.
  - apply IH. cbn in Hvalid. apply andb_prop in Hvalid. destruct Hvalid as [_ Hall].
    rewrite forallb_forall in Hall. specialize (Hall _ Hin).
    apply andb_prop in Hall. exact (proj1 Hall).
Qed.

Lemma partial_invalid (o : obj) (t : value) :
  within (VObj o) t -> Validation.partially_file_like o = true ->
  Validation.graphQLUploadSchemaIsValid t = false.
Proof.
  intros Hin Hp. destruct (Validation.graphQLUploadSchemaIsValid t) eqn:E; [|reflexivity].
  pose proof (valid_within _ _ Hin E) as Hv. cbn in Hv. rewrite Hp in Hv. discriminate Hv.
Qed.

Section GraphQL.

Variable JSON_stringify : value -> string.
Variable isFile : value -> bool.
Variable graphQLUploadSchemaIsValid : value -> bool.
Variable this : Anvil.
Variables (query variables : value) (clientOptions : option obj).

Let op := operation query variables.
Let clone := fst (extractFiles op "" isFile).
Let files := snd (extractFiles op "" isFile).
Let sent := graphQLOptions JSON_stringify (JSON_stringify clone) files.

Lemma requestGraphQL_unfold (n : nat) :
  requestGraphQL JSON_stringify isFile graphQLUploadSchemaIsValid this n
    query variables clientOptions =
  if negb (graphQLUploadSchemaIsValid op)
  then reject (Error "Invalid File schema detected")
  else
    r <- _wrapRequest this n (_request this "/graphql" sent) clientOptions ;;
    ret {| gql_statusCode := wrapped_get r "statusCode";
           gql_data := wrapped_get r "data";
           gql_errors := wrapped_get r "errors" |}.
Proof.
  unfold requestGraphQL, sent, clone, files, op, operation.
  destruct (extractFiles _ "" isFile) as [c f]. reflexivity.
Qed.

(** Whatever [requestGraphQL] sends, it sends to [/graphql] with the options
    built from the operation. *)
Lemma requestGraphQL_sends (n : nat) (w : World) :
  exists es,
    trace (snd (requestGraphQL JSON_stringify isFile graphQLUploadSchemaIsValid this n
                  query variables clientOptions w))
    = (trace w ++ es)%list
    /\ Forall (expected_event this "/graphql" sent) es.
Proof.
  rewrite requestGraphQL_unfold.
  destruct (graphQLUploadSchemaIsValid op); cbn [negb].
  - destruct (throttle_invariant this "/graphql" sent (or_empty clientOptions) n w)
      as (_ & _ & (es & Ht & Hes) & _).
    exists es. split; [|exact Hes]. rewrite <- Ht. unfold bind, _wrapRequest.
    destruct (_throttle this n _ w) as [[r|e|] w']; reflexivity.
  - exists []. rewrite app_nil_r. split; [reflexivity|constructor].
Qed.

End GraphQL.

Section GraphQLRequests.

Variable JSON_stringify : value -> string.
Variable isFile : value -> bool.
Variable graphQLUploadSchemaIsValid : value -> bool.
Variable this : Anvil.

(** C5. When no file is extracted from the operation, the options of the
    request are a [POST] with the header [Content-Type: application/json]
    and, as body, the JSON text of [{ query, variables }]; no form and no
    abort signal are built, and every physical call of [requestGraphQL]
    carries that body and that header. *)
Theorem plain_JSON_without_files (query variables : value) (clientOptions : option obj)
    (n : nat) (w : World) :
  let op := operation query variables in
  snd (extractFiles op "" isFile) = [] ->
  graphQLOptions JSON_stringify (JSON_stringify (fst (extractFiles op "" isFile)))
    (snd (extractFiles op "" isFile))
  = {| method := "POST";
       headers := Some [("Content-Type", VStr "application/json")];
       body := TextBody (JSON_stringify op);
       signal := None |}
  /\ exists es,
       trace (snd (requestGraphQL JSON_stringify isFile graphQLUploadSchemaIsValid this n
                     query variables clientOptions w))
       = (trace w ++ es)%list
       /\ Forall (fun e =>
                    match e with
                    | Fetch _ init =>
                        body init = TextBody (JSON_stringify op)
                        /\ signal init = None
                        /\ exists h, headers init = Some h
                                     /\ Obj.get h "Content-Type" = VStr "application/json"
                    | _ => True
                    end) es.
Proof.
  intros op Hnone.
  assert (Hopts : graphQLOptions JSON_stringify
                    (JSON_stringify (fst (extractFiles op "" isFile)))
                    (snd (extractFiles op "" isFile))
                  = {| method := "POST";
                       headers := Some [("Content-Type", VStr "application/json")];
                       body := TextBody (JSON_stringify op);
                       signal := None |}).
  { rewrite Hnone, (extractFiles_no_files isFile op "" Hnone). reflexivity. }
  split; [exact Hopts|].
  destruct (requestGraphQL_sends JSON_stringify isFile graphQLUploadSchemaIsValid this
              query variables clientOptions n w) as (es & Ht & Hes).
  exists es. split; [exact Ht|].
  eapply Forall_impl; [|exact Hes].
  intros [| |u init|] He; try exact I.
  destruct He as [_ ->]. fold op. rewrite Hopts.
  destruct (addDefaultHeaders_spec this
              {| method := "POST";
                 headers := Some [("Content-Type", VStr "application/json")];
                 body := TextBody (JSON_stringify op);
                 signal := None |}) as (h & Hh & _ & _ & Hother & _ & Hbody & Hsignal).
  split; [exact Hbody|]. split; [exact Hsignal|].
  exists h. split; [exact Hh|]. rewrite Hother by discriminate. reflexivity.
Qed.

(** C4. When files are extracted from the operation, the body is a form
    whose part [operations] is the JSON text of the operation without the
    files, whose part [map] is the JSON text of the object that maps the
    index of each entry of the files map, counted from 1 in insertion order,
    to the list of its paths, and whose further parts are the files, the
    part of the entry with index [i] being named [i]; no two entries of the
    files map are keyed by one object; and an upload object that is
    referenced at two paths of the operation, wherever they are, is one
    entry that lists both paths, under one index of the map and of the
    parts. *)
Theorem multipart_map_by_index (query variables : value) (clientOptions : option obj)
    (n : nat) (w : World) :
  let op := operation query variables in
  let clone := fst (extractFiles op "" isFile) in
  let files := snd (extractFiles op "" isFile) in
  let form :=
    ([{| part_name := "operations"; part_content := VStr (JSON_stringify clone);
         part_options := VUndefined |};
      {| part_name := "map";
         part_content :=
           VStr (JSON_stringify
                   (VObj (map (fun p => (string_of_nat (fst p),
                                         VArr (map VStr (snd (snd p)))))
                              (indexed files))));
         part_options := VUndefined |}]
     ++ map (fun p => {| part_name := string_of_nat (fst p);
                         part_content := appended_content (fst (snd p));
                         part_options := appended_options (fst (snd p)) |})
            (indexed files))%list in
  files <> [] ->
  body (graphQLOptions JSON_stringify (JSON_stringify clone) files) = FormBody form
  /\ map fst (indexed files) = seq 1 (List.length files)
  /\ map snd (indexed files) = files
  /\ distinct files
  /\ (exists es,
        trace (snd (requestGraphQL JSON_stringify isFile graphQLUploadSchemaIsValid this n
                      query variables clientOptions w))
        = (trace w ++ es)%list
        /\ Forall (fun e => match e with
                            | Fetch _ init => body init = FormBody form
                            | _ => True
                            end) es)
  /\ (forall (f1 f2 : value) (p1 p2 : string) (r : nat),
        occurs_at isFile f1 op "" p1 ->
        occurs_at isFile f2 op "" p2 ->
        object_ref f1 = Some r ->
        object_ref f2 = Some r ->
        exists (i : nat) (key : value) (paths : list string),
          nth_error files i = Some (key, paths)
          /\ object_ref key = Some r
          /\ In p1 paths
          /\ In p2 paths
          /\ In (S i, (key, paths)) (indexed files)
          /\ (forall j entry, nth_error files j = Some entry ->
                              object_ref (fst entry) = Some r -> j = i))
  /\ (forall (file : value) (text k1 k2 : string),
        isFile file = true ->
        same_object file file = true ->
        isFile (VStr text) = false ->
        isFile (VObj [(k1, file); (k2, file)]) = false ->
        isFile (operation (VStr text) (VObj [(k1, file); (k2, file)])) = false ->
        extractFiles (operation (VStr text) (VObj [(k1, file); (k2, file)])) "" isFile
        = (VObj [("query", VStr text); ("variables", VObj [(k1, VNull); (k2, VNull)])],
           [(file, ["variables." ++ k1; "variables." ++ k2])])
        /\ pathsMap [(file, ["variables." ++ k1; "variables." ++ k2])]
           = [("1", VArr [VStr ("variables." ++ k1); VStr ("variables." ++ k2)])]).
Proof.
  intros op clone files form Hfiles.
  assert (Hbody : body (graphQLOptions JSON_stringify (JSON_stringify clone) files)
                  = FormBody form).
  { unfold graphQLOptions, form. destruct files as [|entry rest] eqn:E; [contradiction|].
    rewrite <- E. cbn [body]. rewrite pathsMap_indexed, fileParts_indexed.
    rewrite (map_ext (fun p : nat * (value * list string) => filePart (fst p) (fst (snd p)))
               _ (fun p => filePart_appended (fst p) (fst (snd p)))).
    reflexivity. }
  split; [exact Hbody|].
  split; [apply indexed_names|].
  split; [apply indexed_entries|].
  split; [apply extractFiles_distinct|].
  split; [|split].
  - destruct (requestGraphQL_sends JSON_stringify isFile graphQLUploadSchemaIsValid this
                query variables clientOptions n w) as (es & Ht & Hes).
    exists es. split; [exact Ht|].
    eapply Forall_impl; [|exact Hes].
    intros [| |u init|] He; try exact I.
    destruct He as [_ ->]. fold op. fold clone. fold files.
    destruct (addDefaultHeaders_spec this
                (graphQLOptions JSON_stringify (JSON_stringify clone) files))
      as (h & _ & _ & _ & _ & _ & Hb & _).
    rewrite Hb. exact Hbody.
  - intros f1 f2 p1 p2 r Ho1 Ho2 Hr1 Hr2.
    destruct (occurrence_is_listed isFile f1 op "" p1 r Ho1 Hr1) as (e1 & Hin1 & Hk1 & Hp1).
    destruct (occurrence_is_listed isFile f2 op "" p2 r Ho2 Hr2) as (e2 & Hin2 & Hk2 & Hp2).
    fold files in Hin1, Hin2.
    destruct (In_nth_error _ _ Hin1) as (i & Hi).
    destruct (In_nth_error _ _ Hin2) as (j & Hj).
    assert (Hd : distinct files) by apply extractFiles_distinct.
    assert (Hij : i = j) by exact (distinct_one_entry files i j e1 e2 r Hd Hi Hj Hk1 Hk2).
    subst j. rewrite Hi in Hj. injection Hj as <-.
    exists i, (fst e1), (snd e1). rewrite <- surjective_pairing.
    split; [exact Hi|]. split; [exact Hk1|]. split; [exact Hp1|]. split; [exact Hp2|].
    split.
    + apply (nth_error_In _ i). unfold indexed.
      exact (nth_error_indexed files 1 i e1 Hi).
    + intros j entry Hj Hr. exact (distinct_one_entry files j i entry e1 r Hd Hj Hi Hr Hk1).
  - intros file text k1 k2 Hfile Hsame Htext Hvars Hop. split; [|reflexivity].
    unfold operation in *. cbn [extractFiles]. rewrite Hop.
    cbn [properties prefix_of String.eqb fst snd]. cbn [extractFiles]. rewrite Htext, Hvars.
    cbn [properties addFiles fold_left fst snd].
    assert (Hleaf : forall path, extractFiles file path isFile = (VNull, [(file, [path])])).
    { intros path. destruct file; cbn [extractFiles]; rewrite Hfile; reflexivity. }
    rewrite !Hleaf. cbn [addFiles addFile fold_left fst snd]. rewrite Hsame.
    reflexivity.
Qed.

End GraphQLRequests.

(** C6. When the variables hold, anywhere in their tree, an object with some
    but not all of [data], [filename] and [mimetype], [requestGraphQL]
    rejects with the schema error and the world is as before: no token is
    acquired and nothing is sent. *)
Theorem partial_upload_is_rejected (JSON_stringify : value -> string)
    (isFile : value -> bool) (this : Anvil) (query variables : value)
    (clientOptions : option obj) (n : nat) (w : World) (o : obj) :
  within (VObj o) variables ->
  Validation.partially_file_like o = true ->
  requestGraphQL JSON_stringify isFile Validation.graphQLUploadSchemaIsValid this n
    query variables clientOptions w
  = (Rejected (Error "Invalid File schema detected"), w).
Proof.
  intros Hin Hp. rewrite requestGraphQL_unfold.
  assert (Hop : within (VObj o) (operation query variables)).
  { unfold operation.
    apply (within_property _ _ "variables"
             (match variables with VUndefined => VObj [] | v => v end)).
    - right. left. reflexivity.
    - destruct variables; try exact Hin. inversion Hin. }
  rewrite (partial_invalid o _ Hop Hp). reflexivity.
Qed.

Lemma plain_JSON_without_files_witness :
  snd (extractFiles (operation Sample.query Sample.withoutFile) "" Validation.isFile) = []
  /\ graphQLOptions Sample.stringify
       (Sample.stringify
          (fst (extractFiles (operation Sample.query Sample.withoutFile) ""
                  Validation.isFile)))
       (snd (extractFiles (operation Sample.query Sample.withoutFile) ""
               Validation.isFile))
     = {| method := "POST";
          headers := Some [("Content-Type", VStr "application/json")];
          body := TextBody (Sample.stringify
                              (VObj [("query", Sample.query);
                                     ("variables", Sample.withoutFile)]));
          signal := None |}.
Proof.
  split; [reflexivity|].
  exact (proj1 (plain_JSON_without_files Sample.stringify Validation.isFile
                  Validation.graphQLUploadSchemaIsValid Sample.client
                  Sample.query Sample.withoutFile None 1
                  (Sample.world [] Sample.ok) eq_refl)).
Defined.

Lemma multipart_map_by_index_witness :
  body (graphQLOptions Sample.stringify
          (Sample.stringify
             (fst (extractFiles (operation Sample.query Sample.withFile) ""
                     Validation.isFile)))
          (snd (extractFiles (operation Sample.query Sample.withFile) ""
                  Validation.isFile)))
  = FormBody
      [{| part_name := "operations";
          part_content :=
            VStr (Sample.stringify
                    (VObj [("query", Sample.query);
                           ("variables", VObj [("aNested", VObj [("file", VNull)])])]));
          part_options := VUndefined |};
       {| part_name := "map";
          part_content :=
            VStr (Sample.stringify (VObj [("1", VArr [VStr "variables.aNested.file"])]));
          part_options := VUndefined |};
       {| part_name := "1"; part_content := Sample.pdf; part_options := VObj [] |}]
  /\ (exists (i : nat) (key : value) (paths : list string),
        nth_error (snd (extractFiles (operation Sample.query Sample.twice) ""
                          Validation.isFile)) i = Some (key, paths)
        /\ object_ref key = Some 7%nat
        /\ In "variables.front" paths
        /\ In "variables.pages.0.scan" paths
        /\ In (S i, (key, paths))
              (indexed (snd (extractFiles (operation Sample.query Sample.twice) ""
                               Validation.isFile)))
        /\ (forall j entry,
              nth_error (snd (extractFiles (operation Sample.query Sample.twice) ""
                                Validation.isFile)) j = Some entry ->
              object_ref (fst entry) = Some 7%nat -> j = i))
  /\ extractFiles
       (operation (VStr "mutation") (VObj [("front", Sample.pdf); ("back", Sample.pdf)]))
       "" Validation.isFile
     = (VObj [("query", VStr "mutation");
              ("variables", VObj [("front", VNull); ("back", VNull)])],
        [(Sample.pdf, ["variables.front"; "variables.back"])])
  /\ pathsMap [(Sample.pdf, ["variables.front"; "variables.back"])]
     = [("1", VArr [VStr "variables.front"; VStr "variables.back"])].
Proof.
  destruct (multipart_map_by_index Sample.stringify Validation.isFile
              Validation.graphQLUploadSchemaIsValid Sample.client
              Sample.query Sample.withFile None 1
              (Sample.world [] Sample.ok) ltac:(discriminate))
    as (Hform & _ & _ & _ & _ & _ & Hsiblings).
  destruct (multipart_map_by_index Sample.stringify Validation.isFile
              Validation.graphQLUploadSchemaIsValid Sample.client
              Sample.query Sample.twice None 1
              (Sample.world [] Sample.ok) ltac:(discriminate))
    as (_ & _ & _ & _ & _ & Hshared & _).
  split; [exact Hform|].
  split.
  - apply (Hshared Sample.pdf Sample.pdf "variables.front" "variables.pages.0.scan" 7%nat);
      try reflexivity.
    + apply (occurs_in_property _ _ _ "variables" Sample.twice "" _ eq_refl);
        [right; left; reflexivity|].
      apply (occurs_in_property _ _ _ "front" Sample.pdf "variables" _ eq_refl);
        [left; reflexivity|].
      exact (occurs_here Validation.isFile Sample.pdf "variables.front" eq_refl).
    + apply (occurs_in_property _ _ _ "variables" Sample.twice "" _ eq_refl);
        [right; left; reflexivity|].
      apply (occurs_in_property _ _ _ "pages" (VArr [VObj [("scan", Sample.pdf)]])
               "variables" _ eq_refl); [right; left; reflexivity|].
      apply (occurs_in_item _ _ [VObj [("scan", Sample.pdf)]] 0
               (VObj [("scan", Sample.pdf)]) "variables.pages" _ eq_refl eq_refl).
      apply (occurs_in_property _ _ _ "scan" Sample.pdf "variables.pages.0" _ eq_refl);
        [left; reflexivity|].
      exact (occurs_here Validation.isFile Sample.pdf "variables.pages.0.scan" eq_refl).
  - exact (Hsiblings Sample.pdf "mutation" "front" "back"
             eq_refl eq_refl eq_refl eq_refl eq_refl).
Defined.

Lemma partial_upload_is_rejected_witness :
  requestGraphQL Sample.stringify Validation.isFile
    Validation.graphQLUploadSchemaIsValid Sample.client 1 Sample.query Sample.halfAFile None
    (Sample.world [] Sample.ok)
  = (Rejected (Error "Invalid File schema detected"), Sample.world [] Sample.ok)
  /\ calls (Sample.world [] Sample.ok) = 0%nat.
Proof.
  split; [|reflexivity].
  apply (partial_upload_is_rejected Sample.stringify Validation.isFile Sample.client
           Sample.query Sample.halfAFile None 1 (Sample.world [] Sample.ok)
           [("data", VStr "QmFzZTY0IERhdGE="); ("filename", VStr "x")]).
  - apply (within_property _ _ "file"
             (VObj [("data", VStr "QmFzZTY0IERhdGE="); ("filename", VStr "x")])).
    + left. reflexivity.
    + apply within_here.
  - reflexivity.
Defined.

(* ===================================================================== *)
(** * Further properties of the code *)
(* ===================================================================== *)

(** ** The retry delay: sign and white space *)

Lemma abs_binary_round_aux (m e : Z) (l : location) :
  SFabs (binary_round_aux Number.prec Number.emax true m e l)
  = SFabs (binary_round_aux Number.prec Number.emax false m e l).
Proof.
  unfold binary_round_aux.
  destruct (shr_fexp Number.prec Number.emax m e l) as [mrs e'].
  destruct (shr_fexp Number.prec Number.emax _ e' loc_Exact) as [mrs' e''].
  destruct (shr_m mrs'); try reflexivity.
  destruct (e'' <=? Number.emax - Number.prec); reflexivity.
Qed.

Lemma abs_binary_round (m : positive) (e : Z) :
  SFabs (binary_round Number.prec Number.emax true m e)
  = SFabs (binary_round Number.prec Number.emax false m e).
Proof.
  unfold binary_round.
  destruct (shl_align m e _) as [mz ez]. apply abs_binary_round_aux.
Qed.

Lemma abs_of_decimal (m e10 : Z) :
  Math.abs (Number.of_decimal true m e10) = Math.abs (Number.of_decimal false m e10).
Proof.
  unfold Math.abs, Number.of_decimal. destruct m as [|p|p]; try reflexivity.
  destruct (0 <=? e10).
  - destruct (Z.pos p * 10 ^ e10) as [|q|q]; cbn [Z.opp binary_normalize].
    + reflexivity.
    + apply abs_binary_round.
    + symmetry. apply abs_binary_round.
  - unfold Number.div, SFdiv.
    destruct (SFdiv_core_binary Number.prec Number.emax (Z.pos p) 0
                (Z.pos (Z.to_pos (10 ^ (- e10)))) 0) as [[mz ez] lz].
    apply abs_binary_round_aux.
Qed.

Lemma bare_start (s : string) :
  bare s = true -> trimStart s = s /\ sign s = (false, s).
Proof.
  destruct s as [|c r]; [split; reflexivity|]. cbn [bare trimStart].
  intros H. apply andb_prop in H. destruct H as [H Hplus].
  apply andb_prop in H. destruct H as [Hws Hminus].
  apply negb_true_iff in Hws. rewrite Hws. split; [reflexivity|].
  destruct c as [[] [] [] [] [] [] [] []]; try reflexivity; discriminate.
Qed.

Lemma parseFloat_minus (s : string) :
  bare s = true ->
  Math.abs (parseFloat ("-" ++ s)) = Math.abs (parseFloat s).
Proof.
  intros H. destruct (bare_start s H) as [Ht Hs].
  unfold parseFloat. rewrite Ht, Hs.
  change (trimStart ("-" ++ s)) with (String "-" s).
  change (sign (String "-" s)) with (true, s).
  cbv beta iota zeta.
  destruct (String.prefix "Infinity" s); [reflexivity|].
  destruct (digits s 0 0) as [[ip ni] s2].
  destruct (match s2 with String "." r => digits r ip 0 | _ => (ip, 0, s2) end)
    as [[m nf] s3].
  destruct ((ni =? 0) && (nf =? 0)); [reflexivity|].
  apply abs_of_decimal.
Qed.

Lemma parseFloat_plus (s : string) :
  bare s = true -> parseFloat ("+" ++ s) = parseFloat s.
Proof.
  intros H. destruct (bare_start s H) as [Ht Hs].
  unfold parseFloat. rewrite Ht, Hs. reflexivity.
Qed.

Lemma parseFloat_white_space (c : ascii) (s : string) :
  isWhiteSpace c = true -> parseFloat (String c s) = parseFloat s.
Proof.
  intros H. unfold parseFloat. cbn [trimStart]. rewrite H. reflexivity.
Qed.

(** X1. The sign of the [retry-after] header and white space before it do
    not change the delay: for a text [s] that begins with neither, the
    headers [-s] and [+s] wait as long as [s], and so does [s] after a white
    space character. *)
Theorem getRetryMS_ignores_sign_and_space (s : string) :
  bare s = true ->
  getRetryMS (Some ("-" ++ s)) = getRetryMS (Some s)
  /\ getRetryMS (Some ("+" ++ s)) = getRetryMS (Some s)
  /\ (forall c, isWhiteSpace c = true ->
                 getRetryMS (Some (String c s)) = getRetryMS (Some s)
                 /\ getRetryMS (Some (String c ("-" ++ s))) = getRetryMS (Some s)).
Proof.
  intros H.
  assert (Hminus : getRetryMS (Some ("-" ++ s)) = getRetryMS (Some s)).
  { unfold getRetryMS, ToString_header. rewrite (parseFloat_minus s H). reflexivity. }
  split; [exact Hminus|].
  split.
  - unfold getRetryMS, ToString_header. rewrite (parseFloat_plus s H). reflexivity.
  - intros c Hc. split.
    + unfold getRetryMS, ToString_header.
      rewrite (parseFloat_white_space c s Hc). reflexivity.
    + rewrite <- Hminus. unfold getRetryMS, ToString_header.
      rewrite (parseFloat_white_space c _ Hc). reflexivity.
Qed.

Lemma getRetryMS_ignores_sign_and_space_witness :
  getRetryMS (Some "-1.5") = getRetryMS (Some "1.5")
  /\ getRetryMS (Some "+1.5") = getRetryMS (Some "1.5")
  /\ getRetryMS (Some " -1.5") = getRetryMS (Some "1.5").
Proof.
  destruct (getRetryMS_ignores_sign_and_space "1.5" eq_refl) as (Hm & Hp & Hw).
  split; [exact Hm|]. split; [exact Hp|].
  exact (proj2 (Hw " "%char eq_refl)).
Defined.

(** ** The executor at its edges *)

Section Executor.

Variable this : Anvil.
Variables (url : string) (options : RequestInit) (clientOptions : option obj).

Let fn := attempt (_request this url options) (or_empty clientOptions).

(** An attempt whose reply is not a 429 does not use [retry], and
    settles. *)
Lemma attempt_final (K K' : Number -> Async Wrapped) (w : World) (r : Response) :
  network w (calls w) = Respond r ->
  status r <> 429 ->
  fn K w = fn K' w /\ fst (fn K w) <> Pending.
Proof.
  intros Hnet Hst. unfold fn, attempt. split.
  - unfold bind. rewrite request_run, Hnet.
    destruct (300 <=? status r); [|reflexivity].
    destruct (Z.eqb_spec (status r) 429) as [E|_]; [contradiction|reflexivity].
  - unfold bind at 1. rewrite request_run, Hnet.
    destruct (300 <=? status r).
    + destruct (Z.eqb_spec (status r) 429) as [E|_]; [contradiction|].
      repeat run_step; unfold ret; cbn beta iota; discriminate.
    + repeat run_step; unfold response_json, ret, reject; try destruct (json r);
        cbn beta iota; discriminate.
Qed.

Lemma settle_snd {A} (err : option exn) (m : Async A) (w : World) :
  snd (settle err m w) = snd (m w).
Proof. unfold settle. destruct err; reflexivity. Qed.

(** Once the reply is not a 429, one pass is the whole run, whatever the
    bound on the attempts. *)
Lemma wrapRequest_final (n : nat) (w : World) :
  (forall r, network w (calls w) = Respond r -> status r <> 429) ->
  _wrapRequest this (S n) (_request this url options) clientOptions w
  = _wrapRequest this 1 (_request this url options) clientOptions w
  /\ fst (_wrapRequest this 1 (_request this url options) clientOptions w) <> Pending
  /\ calls (snd (_wrapRequest this 1 (_request this url options) clientOptions w))
     = S (calls w)
  /\ acquired (snd (_wrapRequest this 1 (_request this url options) clientOptions w))
     = S (acquired w).
Proof.
  intros Hlast. unfold _wrapRequest. fold fn. rewrite !throttle_step, !settle_snd.
  set (rem := snd (limiter w (acquired w))).
  set (err := fst (limiter w (acquired w))).
  set (w2 := emit (admission this rem) w).
  set (K := fun ms => sleep ms ;;; _throttle this n fn).
  set (K0 := fun ms => sleep ms ;;; _throttle this 0 fn).
  assert (Hc2 : calls w2 = calls w) by apply calls_admission.
  assert (Ha2 : acquired w2 = S (acquired w)) by apply acquired_admission.
  destruct (network w2 (calls w2)) as [r|e] eqn:Hnet.
  - assert (Hst : status r <> 429).
    { apply Hlast. rewrite <- Hc2. exact Hnet. }
    destruct (attempt_final K K0 w2 r Hnet Hst) as [Heq _].
    destruct (attempt_final K0 K0 w2 r Hnet Hst) as [_ Hnp].
    destruct (attempt_settles this url options (or_empty clientOptions) K0 w2 r Hnet Hst)
      as (c & warnings & Hrun & Hq).
    fold fn in Hrun.
    destruct (quiet_filters warnings Hq) as [Hf Ha].
    split; [unfold settle; rewrite Heq; reflexivity|].
    split; [unfold settle; destruct err; [discriminate|exact Hnp]|].
    rewrite Hrun. cbn [snd]. rewrite calls_emit, acquired_emit.
    cbn [filter is_fetch is_acquire]. rewrite Hf, Ha, Hc2, Ha2. cbn. lia.
  - unfold fn, settle.
    rewrite (attempt_network_error this url options (or_empty clientOptions) K w2 e Hnet),
      (attempt_network_error this url options (or_empty clientOptions) K0 w2 e Hnet).
    split; [reflexivity|].
    split; [destruct err; discriminate|].
    cbn [snd]. rewrite calls_emit, acquired_emit, Hc2, Ha2. cbn. lia.
Qed.

(** X2. The executor settles with the first reply that is not a 429.  After
    [k] replies with status 429, a reply that is a transport error or a
    response with another status ends the run: the promise is settled after
    [k + 1] physical calls and as many token acquisitions, whatever the
    bound on the attempts, provided it exceeds [k]; a promise is pending only
    when the bound is used up by 429s. *)
Theorem settles_with_the_first_other_reply (k n : nat) (w : World) :
  (forall i, (i < k)%nat ->
     exists r, network w (calls w + i) = Respond r /\ status r = 429) ->
  (forall i, (i < k)%nat -> fst (limiter w (acquired w + i)) = None) ->
  (forall r, network w (calls w + k) = Respond r -> status r <> 429) ->
  _wrapRequest this (k + S n) (_request this url options) clientOptions w
  = _wrapRequest this (k + 1) (_request this url options) clientOptions w
  /\ fst (_wrapRequest this (k + 1) (_request this url options) clientOptions w)
     <> Pending
  /\ calls (snd (_wrapRequest this (k + 1) (_request this url options) clientOptions w))
     = (calls w + k + 1)%nat
  /\ acquired (snd (_wrapRequest this (k + 1) (_request this url options) clientOptions w))
     = (acquired w + k + 1)%nat
  /\ fst (_wrapRequest this k (_request this url options) clientOptions w) = Pending.
Proof.
  intros Hnet Hlim Hlast.
  destruct (wrapRequest_retries this url options clientOptions k (S n) w Hnet Hlim)
    as (Hn & _).
  destruct (wrapRequest_retries this url options clientOptions k 1 w Hnet Hlim)
    as (H1 & Hc & Ha & Hnw & _).
  destruct (wrapRequest_retries this url options clientOptions k 0 w Hnet Hlim)
    as (H0 & _).
  cbv zeta in *. rewrite Nat.add_0_r in H0.
  set (w' := after_throttled this k url options w) in *.
  destruct (wrapRequest_final n w') as (Hfin & Hnp & Hcalls & Hacq).
  { intros r Hr. apply Hlast. rewrite <- Hnw, <- Hc. exact Hr. }
  rewrite Hn, H1, H0, Hfin.
  split; [reflexivity|]. split; [exact Hnp|].
  split; [lia|]. split; [lia|reflexivity].
Qed.

End Executor.

Lemma settles_with_the_first_other_reply_witness :
  fst (_wrapRequest Sample.client 2 (_request Sample.client "/test" Sample.post) None
         (Sample.world [Sample.tooManyRequests] Sample.teapot)) <> Pending
  /\ fst (_wrapRequest Sample.client 1 (_request Sample.client "/test" Sample.post) None
            (Sample.world [Sample.tooManyRequests] Sample.teapot)) = Pending.
Proof.
  destruct (settles_with_the_first_other_reply Sample.client "/test" Sample.post None
              1 0 (Sample.world [Sample.tooManyRequests] Sample.teapot))
    as (_ & Hsettled & _ & _ & Hpending).
  - intros i Hi. exists Sample.tooManyRequests.
    destruct i as [|i]; [split; reflexivity|lia].
  - intros i Hi. reflexivity.
  - intros r Hr. injection Hr as <-. cbv. discriminate.
  - split; [exact Hsettled|exact Hpending].
Defined.

(** ** One pass: the limiter, the call, the reply *)

Lemma constructor_limits (description version : string) (options : ClientOptions)
    (this : Anvil) :
  constructor description version (Some options) = inr this ->
  requestLimit this = Number.of_Z 200
  /\ requestLimitMS this = Number.of_Z 5000
  /\ options_baseURL this = or_default (baseURL options) "https://app.useanvil.com".
Proof.
  unfold constructor.
  destruct (present (apiKey options) || present (accessToken options));
    cbn [negb]; [|discriminate].
  intros H. injection H as <-. repeat split.
Qed.

Section OnePass.

Variable this : Anvil.
Variables (url : string) (options : RequestInit) (clientOptions : option obj).

(** Every pass begins with the acquisition of a token, the wait when no
    request remains, and the physical call. *)
Lemma wrapRequest_begins (n : nat) (w : World) :
  exists rest,
    trace (snd (_wrapRequest this (S n) (_request this url options) clientOptions w))
    = (trace w ++ admitted_call this url options (snd (limiter w (acquired w)))
       ++ rest)%list.
Proof.
  unfold _wrapRequest. rewrite throttle_step, settle_snd.
  set (rem := snd (limiter w (acquired w))).
  set (w2 := emit (admission this rem) w).
  set (fn := attempt (_request this url options) (or_empty clientOptions)).
  unfold admitted_call, physical_call.
  destruct (network w2 (calls w2)) as [r|e] eqn:Hnet.
  - destruct (Z.eq_dec (status r) 429) as [Hst|Hst].
    + unfold fn at 1.
      rewrite (attempt_throttled this url options (or_empty clientOptions) _ w2 r Hnet Hst),
        sleep_then, emit_emit.
      cbn [app].
      destruct (throttle_invariant this url options (or_empty clientOptions) n
                  (emit [Fetch (address this url) (_addDefaultHeaders this options);
                         Sleep (getRetryMS (headers_get (response_headers r)
                                              "retry-after"))] w2))
        as (_ & _ & (es & Ht & _) & _).
      fold fn in Ht. rewrite Ht. cbn [trace emit w2].
      exists (Sleep (getRetryMS (headers_get (response_headers r) "retry-after")) :: es).
      rewrite <- !app_assoc. reflexivity.
    + destruct (attempt_settles this url options (or_empty clientOptions)
                  (fun ms => sleep ms ;;; _throttle this n fn) w2 r Hnet Hst)
        as (c & warnings & Hrun & _).
      fold fn in Hrun. rewrite Hrun. cbn [snd trace emit w2].
      exists warnings. rewrite <- !app_assoc. reflexivity.
  - unfold fn at 1.
    rewrite (attempt_network_error this url options (or_empty clientOptions) _ w2 e Hnet).
    cbn [snd trace emit w2]. exists []. rewrite <- !app_assoc. reflexivity.
Qed.

(** X3. A client made by the constructor waits 5050 ms, the window of the
    limiter and the margin, between the acquisition of a token and the
    physical call when the limiter reports less than one remaining request,
    and does not wait otherwise. *)
Theorem waits_a_window_when_no_request_remains (description version : string)
    (settings : ClientOptions) (n : nat) (w : World) :
  constructor description version (Some settings) = inr this ->
  exists rest,
    trace (snd (_wrapRequest this (S n) (_request this url options) clientOptions w))
    = (trace w
       ++ Acquire
          :: (if SFltb (snd (limiter w (acquired w))) (Number.of_Z 1)
              then [Sleep (Number.of_Z 5050)] else [])
       ++ physical_call this url options :: rest)%list.
Proof.
  intros Hc. destruct (constructor_limits _ _ _ _ Hc) as (_ & Hms & _).
  destruct (wrapRequest_begins n w) as (rest & Ht).
  exists rest. rewrite Ht. unfold admitted_call, admission. rewrite Hms.
  change (Number.add (Number.of_Z 5000) failBufferMS) with (Number.of_Z 5050).
  cbn [app]. rewrite <- !app_assoc. reflexivity.
Qed.

(** X4. When the limiter hands its callback an error, the promise is
    rejected with that error, and the request is made all the same: there is
    no [return] after [reject(err)]. *)
Theorem limiter_error_rejects_and_still_calls (n : nat) (w : World) (e : exn) :
  fst (limiter w (acquired w)) = Some e ->
  fst (_wrapRequest this (S n) (_request this url options) clientOptions w) = Rejected e
  /\ (calls w < calls (snd (_wrapRequest this (S n) (_request this url options)
                             clientOptions w)))%nat.
Proof.
  intros Hlim. split.
  - unfold _wrapRequest. rewrite throttle_step, Hlim. reflexivity.
  - destruct (wrapRequest_begins n w) as (rest & Ht).
    unfold calls at 2. rewrite Ht. unfold admitted_call, physical_call.
    rewrite !filter_app, !length_app. cbn [filter is_fetch List.length].
    unfold calls. lia.
Qed.

(** X5. A transport error is not retried: the promise is rejected with the
    error of [fetch] after one physical call. *)
Theorem transport_error_is_not_retried (n : nat) (w : World) (e : exn) :
  fst (limiter w (acquired w)) = None ->
  network w (calls w) = NetworkError e ->
  _wrapRequest this (S n) (_request this url options) clientOptions w
  = (Rejected e,
     emit (admitted_call this url options (snd (limiter w (acquired w)))) w).
Proof.
  intros Hlim Hnet. unfold _wrapRequest. rewrite throttle_step, Hlim. unfold settle.
  rewrite (attempt_network_error this url options (or_empty clientOptions) _ _ e).
  - rewrite emit_emit. reflexivity.
  - rewrite calls_admission. exact Hnet.
Qed.

(** A response below 300 goes to the decoding of its body. *)
Lemma wrapRequest_success (n : nat) (w : World) (r : Response) :
  fst (limiter w (acquired w)) = None ->
  network w (calls w) = Respond r ->
  status r < 300 ->
  _wrapRequest this (S n) (_request this url options) clientOptions w
  = (data <- (let dataType := Obj.get (or_empty clientOptions) "dataType" in
              if is_string dataType DATA_TYPE_STREAM then ret (stream r)
              else if is_string dataType DATA_TYPE_BUFFER then response_buffer r
              else if is_string dataType DATA_TYPE_JSON then response_json r
              else console_warn default_dataType_warning ;;; response_json r) ;;
     ret (Success r data (status r)))
      (emit (admitted_call this url options (snd (limiter w (acquired w)))) w).
Proof.
  intros Hlim Hnet Hst.
  unfold _wrapRequest. rewrite throttle_step, Hlim. unfold settle, attempt.
  unfold bind at 1. rewrite request_run, calls_admission. cbn [network emit].
  rewrite Hnet. apply Z.leb_gt in Hst. rewrite Hst, emit_emit. reflexivity.
Qed.

(** X6. A response below 300 is decoded as [dataType] says: the body stream
    for ['stream'], the buffer for ['buffer'], the parsed JSON for ['json'];
    any other [dataType], or none, prints a warning and decodes JSON.  A body
    that is not JSON then rejects the promise. *)
Theorem success_is_decoded_by_dataType (n : nat) (w : World) (r : Response) :
  fst (limiter w (acquired w)) = None ->
  network w (calls w) = Respond r ->
  status r < 300 ->
  let dataType := Obj.get (or_empty clientOptions) "dataType" in
  let result := _wrapRequest this (S n) (_request this url options) clientOptions w in
  let called := emit (admitted_call this url options (snd (limiter w (acquired w)))) w in
  (dataType = VStr "stream" ->
     result = (Resolved (Success r (stream r) (status r)), called))
  /\ (dataType = VStr "buffer" ->
      result = (Resolved (Success r (buffer r) (status r)), called))
  /\ (dataType = VStr "json" ->
      decoded_json r (fst result) /\ snd result = called)
  /\ (is_string dataType "stream" = false ->
      is_string dataType "buffer" = false ->
      is_string dataType "json" = false ->
      decoded_json r (fst result)
      /\ snd result = emit [Warn default_dataType_warning] called).
Proof.
  intros Hlim Hnet Hst. cbv zeta.
  rewrite (wrapRequest_success n w r Hlim Hnet Hst). cbv zeta.
  unfold DATA_TYPE_STREAM, DATA_TYPE_BUFFER, DATA_TYPE_JSON, decoded_json.
  split; [|split; [|split]].
  - intros ->. reflexivity.
  - intros ->. reflexivity.
  - intros ->. cbn [is_string String.eqb Ascii.eqb Bool.eqb andb].
    unfold response_json, bind, ret, reject.
    destruct (json r); (split; [|reflexivity]); [reflexivity|eexists; reflexivity].
  - intros -> -> ->. unfold bind, console_warn, response_json, ret, reject.
    destruct (json r); (split; [|reflexivity]); [reflexivity|eexists; reflexivity].
Qed.

(** X7. A failed call is a result only when its body can be read: for a
    status of 300 or more other than 429, a body that is not JSON rejects
    the promise with the error of [response.json()], and the JSON [null]
    with the [TypeError] of reading [json.errors]; every other body gives a
    result.  Either way one physical call is made. *)
Theorem unreadable_failure_rejects (n : nat) (w : World) (r : Response) :
  fst (limiter w (acquired w)) = None ->
  network w (calls w) = Respond r ->
  300 <= status r ->
  status r <> 429 ->
  let result := _wrapRequest this (S n) (_request this url options) clientOptions w in
  (json r = None -> exists message, fst result = Rejected (FetchError message))
  /\ (json r = Some VNull -> exists message, fst result = Rejected (TypeError message))
  /\ (forall body, json r = Some body -> nullish body = false ->
        fst result = Resolved (Failure (failure_of (status r) body)))
  /\ snd result = emit (admitted_call this url options (snd (limiter w (acquired w)))) w.
Proof.
  intros Hlim Hnet Hge Hne. cbv zeta.
  assert (Hrun :
    _wrapRequest this (S n) (_request this url options) clientOptions w
    = (json <- response_json r ;;
       json_errors <- lift (getProperty json "errors") ;;
       errors <- (if truthy json_errors then ret json_errors
                  else
                    json_message <- lift (getProperty json "message") ;;
                    ret (if truthy json_message then VArr [json] else json_message)) ;;
       ret (if truthy errors
            then Failure [("statusCode", VNum (Number.of_Z (status r)));
                          ("errors", errors)]
            else Failure (Obj.spread
                            [("statusCode", VNum (Number.of_Z (status r)))]
                            (own_properties json))))
        (emit (admitted_call this url options (snd (limiter w (acquired w)))) w)).
  { unfold _wrapRequest. rewrite throttle_step, Hlim. unfold settle, attempt.
    unfold bind at 1. rewrite request_run, calls_admission. cbn [network emit].
    rewrite Hnet. apply Z.leb_le in Hge. rewrite Hge, emit_emit.
    destruct (Z.eqb_spec (status r) 429) as [E|_]; [contradiction|reflexivity]. }
  split; [|split; [|split]].
  - intros Hjson. rewrite Hrun. unfold bind at 1. unfold response_json.
    rewrite Hjson. eexists. reflexivity.
  - intros Hjson. rewrite Hrun. unfold bind at 1. unfold response_json.
    rewrite Hjson. eexists. reflexivity.
  - intros body Hjson Hbody.
    rewrite (wrapRequest_failure this url options clientOptions n w r body);
      try assumption. reflexivity.
  - rewrite Hrun.
    repeat run_step; unfold ret, reject; cbn beta iota; reflexivity.
Qed.

End OnePass.

Lemma waits_a_window_when_no_request_remains_witness :
  exists rest,
    trace (snd (_wrapRequest Sample.client 1 (_request Sample.client "/test" Sample.post)
                  None (Sample.exhausted Sample.ok)))
    = Acquire :: Sleep (Number.of_Z 5050)
      :: physical_call Sample.client "/test" Sample.post :: rest.
Proof.
  destruct (waits_a_window_when_no_request_remains Sample.client "/test" Sample.post None
              "Anvil API Client" "2.0.0"
              {| apiKey := Some "abc123"; accessToken := None;
                 baseURL := None; userAgent := None |}
              0 (Sample.exhausted Sample.ok) eq_refl) as (rest & H).
  exists rest. exact H.
Defined.

Lemma limiter_error_rejects_and_still_calls_witness :
  fst (_wrapRequest Sample.client 1 (_request Sample.client "/test" Sample.post) None
         (Sample.refused (Error "limiter") Sample.ok))
  = Rejected (Error "limiter")
  /\ (0 < calls (snd (_wrapRequest Sample.client 1
                        (_request Sample.client "/test" Sample.post) None
                        (Sample.refused (Error "limiter") Sample.ok))))%nat.
Proof.
  exact (limiter_error_rejects_and_still_calls Sample.client "/test" Sample.post None
           0 (Sample.refused (Error "limiter") Sample.ok) (Error "limiter") eq_refl).
Defined.

Lemma transport_error_is_not_retried_witness :
  _wrapRequest Sample.client 3 (_request Sample.client "/test" Sample.post) None
    (Sample.offline (FetchError "ECONNREFUSED"))
  = (Rejected (FetchError "ECONNREFUSED"),
     emit [Acquire; physical_call Sample.client "/test" Sample.post]
       (Sample.offline (FetchError "ECONNREFUSED"))).
Proof.
  exact (transport_error_is_not_retried Sample.client "/test" Sample.post None
           2 (Sample.offline (FetchError "ECONNREFUSED")) (FetchError "ECONNREFUSED")
           eq_refl eq_refl).
Defined.

Lemma success_is_decoded_by_dataType_witness :
  fst (_wrapRequest Sample.client 1 (_request Sample.client "/test" Sample.post)
         (Some [("dataType", VStr "buffer")]) (Sample.world [] Sample.ok))
  = Resolved (Success Sample.ok (VStr "This would be PDF data...") 200)
  /\ _wrapRequest Sample.client 1 (_request Sample.client "/test" Sample.post)
       None (Sample.world [] Sample.ok)
     = (Resolved (Success Sample.ok (VObj [("result", VStr "ok")]) 200),
        emit [Acquire; physical_call Sample.client "/test" Sample.post;
              Warn default_dataType_warning] (Sample.world [] Sample.ok)).
Proof.
  destruct (success_is_decoded_by_dataType Sample.client "/test" Sample.post
              (Some [("dataType", VStr "buffer")]) 0 (Sample.world [] Sample.ok)
              Sample.ok eq_refl eq_refl ltac:(cbv; reflexivity)) as (_ & Hbuffer & _).
  destruct (success_is_decoded_by_dataType Sample.client "/test" Sample.post
              None 0 (Sample.world [] Sample.ok)
              Sample.ok eq_refl eq_refl ltac:(cbv; reflexivity)) as (_ & _ & _ & Hnone).
  destruct (Hnone eq_refl eq_refl eq_refl) as [Hfst Hsnd].
  split.
  - rewrite (Hbuffer eq_refl). reflexivity.
  - rewrite (surjective_pairing (_wrapRequest _ _ _ _ _)), Hfst, Hsnd. reflexivity.
Defined.

Lemma unreadable_failure_rejects_witness :
  (exists message,
     fst (_wrapRequest Sample.client 1 (_request Sample.client "/test" Sample.post) None
            (Sample.world [] Sample.badGateway))
     = Rejected (FetchError message))
  /\ calls (snd (_wrapRequest Sample.client 1 (_request Sample.client "/test" Sample.post)
                   None (Sample.world [] Sample.badGateway))) = 1%nat.
Proof.
  destruct (unreadable_failure_rejects Sample.client "/test" Sample.post None
              0 (Sample.world [] Sample.badGateway) Sample.badGateway
              eq_refl eq_refl ltac:(cbv; discriminate) ltac:(cbv; discriminate))
    as (Hnone & _ & _ & Hsnd).
  split; [exact (Hnone eq_refl)|]. rewrite Hsnd. reflexivity.
Defined.

(** ** Objects, headers and addresses *)

Lemma has_In (o : obj) (k : string) :
  Obj.has o k = true <-> In k (map fst o).
Proof.
  induction o as [|[k' v'] o IH]; cbn; [split; [discriminate|contradiction]|].
  rewrite orb_true_iff, IH, String.eqb_eq. reflexivity.
Qed.

Lemma has_set (o : obj) (k k' : string) (v : value) :
  Obj.has (Obj.set o k v) k' = Obj.has o k' || (k =? k')%string.
Proof.
  induction o as [|[k0 v0] o IH]; cbn.
  - rewrite orb_false_r. reflexivity.
  - destruct (String.eqb_spec k0 k) as [->|Hne]; cbn.
    + destruct (k =? k')%string; cbn; [reflexivity|]. rewrite orb_false_r. reflexivity.
    + rewrite IH, orb_assoc. reflexivity.
Qed.

Lemma set_same (o : obj) (k : string) (v : value) :
  Obj.has o k = true -> Obj.get o k = v -> Obj.set o k v = o.
Proof.
  induction o as [|[k0 v0] o IH]; cbn; [discriminate|].
  destruct (String.eqb_spec k0 k) as [->|Hne]; cbn.
  - intros _ ->. reflexivity.
  - intros Hh Hg. rewrite (IH Hh Hg). reflexivity.
Qed.

Lemma get_absent (o : obj) (k : string) :
  Obj.has o k = false -> Obj.get o k = VUndefined.
Proof.
  induction o as [|[k0 v0] o IH]; cbn; [reflexivity|].
  destruct (k0 =? k)%string; cbn; [discriminate|exact IH].
Qed.

(** [{ ...base, ...extra }] reads a property from [extra] when [extra] has
    it and from [base] otherwise. *)
Lemma get_spread (extra : obj) : forall (base : obj) (k : string),
  NoDup (map fst extra) ->
  Obj.get (Obj.spread base extra) k
  = if Obj.has extra k then Obj.get extra k else Obj.get base k.
Proof.
  unfold Obj.spread.
  induction extra as [|[k0 v0] extra IH]; intros base k Hnd; cbn; [reflexivity|].
  inversion Hnd as [|? ? Hnotin Hnd']; subst.
  rewrite (IH _ k Hnd').
  destruct (String.eqb_spec k0 k) as [->|Hne]; cbn.
  - destruct (Obj.has extra k) eqn:Hh.
    + apply has_In in Hh. contradiction.
    + apply get_set_same.
  - destruct (Obj.has extra k); [reflexivity|]. apply get_set_other, Hne.
Qed.

(** The reduction of [_addHeaders] keeps the headers that are neither
    [null] nor [undefined]. *)
Lemma headers_reduce (newHeaders : obj) : forall acc : obj,
  NoDup (map fst newHeaders) ->
  (forall k, In k (map fst newHeaders) -> Obj.has acc k = false) ->
  fold_left
    (fun acc kv => if negb (nullish (snd kv))
                   then Obj.set acc (fst kv) (snd kv) else acc)
    newHeaders acc
  = (acc ++ filter (fun kv => negb (nullish (snd kv))) newHeaders)%list.
Proof.
  induction newHeaders as [|[k0 v0] rest IH]; intros acc Hnd Hfresh; cbn [fold_left filter].
  - rewrite app_nil_r. reflexivity.
  - inversion Hnd as [|? ? Hnotin Hnd']; subst. cbn [fst snd].
    destruct (negb (nullish v0)).
    + rewrite set_fresh by (apply Hfresh; left; reflexivity).
      rewrite IH; [rewrite <- app_assoc; reflexivity|exact Hnd'|].
      intros k Hk. rewrite has_app, (Hfresh k (or_intror Hk)). cbn.
      rewrite orb_false_r. apply String.eqb_neq. intros ->. contradiction.
    + apply IH; [exact Hnd'|]. intros k Hk. apply Hfresh. right. exact Hk.
Qed.

Lemma filter_keys (p : string * value -> bool) (o : obj) :
  NoDup (map fst o) -> NoDup (map fst (filter p o)).
Proof.
  induction o as [|[k v] o IH]; cbn; intros Hnd; [constructor|].
  inversion Hnd as [|? ? Hnotin Hnd']; subst.
  destruct (p (k, v)); cbn; [|exact (IH Hnd')].
  constructor; [|exact (IH Hnd')].
  intros Hin. apply Hnotin. clear -Hin.
  induction o as [|[k' v'] o IH]; cbn in *; [contradiction|].
  destruct (p (k', v')); cbn in *; [destruct Hin; [left; assumption|right; auto]|right; auto].
Qed.

Lemma get_filter (o : obj) (k : string) :
  NoDup (map fst o) ->
  Obj.has (filter (fun kv => negb (nullish (snd kv))) o) k
  = Obj.has o k && negb (nullish (Obj.get o k))
  /\ (nullish (Obj.get o k) = false ->
      Obj.get (filter (fun kv => negb (nullish (snd kv))) o) k = Obj.get o k).
Proof.
  induction o as [|[k0 v0] o IH]; cbn; intros Hnd; [split; reflexivity|].
  inversion Hnd as [|? ? Hnotin Hnd']; subst.
  destruct (IH Hnd') as [IHh IHg].
  destruct (String.eqb_spec k0 k) as [->|Hne]; cbn.
  - assert (Hh : Obj.has o k = false).
    { destruct (Obj.has o k) eqn:E; [|reflexivity]. apply has_In in E. contradiction. }
    destruct (nullish v0) eqn:Hv; cbn.
    + rewrite IHh, Hh. split; [reflexivity|discriminate].
    + rewrite String.eqb_refl. split; reflexivity.
  - destruct (nullish v0); cbn.
    + split; [exact IHh|exact IHg].
    + destruct (String.eqb_spec k0 k); [contradiction|]. cbn. split; [exact IHh|exact IHg].
Qed.

(** X8. [_addHeaders] merges the new headers over the existing ones and
    leaves the rest of the options alone.  As defaults, every new header
    replaces the existing one of its name; otherwise a new header that is
    [null] or [undefined] is dropped and the existing one stays. *)
Theorem addHeaders_merges (existingOptions : RequestInit) (newHeaders : obj)
    (defaults : bool) :
  NoDup (map fst newHeaders) ->
  let merged := _addHeaders existingOptions newHeaders defaults in
  let existingHeaders := match headers existingOptions with Some h => h | None => [] end in
  exists h,
    headers merged = Some h
    /\ (forall k,
          Obj.get h k
          = if Obj.has newHeaders k
               && (defaults || negb (nullish (Obj.get newHeaders k)))
            then Obj.get newHeaders k
            else Obj.get existingHeaders k)
    /\ method merged = method existingOptions
    /\ body merged = body existingOptions
    /\ signal merged = signal existingOptions.
Proof.
  intros Hnd. cbv zeta. unfold _addHeaders. cbn [headers method body signal].
  eexists. split; [reflexivity|]. split; [|repeat split].
  intros k. destruct defaults; cbn [orb].
  - rewrite get_spread by exact Hnd. rewrite andb_true_r. reflexivity.
  - rewrite headers_reduce by (exact Hnd || reflexivity). cbn [app].
    rewrite get_spread by (apply filter_keys, Hnd).
    destruct (get_filter newHeaders k Hnd) as [Hh Hg]. rewrite Hh.
    destruct (Obj.has newHeaders k); cbn [andb]; [|reflexivity].
    destruct (nullish (Obj.get newHeaders k)) eqn:Hn; cbn [negb]; [reflexivity|].
    apply Hg. reflexivity.
Qed.

Lemma addHeaders_merges_witness :
  exists h,
    headers (_addHeaders
               {| method := "GET";
                  headers := Some [("Accept", VStr "text/html"); ("X-Trace", VStr "1")];
                  body := NoBody; signal := None |}
               [("Accept", VNull); ("X-Trace", VStr "2"); ("X-New", VUndefined)]
               false) = Some h
    /\ Obj.get h "Accept" = VStr "text/html"
    /\ Obj.get h "X-Trace" = VStr "2"
    /\ Obj.get h "X-New" = VUndefined.
Proof.
  destruct (addHeaders_merges
              {| method := "GET";
                 headers := Some [("Accept", VStr "text/html"); ("X-Trace", VStr "1")];
                 body := NoBody; signal := None |}
              [("Accept", VNull); ("X-Trace", VStr "2"); ("X-New", VUndefined)]
              false) as (h & Hh & Hget & _).
  - repeat constructor; cbn; intuition discriminate.
  - exists h. split; [exact Hh|]. rewrite !Hget. repeat split.
Defined.

(** X9. Adding the default headers a second time changes nothing, and the
    headers the caller gave under other names are kept with their values. *)
Theorem addDefaultHeaders_idempotent (this : Anvil) (options : RequestInit) :
  _addDefaultHeaders this (_addDefaultHeaders this options)
  = _addDefaultHeaders this options
  /\ (forall k h h', k <> "Authorization" -> k <> "User-Agent" ->
        headers options = Some h ->
        headers (_addDefaultHeaders this options) = Some h' ->
        Obj.get h' k = Obj.get h k /\ Obj.has h' k = Obj.has h k).
Proof.
  split.
  - unfold _addDefaultHeaders, _addHeaders. cbn [headers method body signal].
    unfold Obj.spread. cbn [fold_left fst snd].
    set (e := match headers options with Some h => h | None => [] end).
    set (h1 := Obj.set (Obj.set e "User-Agent" (VStr (options_userAgent this)))
                 "Authorization" (VStr (authHeader this))).
    assert (H1 : Obj.set h1 "User-Agent" (VStr (options_userAgent this)) = h1).
    { apply set_same.
      - unfold h1. rewrite !has_set. cbn. rewrite orb_true_r. reflexivity.
      - unfold h1. rewrite get_set_other by discriminate. apply get_set_same. }
    rewrite H1.
    assert (H2 : Obj.set h1 "Authorization" (VStr (authHeader this)) = h1).
    { apply set_same.
      - unfold h1. rewrite !has_set. cbn. apply orb_true_r.
      - apply get_set_same. }
    rewrite H2. reflexivity.
  - intros k h h' Ha Hu Hh. unfold _addDefaultHeaders, _addHeaders.
    cbn [headers]. rewrite Hh. unfold Obj.spread. cbn [fold_left fst snd].
    intros H. injection H as <-. split.
    + rewrite !get_set_other by congruence. reflexivity.
    + rewrite !has_set.
      destruct (String.eqb_spec "Authorization" k) as [E|_]; [congruence|].
      destruct (String.eqb_spec "User-Agent" k) as [E|_]; [congruence|].
      rewrite !orb_false_r. reflexivity.
Qed.

Lemma prefix_append (b p : string) : String.prefix b (b ++ p) = true.
Proof.
  induction b as [|c b IH]; cbn; [destruct p; reflexivity|].
  rewrite IH. destruct (ascii_dec c c); [reflexivity|contradiction].
Qed.

Lemma address_under_baseURL (this : Anvil) (url : string) :
  String.prefix (options_baseURL this) (address this url) = true.
Proof.
  unfold address, _url.
  destruct (String.prefix (options_baseURL this) url) eqn:E; [exact E|].
  apply prefix_append.
Qed.

(** X10. [_request] compares texts, not hosts.  A URL whose text begins
    with [baseURL] is sent as it is, whatever follows that text, be it
    a path or the rest of another host name; any other URL is sent with
    [baseURL] put in front.  So the address of an address is that address,
    and the URL of every physical call of [requestREST] begins with the
    text of [baseURL]. *)
Theorem request_urls_begin_with_baseURL (this : Anvil) (url : string)
    (fetchOptions : RequestInit) (clientOptions : option obj) (n : nat) (w : World) :
  (forall rest,
     address this (options_baseURL this ++ rest) = options_baseURL this ++ rest)
  /\ (String.prefix (options_baseURL this) url = true -> address this url = url)
  /\ (String.prefix (options_baseURL this) url = false ->
      address this url = options_baseURL this ++ url)
  /\ address this (address this url) = address this url
  /\ exists es,
       trace (snd (requestREST this n url fetchOptions clientOptions w))
       = (trace w ++ es)%list
       /\ Forall (fun e => match e with
                           | Fetch u init =>
                               u = address this url
                               /\ String.prefix (options_baseURL this) u = true
                           | _ => True
                           end) es.
Proof.
  split; [|split; [|split; [|split]]].
  - intros rest. unfold address. rewrite prefix_append. reflexivity.
  - intros H. unfold address. rewrite H. reflexivity.
  - intros H. unfold address, _url. rewrite H. reflexivity.
  - unfold address at 1. rewrite address_under_baseURL. reflexivity.
  - destruct (throttle_invariant this url fetchOptions (or_empty clientOptions) n w)
      as (_ & _ & (es & Ht & Hes) & _).
    exists es. split.
    + rewrite <- Ht. unfold requestREST, bind, _wrapRequest.
      destruct (_throttle this n _ w) as [[r|e|] w']; reflexivity.
    + eapply Forall_impl; [|exact Hes].
      intros [] He; try exact I. destruct He as [-> _].
      split; [reflexivity|apply address_under_baseURL].
Qed.

(** ** The REST operations, end to end *)

Section RESTOperations.

Variable JSON_stringify : value -> string.
Variable this : Anvil.

Lemma requestREST_success (n : nat) (url : string) (fetchOptions : RequestInit)
    (clientOptions : option obj) (w : World) (r : Response) :
  fst (limiter w (acquired w)) = None ->
  network w (calls w) = Respond r ->
  status r < 300 ->
  includes [DATA_TYPE_STREAM; DATA_TYPE_BUFFER]
    (Obj.get (or_empty clientOptions) "dataType") = true ->
  requestREST this (S n) url fetchOptions clientOptions w
  = (Resolved {| rest_response := inl r;
                 rest_statusCode := VNum (Number.of_Z (status r));
                 rest_data :=
                   if is_string (Obj.get (or_empty clientOptions) "dataType")
                        DATA_TYPE_STREAM
                   then stream r else buffer r;
                 rest_errors := VUndefined |},
     emit (admitted_call this url fetchOptions (snd (limiter w (acquired w)))) w).
Proof.
  intros Hlim Hnet Hst Hdt. unfold requestREST. unfold bind at 1.
  rewrite (wrapRequest_success this url fetchOptions clientOptions n w r Hlim Hnet Hst).
  cbv zeta. revert Hdt.
  destruct (Obj.get (or_empty clientOptions) "dataType") as [| | | |s| | | |];
    intros Hdt; try discriminate Hdt.
  cbn [includes existsb] in Hdt. cbn [is_string].
  destruct (String.eqb_spec s DATA_TYPE_STREAM) as [_|Hs]; [reflexivity|].
  destruct (String.eqb_spec s DATA_TYPE_BUFFER) as [_|Hb]; [reflexivity|].
  discriminate Hdt.
Qed.

Lemma dataType_forwarded (clientOptions : obj) :
  Obj.get (or_empty (Some (Obj.spread clientOptions
                             [("dataType", dataType_of clientOptions)]))) "dataType"
  = dataType_of clientOptions.
Proof. cbn [or_empty]. unfold Obj.spread. cbn [fold_left fst snd]. apply get_set_same. Qed.

Lemma dataType_accepted (clientOptions : obj) :
  includes [DATA_TYPE_STREAM; DATA_TYPE_BUFFER] (dataType_of clientOptions) = true ->
  truthy (dataType_of clientOptions)
  && negb (includes [DATA_TYPE_STREAM; DATA_TYPE_BUFFER] (dataType_of clientOptions))
  = false.
Proof. intros ->. apply andb_false_r. Qed.

(** X11. [fillPDF] and [generatePDF] make one [POST] whose body is the JSON
    text of the payload, with the headers [Content-Type], [User-Agent] and
    [Authorization], to [/api/v1/fill/<id>.pdf] and [/api/v1/generate-pdf];
    a response below 300 resolves to [{ response, statusCode, data }] in
    which [data] is the body stream for ['stream'] and the buffer for
    ['buffer'] or no [dataType]. *)
Theorem fillPDF_posts_the_payload (n : nat) (pdfTemplateID : string) (payload : value)
    (clientOptions : obj) (w : World) (r : Response) :
  fst (limiter w (acquired w)) = None ->
  network w (calls w) = Respond r ->
  status r < 300 ->
  includes [DATA_TYPE_STREAM; DATA_TYPE_BUFFER] (dataType_of clientOptions) = true ->
  let sent :=
    {| method := "POST";
       headers := Some [("Content-Type", VStr "application/json");
                        ("User-Agent", VStr (options_userAgent this));
                        ("Authorization", VStr (authHeader this))];
       body := TextBody (JSON_stringify payload);
       signal := None |} in
  let result :=
    {| rest_response := inl r;
       rest_statusCode := VNum (Number.of_Z (status r));
       rest_data := if is_string (dataType_of clientOptions) DATA_TYPE_STREAM
                    then stream r else buffer r;
       rest_errors := VUndefined |} in
  let after path :=
    emit (admission this (snd (limiter w (acquired w)))
          ++ [Fetch (address this path) sent]) w in
  (exists run,
     fillPDF JSON_stringify this (S n) pdfTemplateID payload (Some clientOptions)
     = inr run
     /\ run w = (Resolved result, after ("/api/v1/fill/" ++ pdfTemplateID ++ ".pdf")))
  /\ (exists run,
        generatePDF JSON_stringify this (S n) payload (Some clientOptions) = inr run
        /\ run w = (Resolved result, after "/api/v1/generate-pdf")).
Proof.
  intros Hlim Hnet Hst Hdt. cbv zeta.
  unfold fillPDF, generatePDF. cbn [or_empty].
  rewrite (dataType_accepted clientOptions Hdt).
  split; eexists; (split; [reflexivity|]);
    rewrite (requestREST_success n _ _ _ w r Hlim Hnet Hst);
    rewrite ?dataType_forwarded; try exact Hdt; reflexivity.
Qed.

(** X12. [downloadDocuments] makes one [GET] without a body to
    [/api/document-group/<eid>.zip], with the headers [User-Agent] and
    [Authorization] only, and resolves to the stream or the buffer of a
    response below 300. *)
Theorem downloadDocuments_gets_the_archive (n : nat) (documentGroupEid : string)
    (clientOptions : obj) (w : World) (r : Response) :
  fst (limiter w (acquired w)) = None ->
  network w (calls w) = Respond r ->
  status r < 300 ->
  includes [DATA_TYPE_STREAM; DATA_TYPE_BUFFER] (dataType_of clientOptions) = true ->
  exists run,
    downloadDocuments this (S n) documentGroupEid (Some clientOptions) = inr run
    /\ run w
       = (Resolved {| rest_response := inl r;
                      rest_statusCode := VNum (Number.of_Z (status r));
                      rest_data := if is_string (dataType_of clientOptions) DATA_TYPE_STREAM
                                   then stream r else buffer r;
                      rest_errors := VUndefined |},
          emit (admission this (snd (limiter w (acquired w)))
                ++ [Fetch (address this ("/api/document-group/" ++ documentGroupEid
                                         ++ ".zip"))
                      {| method := "GET";
                         headers := Some [("User-Agent", VStr (options_userAgent this));
                                          ("Authorization", VStr (authHeader this))];
                         body := NoBody;
                         signal := None |}]) w).
Proof.
  intros Hlim Hnet Hst Hdt.
  unfold downloadDocuments. cbn [or_empty].
  rewrite (dataType_accepted clientOptions Hdt).
  eexists. split; [reflexivity|].
  rewrite (requestREST_success n _ _ _ w r Hlim Hnet Hst);
    rewrite ?dataType_forwarded; try exact Hdt; reflexivity.
Qed.

(** X13. What [requestREST] returns for a failed call whose body is a JSON
    object.  With [errors] or [message] in the body the result has the
    status of the response, truthy [errors], and neither [data] nor
    [response].  With neither, the properties of the body are the result:
    its [data], [response] and [errors] are the body's, and a [statusCode]
    of the body replaces the status of the response. *)
Theorem requestREST_failure_fields (n : nat) (url : string) (fetchOptions : RequestInit)
    (clientOptions : option obj) (w : World) (r : Response) (fields : obj) :
  fst (limiter w (acquired w)) = None ->
  network w (calls w) = Respond r ->
  300 <= status r ->
  status r <> 429 ->
  json r = Some (VObj fields) ->
  NoDup (map fst fields) ->
  exists res,
    fst (requestREST this (S n) url fetchOptions clientOptions w) = Resolved res
    /\ (truthy (Obj.get fields "errors") || truthy (Obj.get fields "message") = true ->
        rest_statusCode res = VNum (Number.of_Z (status r))
        /\ truthy (rest_errors res) = true
        /\ rest_data res = VUndefined
        /\ rest_response res = inr VUndefined)
    /\ (truthy (Obj.get fields "errors") || truthy (Obj.get fields "message") = false ->
        rest_statusCode res
        = (if Obj.has fields "statusCode" then Obj.get fields "statusCode"
           else VNum (Number.of_Z (status r)))
        /\ rest_errors res = Obj.get fields "errors"
        /\ rest_data res = Obj.get fields "data"
        /\ rest_response res = inr (Obj.get fields "response")).
Proof.
  intros Hlim Hnet Hge Hne Hjson Hnd.
  unfold requestREST. unfold bind at 1.
  rewrite (wrapRequest_failure this url fetchOptions clientOptions n w r (VObj fields))
    by (assumption || reflexivity).
  eexists. split; [reflexivity|].
  cbn [rest_statusCode rest_errors rest_data rest_response wrapped_get wrapped_response].
  unfold failure_of. cbn [own_properties].
  split.
  - intros H. destruct (truthy (Obj.get fields "errors")) eqn:He.
    + cbn. rewrite He. repeat split.
    + cbn [orb] in H. rewrite H. cbn. repeat split.
  - intros H. apply orb_false_iff in H. destruct H as [He Hm]. rewrite He, Hm.
    rewrite !get_spread by exact Hnd. cbn [Obj.get String.eqb Ascii.eqb Bool.eqb andb].
    split; [reflexivity|].
    split; [destruct (Obj.has fields "errors") eqn:E;
              [reflexivity|symmetry; apply get_absent, E]|].
    split; [destruct (Obj.has fields "data") eqn:E;
              [reflexivity|symmetry; apply get_absent, E]|].
    destruct (Obj.has fields "response") eqn:E;
      [reflexivity|rewrite (get_absent _ _ E); reflexivity].
Qed.

End RESTOperations.

Lemma fillPDF_posts_the_payload_witness :
  exists run,
    fillPDF Sample.stringify Sample.client 1 "cast123"
      (VObj [("title", VStr "Test")]) (Some []) = inr run
    /\ run (Sample.world [] Sample.ok)
       = (Resolved {| rest_response := inl Sample.ok;
                      rest_statusCode := VNum (Number.of_Z 200);
                      rest_data := VStr "This would be PDF data...";
                      rest_errors := VUndefined |},
          emit [Acquire;
                Fetch "https://app.useanvil.com/api/v1/fill/cast123.pdf"
                  {| method := "POST";
                     headers := Some [("Content-Type", VStr "application/json");
                                      ("User-Agent", VStr "Anvil API Client/2.0.0");
                                      ("Authorization", VStr "Basic YWJjMTIzOg==")];
                     body := TextBody (Sample.stringify (VObj [("title", VStr "Test")]));
                     signal := None |}]
            (Sample.world [] Sample.ok)).
Proof.
  destruct (fillPDF_posts_the_payload Sample.stringify Sample.client 0 "cast123"
              (VObj [("title", VStr "Test")]) [] (Sample.world [] Sample.ok) Sample.ok
              eq_refl eq_refl ltac:(cbv; reflexivity) eq_refl)
    as ((run & Hrun & Hw) & _).
  exists run. split; [exact Hrun|]. rewrite Hw. reflexivity.
Defined.

Lemma downloadDocuments_gets_the_archive_witness :
  exists run,
    downloadDocuments Sample.client 1 "docGroupEid123"
      (Some [("dataType", VStr "stream")]) = inr run
    /\ fst (run (Sample.world [] Sample.ok))
       = Resolved {| rest_response := inl Sample.ok;
                     rest_statusCode := VNum (Number.of_Z 200);
                     rest_data := VUndefined;
                     rest_errors := VUndefined |}.
Proof.
  destruct (downloadDocuments_gets_the_archive Sample.client 0 "docGroupEid123"
              [("dataType", VStr "stream")] (Sample.world [] Sample.ok) Sample.ok
              eq_refl eq_refl ltac:(cbv; reflexivity) eq_refl)
    as (run & Hrun & Hw).
  exists run. split; [exact Hrun|]. rewrite Hw. reflexivity.
Defined.

Lemma requestREST_failure_fields_witness :
  exists res,
    fst (requestREST Sample.client 1 "/test" Sample.post None
           (Sample.world [] Sample.misleading)) = Resolved res
    /\ rest_statusCode res = VNum (Number.of_Z 200)
    /\ rest_data res = VStr "fine".
Proof.
  destruct (requestREST_failure_fields Sample.client 0 "/test" Sample.post None
              (Sample.world [] Sample.misleading) Sample.misleading
              [("statusCode", VNum (Number.of_Z 200)); ("data", VStr "fine")]
              eq_refl eq_refl ltac:(cbv; discriminate) ltac:(cbv; discriminate) eq_refl)
    as (res & Hres & _ & Hbody).
  - repeat constructor; cbn; intuition discriminate.
  - destruct (Hbody eq_refl) as (Hs & _ & Hd & _).
    exists res. split; [exact Hres|]. split; [exact Hs|exact Hd].
Defined.

(** ** GraphQL operations *)

Section Silence.

Variable this : Anvil.
Variables (url : string) (options : RequestInit) (clientOptions : obj).

Hypothesis dataType_given :
  is_string (Obj.get clientOptions "dataType") DATA_TYPE_STREAM
  || is_string (Obj.get clientOptions "dataType") DATA_TYPE_BUFFER
  || is_string (Obj.get clientOptions "dataType") DATA_TYPE_JSON = true.

Lemma attempt_silent (K : Number -> Async Wrapped) (w : World) (r : Response) :
  network w (calls w) = Respond r ->
  status r <> 429 ->
  snd (attempt (_request this url options) clientOptions K w)
  = emit [physical_call this url options] w.
Proof.
  intros Hnet Hst. unfold attempt. unfold bind at 1.
  rewrite request_run, Hnet. fold (physical_call this url options).
  destruct (300 <=? status r).
  - destruct (Z.eqb_spec (status r) 429) as [E|_]; [contradiction|].
    repeat run_step; unfold ret, reject; cbn beta iota; reflexivity.
  - cbv zeta.
    destruct (is_string (Obj.get clientOptions "dataType") DATA_TYPE_STREAM);
      [reflexivity|].
    destruct (is_string (Obj.get clientOptions "dataType") DATA_TYPE_BUFFER);
      [reflexivity|].
    destruct (is_string (Obj.get clientOptions "dataType") DATA_TYPE_JSON);
      [|discriminate dataType_given].
    unfold bind, response_json, ret, reject. destruct (json r); reflexivity.
Qed.

Lemma admission_silent (rem : Number) : Forall silent (admission this rem).
Proof. unfold admission. destruct (SFltb rem (Number.of_Z 1)); repeat constructor. Qed.

(** With a [dataType] that the executor knows, a run prints nothing. *)
Lemma throttle_silent (n : nat) : forall w : World,
  exists es,
    trace (snd (_throttle this n (attempt (_request this url options) clientOptions) w))
    = (trace w ++ es)%list
    /\ Forall silent es.
Proof.
  induction n as [|n IH]; intros w.
  - exists []. rewrite app_nil_r. split; [reflexivity|constructor].
  - rewrite throttle_step, settle_snd.
    set (rem := snd (limiter w (acquired w))).
    set (w2 := emit (admission this rem) w).
    pose proof (admission_silent rem) as Hadm.
    destruct (network w2 (calls w2)) as [r|e] eqn:Hnet.
    + destruct (Z.eq_dec (status r) 429) as [Hst|Hst].
      * rewrite (attempt_throttled this url options clientOptions _ w2 r Hnet Hst),
          sleep_then, emit_emit.
        destruct (IH (emit ([Fetch (address this url) (_addDefaultHeaders this options)]
                            ++ [Sleep (getRetryMS (headers_get (response_headers r)
                                                     "retry-after"))]) w2))
          as (es & Ht & Hes).
        rewrite Ht. cbn [trace emit w2]. eexists. rewrite <- !app_assoc.
        split; [reflexivity|].
        apply Forall_app. split; [exact Hadm|].
        cbn [app]. constructor; [exact I|]. constructor; [exact I|exact Hes].
      * rewrite (attempt_silent _ w2 r Hnet Hst). cbn [trace emit w2].
        eexists. rewrite <- !app_assoc. split; [reflexivity|].
        apply Forall_app. split; [exact Hadm|]. repeat constructor.
    + rewrite (attempt_network_error this url options clientOptions _ w2 e Hnet).
      cbn [snd trace emit w2]. eexists. rewrite <- !app_assoc. split; [reflexivity|].
      apply Forall_app. split; [exact Hadm|]. repeat constructor.
Qed.

End Silence.


Section Etch.

Variable JSON_stringify : value -> string.
Variable isFile : value -> bool.
Variable graphQLUploadSchemaIsValid : value -> bool.
Variable generateCreateEtchPacketMutation : value -> value.
Variable generateEtchPacketQuery : value -> value.
Variable generateEtchSignUrlMutation : value.
Variable this : Anvil.

Lemma graphQLOptions_method (operationJSON : string) (filesMap : FilesMap) :
  method (graphQLOptions JSON_stringify operationJSON filesMap) = "POST".
Proof. destruct filesMap; reflexivity. Qed.

(** A GraphQL request that asks for JSON, for an operation that passes the
    validation: after the pass through the limiter the operation is posted
    to [/graphql], every later call is the same call, and nothing is
    printed. *)
Lemma requestGraphQL_JSON_posts (n : nat) (query variables : value) (w : World) :
  graphQLUploadSchemaIsValid (operation query variables) = true ->
  exists rest,
    trace (snd (requestGraphQL JSON_stringify isFile graphQLUploadSchemaIsValid this (S n)
                  query variables (Some [("dataType", VStr DATA_TYPE_JSON)]) w))
    = (trace w
       ++ admission this (snd (limiter w (acquired w)))
       ++ Fetch (address this "/graphql")
            (_addDefaultHeaders this
               (graphQLOptions JSON_stringify
                  (JSON_stringify (fst (extractFiles (operation query variables) ""
                                          isFile)))
                  (snd (extractFiles (operation query variables) "" isFile))))
          :: rest)%list
    /\ Forall (fun e =>
                 silent e
                 /\ match e with
                    | Fetch u init =>
                        u = address this "/graphql"
                        /\ init
                           = _addDefaultHeaders this
                               (graphQLOptions JSON_stringify
                                  (JSON_stringify
                                     (fst (extractFiles (operation query variables) ""
                                             isFile)))
                                  (snd (extractFiles (operation query variables) ""
                                          isFile)))
                    | _ => True
                    end) rest.
Proof.
  intros Hvalid. rewrite requestGraphQL_unfold, Hvalid. cbn [negb].
  set (sent := graphQLOptions JSON_stringify _ _).
  set (options := Some [("dataType", VStr DATA_TYPE_JSON)]).
  assert (Hsnd : snd ((r <- _wrapRequest this (S n) (_request this "/graphql" sent) options ;;
                       ret {| gql_statusCode := wrapped_get r "statusCode";
                              gql_data := wrapped_get r "data";
                              gql_errors := wrapped_get r "errors" |}) w)
                 = snd (_wrapRequest this (S n) (_request this "/graphql" sent) options w)).
  { unfold bind. destruct (_wrapRequest this (S n) _ options w) as [[r|e|] w'];
      reflexivity. }
  rewrite Hsnd.
  destruct (wrapRequest_begins this "/graphql" sent options n w) as (rest & Ht).
  unfold admitted_call, physical_call in Ht. rewrite <- app_assoc in Ht. cbn [app] in Ht.
  exists rest. split; [exact Ht|].
  destruct (throttle_silent this "/graphql" sent [("dataType", VStr DATA_TYPE_JSON)]
              eq_refl (S n) w) as (es1 & Ht1 & Hs1).
  destruct (throttle_invariant this "/graphql" sent [("dataType", VStr DATA_TYPE_JSON)]
              (S n) w) as (_ & _ & (es2 & Ht2 & He2) & _).
  unfold _wrapRequest in Ht. cbn [or_empty options] in Ht.
  rewrite Ht in Ht1, Ht2.
  apply app_inv_head in Ht1. apply app_inv_head in Ht2. subst es1 es2.
  apply Forall_app in Hs1. destruct Hs1 as [_ Hs1].
  apply Forall_app in He2. destruct He2 as [_ He2].
  inversion Hs1 as [|? ? _ Hs]; subst. inversion He2 as [|? ? _ He]; subst.
  clear -Hs He. induction Hs as [|e rest Hse _ IH]; [constructor|].
  inversion He as [|? ? Hee He']; subst.
  constructor; [|exact (IH He')].
  split; [exact Hse|]. destruct e; try exact I. exact Hee.
Qed.

(** A response below 300 to such a request resolves it to the parsed
    body. *)
Lemma requestGraphQL_JSON_data (n : nat) (query variables : value) (w : World)
    (r : Response) (data : value) :
  graphQLUploadSchemaIsValid (operation query variables) = true ->
  fst (limiter w (acquired w)) = None ->
  network w (calls w) = Respond r ->
  status r < 300 ->
  json r = Some data ->
  fst (requestGraphQL JSON_stringify isFile graphQLUploadSchemaIsValid this (S n)
         query variables (Some [("dataType", VStr DATA_TYPE_JSON)]) w)
  = Resolved {| gql_statusCode := VNum (Number.of_Z (status r));
                gql_data := data;
                gql_errors := VUndefined |}.
Proof.
  intros Hvalid Hlim Hnet Hst Hjson.
  rewrite requestGraphQL_unfold, Hvalid. cbn [negb]. unfold bind at 1.
  rewrite (wrapRequest_json this "/graphql" _ (Some [("dataType", VStr DATA_TYPE_JSON)])
             n w r data Hlim Hnet Hst eq_refl Hjson).
  reflexivity.
Qed.

(** X14. What the two Etch packet operations send.  [createEtchPacket]
    posts the operation whose query is the caller's [mutation] when that is
    truthy and the generated mutation otherwise, [getEtchPacket] the
    operation whose query is the generated query, each with the caller's
    variables: after the pass through the limiter the first physical call
    goes to [/graphql] with the options that [requestGraphQL] builds from
    that operation, whose method is [POST] and whose body, when the
    variables hold no file, is the JSON text of [{ query, variables }];
    every later call is that call again and nothing is printed, since both
    ask for JSON; and a response below 300 resolves them to
    [{ statusCode, data }] with the parsed body as [data]. *)
Theorem etch_operations_post_to_graphql (n : nat) (variables responseQuery mutation : value)
    (w : World) :
  let sent query :=
    _addDefaultHeaders this
      (graphQLOptions JSON_stringify
         (JSON_stringify (fst (extractFiles (operation query variables) "" isFile)))
         (snd (extractFiles (operation query variables) "" isFile))) in
  let posts query (after : World) :=
    exists rest,
      trace after
      = (trace w
         ++ admission this (snd (limiter w (acquired w)))
         ++ Fetch (address this "/graphql") (sent query) :: rest)%list
      /\ Forall (fun e =>
                   silent e
                   /\ match e with
                      | Fetch u init => u = address this "/graphql" /\ init = sent query
                      | _ => True
                      end) rest in
  let created :=
    if truthy mutation then mutation
    else generateCreateEtchPacketMutation responseQuery in
  let fetched := generateEtchPacketQuery responseQuery in
  let create :=
    createEtchPacket JSON_stringify isFile graphQLUploadSchemaIsValid
      generateCreateEtchPacketMutation this (S n) variables responseQuery mutation w in
  let get :=
    getEtchPacket JSON_stringify isFile graphQLUploadSchemaIsValid
      generateEtchPacketQuery this (S n) variables responseQuery w in
  (graphQLUploadSchemaIsValid (operation created variables) = true ->
     posts created (snd create))
  /\ (graphQLUploadSchemaIsValid (operation fetched variables) = true ->
      posts fetched (snd get))
  /\ (forall query,
        method (sent query) = "POST"
        /\ (snd (extractFiles (operation query variables) "" isFile) = [] ->
            body (sent query)
            = TextBody (JSON_stringify (operation query variables))))
  /\ (forall r data,
        fst (limiter w (acquired w)) = None ->
        network w (calls w) = Respond r ->
        status r < 300 ->
        json r = Some data ->
        (graphQLUploadSchemaIsValid (operation created variables) = true ->
           fst create = Resolved {| gql_statusCode := VNum (Number.of_Z (status r));
                                    gql_data := data;
                                    gql_errors := VUndefined |})
        /\ (graphQLUploadSchemaIsValid (operation fetched variables) = true ->
            fst get = Resolved {| gql_statusCode := VNum (Number.of_Z (status r));
                                  gql_data := data;
                                  gql_errors := VUndefined |})).
Proof.
  cbv zeta. unfold createEtchPacket, getEtchPacket.
  split; [intros Hvalid; exact (requestGraphQL_JSON_posts n _ variables w Hvalid)|].
  split; [intros Hvalid; exact (requestGraphQL_JSON_posts n _ variables w Hvalid)|].
  split.
  - intros query. split.
    + unfold _addDefaultHeaders, _addHeaders. cbn [method].
      apply graphQLOptions_method.
    + intros Hnone. unfold _addDefaultHeaders, _addHeaders. cbn [body].
      rewrite Hnone.
      rewrite (extractFiles_no_files isFile (operation query variables) "" Hnone).
      reflexivity.
  - intros r data Hlim Hnet Hst Hjson. split; intros Hvalid;
      exact (requestGraphQL_JSON_data n _ variables w r data Hvalid Hlim Hnet Hst Hjson).
Qed.


End Etch.

Lemma etch_operations_post_to_graphql_witness :
  fst (createEtchPacket Sample.stringify Validation.isFile
         Validation.graphQLUploadSchemaIsValid (fun _ => VStr "mutation CreateEtchPacket")
         Sample.client 1 Sample.withoutFile VUndefined VUndefined
         (Sample.world [] Sample.signed))
  = Resolved {| gql_statusCode := VNum (Number.of_Z 200);
                gql_data :=
                  VObj [("data",
                         VObj [("generateEtchSignURL",
                                VStr "https://app.useanvil.com/sign")])];
                gql_errors := VUndefined |}
  /\ exists rest,
       trace (snd (getEtchPacket Sample.stringify Validation.isFile
                     Validation.graphQLUploadSchemaIsValid (fun _ => VStr "query EtchPacket")
                     Sample.client 1 Sample.withoutFile VUndefined
                     (Sample.world [] Sample.signed)))
       = Acquire
         :: Fetch "https://app.useanvil.com/graphql"
              {| method := "POST";
                 headers := Some [("Content-Type", VStr "application/json");
                                  ("User-Agent", VStr "Anvil API Client/2.0.0");
                                  ("Authorization", VStr "Basic YWJjMTIzOg==")];
                 body :=
                   TextBody (Sample.stringify
                               (VObj [("query", VStr "query EtchPacket");
                                      ("variables", Sample.withoutFile)]));
                 signal := None |}
         :: rest.
Proof.
  destruct (etch_operations_post_to_graphql Sample.stringify Validation.isFile
              Validation.graphQLUploadSchemaIsValid
              (fun _ => VStr "mutation CreateEtchPacket") (fun _ => VStr "query EtchPacket")
              Sample.client 0 Sample.withoutFile VUndefined VUndefined
              (Sample.world [] Sample.signed))
    as (_ & Hget & _ & Hdata).
  split.
  - exact (proj1 (Hdata Sample.signed _ eq_refl eq_refl ltac:(cbv; reflexivity) eq_refl)
             eq_refl).
  - destruct (Hget eq_refl) as (rest & Ht & _). exists rest. exact Ht.
Defined.

(** ** Uploads made by [prepareGraphQLFile] *)

Section PreparedUpload.

Variable JSON_stringify : value -> string.
Variable isFile : value -> bool.
Variable graphQLUploadSchemaIsValid : value -> bool.
Variable this : Anvil.

(** X16. An upload that [prepareGraphQLFile] makes from a path travels as
    the stream it opened.  For a query text and variables [{ key: upload }],
    [requestGraphQL] runs the executor on a multipart [POST] to [/graphql]
    whose form holds the operation with [null] in the place of the upload,
    the map [{ 1: ['variables.key'] }], and the part [1] with the stream as
    content and the [formDataAppendOptions] as options; the signal of the
    request is aborted by an error of that stream. *)
Theorem prepared_upload_is_sent_as_its_stream (fresh : nat) (path key text : string)
    (formDataAppendOptions : value) (clientOptions : option obj) (n : nat) :
  let upload := prepareGraphQLFile fresh (inl path) formDataAppendOptions in
  isFile upload = true ->
  isFile (VStr text) = false ->
  (forall fields, isFile (VObj fields) = false) ->
  graphQLUploadSchemaIsValid (operation (VStr text) (VObj [(key, upload)])) = true ->
  requestGraphQL JSON_stringify isFile graphQLUploadSchemaIsValid this n
    (VStr text) (VObj [(key, upload)]) clientOptions
  = (r <- _wrapRequest this n
            (_request this "/graphql"
               {| method := "POST";
                  headers := Some [];
                  body :=
                    FormBody
                      [{| part_name := "operations";
                          part_content :=
                            VStr (JSON_stringify
                                    (VObj [("query", VStr text);
                                           ("variables", VObj [(key, VNull)])]));
                          part_options := VUndefined |};
                       {| part_name := "map";
                          part_content :=
                            VStr (JSON_stringify
                                    (VObj [("1", VArr [VStr ("variables." ++ key)])]));
                          part_options := VUndefined |};
                       {| part_name := "1";
                          part_content := VFile (ReadStream fresh path);
                          part_options := formDataAppendOptions |}];
                  signal := Some {| abort_on_error_of := [fresh] |} |})
            clientOptions ;;
     ret {| gql_statusCode := wrapped_get r "statusCode";
            gql_data := wrapped_get r "data";
            gql_errors := wrapped_get r "errors" |}).
Proof.
  intros upload Hup Hstr Hobj Hvalid.
  rewrite requestGraphQL_unfold, Hvalid. cbn [negb].
  unfold operation, upload, prepareGraphQLFile in *.
  cbn [extractFiles]. rewrite !Hobj.
  cbn [properties prefix_of String.eqb Ascii.eqb Bool.eqb andb String.append
       extractFiles fst snd].
  rewrite Hstr, Hobj.
  cbn [properties addFiles addFile fold_left fst snd String.append extractFiles].
  rewrite Hup.
  cbn [properties addFiles addFile fold_left fst snd].
  reflexivity.
Qed.

End PreparedUpload.

Lemma prepared_upload_is_sent_as_its_stream_witness :
  exists es,
    trace (snd (requestGraphQL Sample.stringify Validation.isFile
                  Validation.graphQLUploadSchemaIsValid Sample.client 1
                  (VStr "mutation")
                  (VObj [("file", prepareGraphQLFile 7 (inl "test/assets/dummy.pdf")
                                    (VObj [("filename", VStr "dummy.pdf")]))])
                  (Some [("dataType", VStr "json")])
                  (Sample.world [] Sample.ok)))
    = [Acquire;
       Fetch "https://app.useanvil.com/graphql"
         {| method := "POST";
            headers := Some [("User-Agent", VStr "Anvil API Client/2.0.0");
                             ("Authorization", VStr "Basic YWJjMTIzOg==")];
            body := es;
            signal := Some {| abort_on_error_of := [7%nat] |} |}].
Proof.
  rewrite (prepared_upload_is_sent_as_its_stream Sample.stringify Validation.isFile
             Validation.graphQLUploadSchemaIsValid Sample.client 7
             "test/assets/dummy.pdf" "file" "mutation"
             (VObj [("filename", VStr "dummy.pdf")])
             (Some [("dataType", VStr "json")]) 1
             eq_refl eq_refl (fun _ => eq_refl) eq_refl).
  eexists. vm_compute. reflexivity.
Defined.

(** ** The earlier client *)

Section LegacyClient.

Variable JSON_stringify : value -> string.
Variable this : Anvil.

Lemma legacy_request_run (url : string) (options : RequestInit) (w : World) :
  Legacy.request this url options w =
  (match network w (calls w) with
   | Respond r => Resolved r
   | NetworkError e => Rejected e
   end,
   emit [Fetch (address this url) options] w).
Proof.
  unfold Legacy.request, fetch, address, Legacy.url, _url.
  destruct (network w (calls w)); reflexivity.
Qed.

Lemma legacy_requestREST_throttled (n : nat) (url : string) (options : RequestInit)
    (clientOptions : option obj) (w : World) (r : Response) :
  fst (limiter w (acquired w)) = None ->
  network w (calls w) = Respond r ->
  status r = 429 ->
  Legacy.requestREST this (S n) url options clientOptions w
  = Legacy.requestREST this n url options clientOptions
      (emit (admission this (snd (limiter w (acquired w)))
             ++ [Fetch (address this url) options;
                 Sleep (getRetryMS (headers_get (response_headers r) "retry-after"))]) w).
Proof.
  intros Hlim Hnet Hst. unfold Legacy.requestREST.
  rewrite legacy_throttle_step, Hlim. unfold settle.
  unfold Legacy.attempt at 1. unfold bind at 1.
  rewrite legacy_request_run, calls_admission. cbn [network emit].
  rewrite Hnet, Hst. cbn [Z.eqb Pos.eqb].
  unfold bind at 1. unfold sleep at 1.
  rewrite !emit_emit. reflexivity.
Qed.

Lemma legacy_requestREST_success (n : nat) (url : string) (options : RequestInit)
    (clientOptions : option obj) (w : World) (r : Response) :
  fst (limiter w (acquired w)) = None ->
  network w (calls w) = Respond r ->
  status r < 300 ->
  Legacy.requestREST this (S n) url options clientOptions w
  = (Resolved [("statusCode", VNum (Number.of_Z (status r)));
               ("data", if is_string (Obj.get (or_empty clientOptions) "dataType") "stream"
                        then stream r else buffer r)],
     emit (admission this (snd (limiter w (acquired w)))
           ++ [Fetch (address this url) options]) w).
Proof.
  intros Hlim Hnet Hst. unfold Legacy.requestREST.
  rewrite legacy_throttle_step, Hlim. unfold settle.
  unfold Legacy.attempt at 1. unfold bind at 1.
  rewrite legacy_request_run, calls_admission. cbn [network emit].
  rewrite Hnet.
  destruct (Z.eqb_spec (status r) 429) as [E|_]; [lia|].
  apply Z.leb_gt in Hst. rewrite Hst, emit_emit.
  destruct (is_string (Obj.get (or_empty clientOptions) "dataType") "stream");
    reflexivity.
Qed.

(** X17. The earlier [requestREST] retries a 429 as the current executor
    does: when the transport answers 429 and then a status below 300, it
    makes two physical calls with the options as the caller gave them, each
    after a token acquisition, waits the delay of [getRetryMS] in between,
    and resolves to [{ statusCode, data }] of the second response, where
    [data] is the body stream for the [dataType] ['stream'] and the buffer
    for any other. *)
Theorem legacy_requestREST_retries_on_429 (n : nat) (url : string) (options : RequestInit)
    (clientOptions : option obj) (w : World) (r1 r2 : Response) :
  fst (limiter w (acquired w)) = None ->
  fst (limiter w (S (acquired w))) = None ->
  network w (calls w) = Respond r1 ->
  status r1 = 429 ->
  network w (S (calls w)) = Respond r2 ->
  status r2 < 300 ->
  Legacy.requestREST this (S (S n)) url options clientOptions w
  = (Resolved [("statusCode", VNum (Number.of_Z (status r2)));
               ("data", if is_string (Obj.get (or_empty clientOptions) "dataType") "stream"
                        then stream r2 else buffer r2)],
     emit (admission this (snd (limiter w (acquired w)))
           ++ [Fetch (address this url) options;
               Sleep (getRetryMS (headers_get (response_headers r1) "retry-after"))]
           ++ admission this (snd (limiter w (S (acquired w))))
           ++ [Fetch (address this url) options]) w).
Proof.
  intros Hl1 Hl2 Hn1 Hs1 Hn2 Hs2.
  rewrite (legacy_requestREST_throttled (S n) url options clientOptions w r1 Hl1 Hn1 Hs1).
  set (w1 := emit (admission this (snd (limiter w (acquired w)))
                   ++ [Fetch (address this url) options;
                       Sleep (getRetryMS (headers_get (response_headers r1)
                                            "retry-after"))]) w).
  assert (Hc : calls w1 = S (calls w)).
  { unfold w1. rewrite <- emit_emit, calls_emit, calls_admission. cbn. lia. }
  assert (Ha : acquired w1 = S (acquired w)).
  { unfold w1. rewrite <- emit_emit, acquired_emit, acquired_admission. cbn. lia. }
  rewrite (legacy_requestREST_success n url options clientOptions w1 r2).
  - rewrite Ha. cbn [limiter emit w1]. unfold w1. rewrite emit_emit.
    rewrite <- !app_assoc. reflexivity.
  - rewrite Ha. exact Hl2.
  - rewrite Hc. exact Hn2.
  - exact Hs2.
Qed.

(** X18. The earlier [fillPDF] makes one [POST] to [/api/v1/fill/<id>.pdf]
    whose headers are [Content-Type] and the [Authorization] of the client
    and nothing else, with the JSON text of the payload as body; it does not
    check the [dataType]: any value other than ['stream'] resolves to the
    buffer of a response below 300. *)
Theorem legacy_fillPDF_sends_authorization (n : nat) (pdfTemplateID : string)
    (payload : value) (clientOptions : option obj) (w : World) (r : Response) :
  fst (limiter w (acquired w)) = None ->
  network w (calls w) = Respond r ->
  status r < 300 ->
  Legacy.fillPDF JSON_stringify this (S n) pdfTemplateID payload clientOptions w
  = (Resolved [("statusCode", VNum (Number.of_Z (status r)));
               ("data", if is_string (Obj.get (or_empty clientOptions) "dataType") "stream"
                        then stream r else buffer r)],
     emit (admission this (snd (limiter w (acquired w)))
           ++ [Fetch (address this ("/api/v1/fill/" ++ pdfTemplateID ++ ".pdf"))
                 {| method := "POST";
                    headers := Some [("Content-Type", VStr "application/json");
                                     ("Authorization", VStr (authHeader this))];
                    body := TextBody (JSON_stringify payload);
                    signal := None |}]) w).
Proof.
  intros Hlim Hnet Hst. unfold Legacy.fillPDF.
  apply legacy_requestREST_success; assumption.
Qed.

End LegacyClient.

Lemma legacy_requestREST_retries_on_429_witness :
  Legacy.requestREST Sample.client 2 "/test" Sample.post None
    (Sample.world [Sample.tooManyRequests] Sample.ok)
  = (Resolved [("statusCode", VNum (Number.of_Z 200));
               ("data", VStr "This would be PDF data...")],
     emit [Acquire; Fetch "https://app.useanvil.com/test" Sample.post;
           Sleep (Number.of_Z 250);
           Acquire; Fetch "https://app.useanvil.com/test" Sample.post]
       (Sample.world [Sample.tooManyRequests] Sample.ok)).
Proof.
  rewrite (legacy_requestREST_retries_on_429 Sample.client 0 "/test" Sample.post None
             (Sample.world [Sample.tooManyRequests] Sample.ok)
             Sample.tooManyRequests Sample.ok
             eq_refl eq_refl eq_refl eq_refl eq_refl ltac:(cbv; reflexivity)).
  reflexivity.
Defined.

Lemma legacy_fillPDF_sends_authorization_witness :
  Legacy.fillPDF Sample.stringify Sample.client 1 "cast123" (VObj [])
    (Some [("dataType", VStr "json")]) (Sample.world [] Sample.ok)
  = (Resolved [("statusCode", VNum (Number.of_Z 200));
               ("data", VStr "This would be PDF data...")],
     emit [Acquire;
           Fetch "https://app.useanvil.com/api/v1/fill/cast123.pdf"
             {| method := "POST";
                headers := Some [("Content-Type", VStr "application/json");
                                 ("Authorization", VStr "Basic YWJjMTIzOg==")];
                body := TextBody (Sample.stringify (VObj []));
                signal := None |}]
       (Sample.world [] Sample.ok)).
Proof.
  rewrite (legacy_fillPDF_sends_authorization Sample.stringify Sample.client 0 "cast123"
             (VObj []) (Some [("dataType", VStr "json")])
             (Sample.world [] Sample.ok) Sample.ok
             eq_refl eq_refl ltac:(cbv; reflexivity)).
  reflexivity.
Defined.

(** ** Base64 and the credential in the header *)

Lemma digit_sextet (n : N) :
  (n < 64)%N ->
  Base64.sextet (Base64.digit n) = Some n
  /\ Ascii.eqb (Base64.digit n) "=" = false.
Proof.
  intros Hn.
  assert (Hall : forallb
                   (fun k =>
                      match Base64.sextet (Base64.digit k) with
                      | Some m => N.eqb m k
                      | None => false
                      end && negb (Ascii.eqb (Base64.digit k) "="))
                   (map N.of_nat (seq 0 64)) = true) by (vm_compute; reflexivity).
  rewrite forallb_forall in Hall. specialize (Hall n).
  assert (Hin : In n (map N.of_nat (seq 0 64))).
  { rewrite <- (Nnat.N2Nat.id n). apply in_map, in_seq. lia. }
  apply Hall in Hin. apply andb_prop in Hin. destruct Hin as [Hs He].
  split.
  - destruct (Base64.sextet (Base64.digit n)) as [m|]; [|discriminate Hs].
    apply N.eqb_eq in Hs. subst m. reflexivity.
  - apply negb_true_iff, He.
Qed.

Lemma sextets_digit (n : N) (rest : string) :
  (n < 64)%N ->
  Base64.sextets (String (Base64.digit n) rest) = n :: Base64.sextets rest.
Proof.
  intros Hn. destruct (digit_sextet n Hn) as [Hs He].
  cbn [Base64.sextets]. rewrite He, Hs. reflexivity.
Qed.

Lemma byte_of_to_N (b : Byte.byte) : Base64.byte_of (Byte.to_N b) = b.
Proof.
  unfold Base64.byte_of. pose proof (Byte.to_N_bounded b) as Hb.
  rewrite N.mod_small by lia. rewrite Byte.of_to_N. reflexivity.
Qed.

Lemma base64_group (x y z : N) :
  (x < 256)%N -> (y < 256)%N -> (z < 256)%N ->
  (x / 4 < 64
   /\ x mod 4 * 16 + y / 16 < 64
   /\ y mod 16 * 4 + z / 64 < 64
   /\ z mod 64 < 64
   /\ x / 4 * 4 + (x mod 4 * 16 + y / 16) / 16 = x
   /\ (x mod 4 * 16 + y / 16) mod 16 * 16 + (y mod 16 * 4 + z / 64) / 4 = y
   /\ (y mod 16 * 4 + z / 64) mod 4 * 64 + z mod 64 = z)%N.
Proof.
  intros Hx Hy Hz. repeat split; zify; Z.to_euclidean_division_equations; lia.
Qed.

Lemma base64_round_trip_bounded (n : nat) : forall bytes : list Byte.byte,
  (List.length bytes <= n)%nat -> Base64.decode (Base64.encode bytes) = bytes.
Proof.
  induction n as [|n IH]; intros bytes Hlen.
  - destruct bytes; [reflexivity|cbn in Hlen; lia].
  - destruct bytes as [|a [|b [|c rest]]].
    + reflexivity.
    + pose proof (Byte.to_N_bounded a) as Ha.
      destruct (base64_group (Byte.to_N a) 0 0) as (H1 & H2 & _ & _ & E1 & _);
        try lia.
      change (0 / 16)%N with 0%N in *. rewrite N.add_0_r in *.
      unfold Base64.decode. cbn [Base64.encode Base64.str fold_right].
      rewrite !sextets_digit by assumption.
      cbn [Base64.sextets Ascii.eqb Bool.eqb andb Base64.bytes_of_sextets].
      rewrite E1, byte_of_to_N. reflexivity.
    + pose proof (Byte.to_N_bounded a) as Ha. pose proof (Byte.to_N_bounded b) as Hb.
      destruct (base64_group (Byte.to_N a) (Byte.to_N b) 0)
        as (H1 & H2 & H3 & _ & E1 & E2 & _); try lia.
      change (0 / 64)%N with 0%N in *. rewrite N.add_0_r in *.
      unfold Base64.decode. cbn [Base64.encode Base64.str fold_right].
      rewrite !sextets_digit by assumption.
      cbn [Base64.sextets Ascii.eqb Bool.eqb andb Base64.bytes_of_sextets].
      rewrite E1, E2, !byte_of_to_N. reflexivity.
    + pose proof (Byte.to_N_bounded a) as Ha. pose proof (Byte.to_N_bounded b) as Hb.
      pose proof (Byte.to_N_bounded c) as Hc.
      destruct (base64_group (Byte.to_N a) (Byte.to_N b) (Byte.to_N c))
        as (H1 & H2 & H3 & H4 & E1 & E2 & E3); try lia.
      unfold Base64.decode. cbn [Base64.encode Base64.str fold_right String.append].
      rewrite !sextets_digit by assumption.
      cbn [Base64.bytes_of_sextets app].
      rewrite E1, E2, E3, !byte_of_to_N.
      fold (Base64.decode (Base64.encode rest)).
      rewrite IH by (cbn in Hlen; lia). reflexivity.
Qed.

Lemma append_inj_l (s1 s2 t : string) : (s1 ++ t = s2 ++ t)%string -> s1 = s2.
Proof.
  intros H. apply (f_equal list_ascii_of_string) in H.
  rewrite <- (string_of_list_ascii_of_string s1), <- (string_of_list_ascii_of_string s2).
  f_equal.
  assert (Happ : forall a b, list_ascii_of_string (a ++ b)
                             = (list_ascii_of_string a ++ list_ascii_of_string b)%list).
  { induction a as [|ch a IHa]; intros b; cbn; [reflexivity|]. rewrite IHa. reflexivity. }
  rewrite !Happ in H. exact (app_inv_tail _ _ _ H).
Qed.

Lemma Buffer_from_ascii_inj (s1 s2 : string) :
  Buffer_from_ascii s1 = Buffer_from_ascii s2 -> s1 = s2.
Proof.
  unfold Buffer_from_ascii. intros H.
  rewrite <- (string_of_list_byte_of_string s1), <- (string_of_list_byte_of_string s2), H.
  reflexivity.
Qed.

(** X19. Decoding what was encoded gives the bytes back:
    [Buffer.from(buffer.toString('base64'), 'base64')] is the buffer, for
    every length, padded or not. *)
Theorem base64_round_trip (bytes : list Byte.byte) :
  Base64.decode (Base64.encode bytes) = bytes.
Proof. apply (base64_round_trip_bounded (List.length bytes)). lia. Qed.

Lemma encode_inj (b1 b2 : list Byte.byte) :
  Base64.encode b1 = Base64.encode b2 -> b1 = b2.
Proof.
  intros H. apply (f_equal Base64.decode) in H.
  rewrite !(base64_round_trip_bounded (List.length _) _ (le_n _)) in H. exact H.
Qed.

(** X20. The [Authorization] header determines the credential.  Two clients
    made by the constructor have the same header only when their options
    give the same kind of credential, access token or API key, with the
    same text (texts of one-byte characters, as the strings of this
    development are). *)
Theorem authHeader_determines_the_credential (description version : string)
    (options1 options2 : ClientOptions) (client1 client2 : Anvil) :
  constructor description version (Some options1) = inr client1 ->
  constructor description version (Some options2) = inr client2 ->
  authHeader client1 = authHeader client2 ->
  credential options1 = credential options2.
Proof.
  intros H1 H2 Heq.
  destruct (constructor_authHeader description version options1 client1 H1) as (A1 & _).
  destruct (constructor_authHeader description version options2 client2 H2) as (A2 & _).
  rewrite A1, A2 in Heq. unfold credential.
  destruct (present (accessToken options1)), (present (accessToken options2)).
  - cbn [String.append] in Heq. injection Heq as Heq.
    apply encode_inj, Buffer_from_ascii_inj in Heq. rewrite Heq. reflexivity.
  - cbn [String.append] in Heq. discriminate Heq.
  - cbn [String.append] in Heq. discriminate Heq.
  - cbn [String.append] in Heq. injection Heq as Heq.
    apply encode_inj, Buffer_from_ascii_inj, append_inj_l in Heq.
    rewrite Heq. reflexivity.
Qed.

Lemma authHeader_determines_the_credential_witness :
  credential {| apiKey := Some "abc123"; accessToken := None;
                baseURL := None; userAgent := None |}
  = credential {| apiKey := Some "abc123"; accessToken := Some "";
                  baseURL := Some "http://localhost:3000"; userAgent := None |}.
Proof.
  apply (authHeader_determines_the_credential "Anvil API Client" "2.0.0"
           {| apiKey := Some "abc123"; accessToken := None;
              baseURL := None; userAgent := None |}
           {| apiKey := Some "abc123"; accessToken := Some "";
              baseURL := Some "http://localhost:3000"; userAgent := None |}
           Sample.client
           {| options_apiKey := Some "abc123";
              options_accessToken := Some "";
              options_baseURL := "http://localhost:3000";
              options_userAgent := "Anvil API Client/2.0.0";
              authHeader := "Basic YWJjMTIzOg==";
              requestLimit := Number.of_Z 200;
              requestLimitMS := Number.of_Z 5000 |});
    reflexivity.
Defined.

(** X21. What [_prepareGraphQLBase64] can return.  Whenever it returns, the
    value is the plain object [{ data, filename, mimetype }] with the text
    of [data] as it was given: [filename] and [mimetype] are truthy,
    [bufferize] is not, the other options are dropped, and nothing is
    decoded. *)
Theorem prepareGraphQLBase64_returns
    (static_method : string -> list Byte.byte -> obj -> exn + value)
    (data : string) (options : option obj) (v : value) :
  _prepareGraphQLBase64 static_method data options = inr v ->
  v = VObj [("data", VStr data);
            ("filename", Obj.get (or_empty options) "filename");
            ("mimetype", Obj.get (or_empty options) "mimetype")]
  /\ truthy (Obj.get (or_empty options) "filename") = true
  /\ truthy (Obj.get (or_empty options) "mimetype") = true
  /\ truthy (Obj.get (or_empty options) "bufferize") = false.
Proof.
  unfold _prepareGraphQLBase64.
  destruct (truthy (Obj.get (or_empty options) "filename")); cbn [negb];
    [|discriminate].
  destruct (truthy (Obj.get (or_empty options) "mimetype")); cbn [negb];
    [|discriminate].
  destruct (truthy (Obj.get (or_empty options) "bufferize")).
  - cbn. discriminate.
  - intros H. injection H as <-. repeat split.
Qed.

Lemma prepareGraphQLBase64_returns_witness :
  VObj [("data", VStr "QmFzZTY0IERhdGE="); ("filename", VStr "omgwow.pdf");
        ("mimetype", VStr "application/pdf")]
  = VObj [("data", VStr "QmFzZTY0IERhdGE=");
          ("filename",
           Obj.get (or_empty (Some [("filename", VStr "omgwow.pdf");
                                    ("mimetype", VStr "application/pdf");
                                    ("encoding", VStr "7bit")])) "filename");
          ("mimetype",
           Obj.get (or_empty (Some [("filename", VStr "omgwow.pdf");
                                    ("mimetype", VStr "application/pdf");
                                    ("encoding", VStr "7bit")])) "mimetype")]
  /\ truthy (Obj.get (or_empty (Some [("filename", VStr "omgwow.pdf");
                                      ("mimetype", VStr "application/pdf");
                                      ("encoding", VStr "7bit")])) "filename") = true
  /\ truthy (Obj.get (or_empty (Some [("filename", VStr "omgwow.pdf");
                                      ("mimetype", VStr "application/pdf");
                                      ("encoding", VStr "7bit")])) "mimetype") = true
  /\ truthy (Obj.get (or_empty (Some [("filename", VStr "omgwow.pdf");
                                      ("mimetype", VStr "application/pdf");
                                      ("encoding", VStr "7bit")])) "bufferize") = false.
Proof.
  exact (prepareGraphQLBase64_returns
           (fun _ bytes _ => inr (VFile (Buffer 0 bytes))) "QmFzZTY0IERhdGE="
           (Some [("filename", VStr "omgwow.pdf"); ("mimetype", VStr "application/pdf");
                  ("encoding", VStr "7bit")])
           (VObj [("data", VStr "QmFzZTY0IERhdGE="); ("filename", VStr "omgwow.pdf");
                  ("mimetype", VStr "application/pdf")])
           eq_refl).
Defined.

(** ** The constructor *)

(** X22. The constructor makes a client exactly when it is given options
    with a non-empty [apiKey] or a non-empty [accessToken]: without options
    it throws ['options are required'], with neither credential (missing or
    the empty string) ['apiKey or accessToken required'].  The client it
    makes takes [baseURL] and [userAgent] from the options and falls back to
    the defaults, and its limiter allows 200 requests in 5000 ms. *)
Theorem constructor_requires_a_credential (description version : string)
    (options : option ClientOptions) :
  (options = None ->
     constructor description version options = inl (Error "options are required"))
  /\ (forall given, options = Some given ->
        present (apiKey given) || present (accessToken given) = false ->
        constructor description version options
        = inl (Error "apiKey or accessToken required"))
  /\ (forall given, options = Some given ->
        present (apiKey given) || present (accessToken given) = true ->
        exists this,
          constructor description version options = inr this
          /\ options_baseURL this = or_default (baseURL given) "https://app.useanvil.com"
          /\ options_userAgent this
             = or_default (userAgent given) (description ++ "/" ++ version)
          /\ requestLimit this = Number.of_Z 200
          /\ requestLimitMS this = Number.of_Z 5000)
  /\ ((exists this, constructor description version options = inr this) <->
      exists given, options = Some given
                    /\ present (apiKey given) || present (accessToken given) = true).
Proof.
  split; [intros ->; reflexivity|].
  split; [intros given -> H; unfold constructor; rewrite H; reflexivity|].
  split.
  - intros given -> H. unfold constructor. rewrite H. cbn [negb].
    eexists. split; [reflexivity|]. repeat split.
  - split.
    + intros [this H]. destruct options as [given|]; [|discriminate H].
      exists given. split; [reflexivity|].
      unfold constructor in H.
      destruct (present (apiKey given) || present (accessToken given));
        [reflexivity|discriminate H].
    + intros (given & -> & H). unfold constructor. rewrite H. cbn [negb].
      eexists. reflexivity.
Qed.

(** ** What the extraction leaves in the operation *)

Section Separation.

Variable isFile : value -> bool.
Variable extract : value -> string -> value * FilesMap.
Variable prefix : string.

Lemma children_clones (items : list value) : forall (i : nat) (files : FilesMap),
  Forall2 (fun child clone => exists p, clone = fst (extract child p))
    items (fst (children extract prefix items i files)).
Proof.
  induction items as [|x items IH]; intros i files; cbn; [constructor|].
  specialize (IH (S i) (addFiles files (snd (extract x (prefix ++ string_of_nat i))))).
  destruct (children extract prefix items (S i) _) as [clones files'].
  cbn in *. constructor; [eexists; reflexivity|exact IH].
Qed.

Lemma properties_clones (fields : obj) : forall files : FilesMap,
  Forall2 (fun kv kc => exists p, snd kc = fst (extract (snd kv) p))
    fields (fst (properties extract prefix fields files)).
Proof.
  induction fields as [|[k x] fields IH]; intros files; cbn; [constructor|].
  specialize (IH (addFiles files (snd (extract x (prefix ++ k))))).
  destruct (properties extract prefix fields _) as [clones files'].
  cbn in *. constructor; [eexists; reflexivity|exact IH].
Qed.

Lemma addFiles_keeps (Q : value -> Prop) (found : FilesMap) : forall files : FilesMap,
  Forall (fun e => Q (fst e)) files ->
  Forall (fun e => Q (fst e)) found ->
  Forall (fun e => Q (fst e)) (addFiles files found).
Proof.
  unfold addFiles.
  induction found as [|[f ps] found IH]; intros files Hfiles Hfound; cbn;
    [exact Hfiles|].
  inversion Hfound as [|? ? Hf Hrest]; subst.
  apply IH; [|exact Hrest]. apply addFile_keeps; assumption.
Qed.

Lemma children_keep (Q : value -> Prop) (items : list value) :
  Forall (fun x => forall p, Forall (fun e => Q (fst e)) (snd (extract x p))) items ->
  forall (i : nat) (files : FilesMap),
    Forall (fun e => Q (fst e)) files ->
    Forall (fun e => Q (fst e)) (snd (children extract prefix items i files)).
Proof.
  induction 1 as [|x items Hx _ IH]; intros i files Hfiles; cbn; [exact Hfiles|].
  specialize (IH (S i) (addFiles files (snd (extract x (prefix ++ string_of_nat i))))).
  destruct (children extract prefix items (S i) _) as [clones files'].
  cbn in *. apply IH, addFiles_keeps; [exact Hfiles|apply Hx].
Qed.

Lemma properties_keep (Q : value -> Prop) (fields : obj) :
  Forall (fun kv => forall p, Forall (fun e => Q (fst e)) (snd (extract (snd kv) p)))
    fields ->
  forall files : FilesMap,
    Forall (fun e => Q (fst e)) files ->
    Forall (fun e => Q (fst e)) (snd (properties extract prefix fields files)).
Proof.
  induction 1 as [|[k x] fields Hx _ IH]; intros files Hfiles; cbn; [exact Hfiles|].
  specialize (IH (addFiles files (snd (extract x (prefix ++ k))))).
  destruct (properties extract prefix fields _) as [clones files'].
  cbn in *. apply IH, addFiles_keeps; [exact Hfiles|apply Hx].
Qed.

End Separation.

Lemma Forall2_In_r {A B} (R : A -> B -> Prop) (l : list A) (l' : list B) (y : B) :
  Forall2 R l l' -> In y l' -> exists x, In x l /\ R x y.
Proof.
  induction 1 as [|a b l l' Hab _ IH]; intros Hin; [contradiction|].
  destruct Hin as [<-|Hin].
  - exists a. split; [left; reflexivity|exact Hab].
  - destruct (IH Hin) as (x & Hx & HR). exists x. split; [right; exact Hx|exact HR].
Qed.

Section Extraction.

Variable isFile : value -> bool.
Hypothesis arrays_are_no_files : forall items, isFile (VArr items) = false.
Hypothesis objects_are_no_files : forall fields, isFile (VObj fields) = false.
Hypothesis null_is_no_file : isFile VNull = false.

Lemma clone_has_no_file (v : value) :
  forall path x, within x (fst (extractFiles v path isFile)) -> isFile x = false.
Proof.
  induction v as [v Hv|items IH|fields IH] using value_induction; intros path x Hx.
  - destruct v; cbn in Hx; try contradiction;
      match type of Hx with
      | within _ (fst (if isFile ?u then _ else _)) =>
          destruct (isFile u) eqn:E; cbn in Hx; inversion Hx; subst; congruence
      end.
  - cbn in Hx. rewrite arrays_are_no_files in Hx.
    set (extract := fun child path' => extractFiles child path' isFile) in *.
    pose proof (children_clones extract (prefix_of path) items 0%nat []) as Hc.
    destruct (children extract (prefix_of path) items 0 []) as [clones files].
    cbn in Hx, Hc. inversion Hx as [|? c Hin Hwithin|]; subst.
    + apply arrays_are_no_files.
    + destruct (Forall2_In_r _ _ _ _ Hc Hin) as (child & Hchild & p & ->).
      rewrite Forall_forall in IH. exact (IH child Hchild p x Hwithin).
  - cbn in Hx. rewrite objects_are_no_files in Hx.
    set (extract := fun child path' => extractFiles child path' isFile) in *.
    pose proof (properties_clones extract (prefix_of path) fields []) as Hc.
    destruct (properties extract (prefix_of path) fields []) as [clones files].
    cbn in Hx, Hc. inversion Hx as [| |? k c Hin Hwithin]; subst.
    + apply objects_are_no_files.
    + destruct (Forall2_In_r _ _ _ _ Hc Hin) as (kv & Hkv & p & Hp).
      cbn in Hp. subst c.
      rewrite Forall_forall in IH. exact (IH kv Hkv p x Hwithin).
Qed.

Lemma files_are_files (v : value) :
  forall path, Forall (fun e => isFile (fst e) = true) (snd (extractFiles v path isFile)).
Proof.
  induction v as [v Hv|items IH|fields IH] using value_induction; intros path.
  - destruct v; cbn; try contradiction;
      match goal with
      | |- Forall _ (snd (if isFile ?u then _ else _)) =>
          destruct (isFile u) eqn:E; cbn; repeat constructor; assumption
      end.
  - cbn. rewrite arrays_are_no_files.
    set (extract := fun child path' => extractFiles child path' isFile) in *.
    pose proof (children_keep extract (prefix_of path)
                  (fun f => isFile f = true) items IH 0%nat [] (Forall_nil _)) as Hk.
    destruct (children extract (prefix_of path) items 0 []) as [clones files].
    exact Hk.
  - cbn. rewrite objects_are_no_files.
    set (extract := fun child path' => extractFiles child path' isFile) in *.
    pose proof (properties_keep extract (prefix_of path)
                  (fun f => isFile f = true) fields IH [] (Forall_nil _)) as Hk.
    destruct (properties extract (prefix_of path) fields []) as [clones files].
    exact Hk.
Qed.

End Extraction.

Section GraphQLResults.

Variable JSON_stringify : value -> string.
Variable isFile : value -> bool.
Variable graphQLUploadSchemaIsValid : value -> bool.
Variable this : Anvil.

(** X23. The files leave the operation.  When arrays, plain objects and
    [null] are not files, no value inside the operation that
    [requestGraphQL] serializes is a file, and every key of the files map
    is one. *)
Theorem extraction_separates_files (query variables : value) :
  (forall items, isFile (VArr items) = false) ->
  (forall fields, isFile (VObj fields) = false) ->
  isFile VNull = false ->
  let extracted := extractFiles (operation query variables) "" isFile in
  (forall x, within x (fst extracted) -> isFile x = false)
  /\ Forall (fun entry => isFile (fst entry) = true) (snd extracted).
Proof.
  intros Harr Hobj Hnull. cbv zeta. split.
  - intros x Hx. exact (clone_has_no_file isFile Harr Hobj Hnull _ "" x Hx).
  - apply files_are_files; assumption.
Qed.

(** X24. The result of [requestGraphQL] for an operation that passes the
    validation.  A response below 300 read as JSON resolves to
    [{ statusCode, data }] with the parsed body as [data] and no [errors];
    a response of 300 or more, other than 429, whose body has truthy
    [errors] resolves to [{ statusCode, errors }] without [data].  The
    response object is not part of the result. *)
Theorem requestGraphQL_result (query variables : value) (clientOptions : option obj)
    (n : nat) (w : World) (r : Response) :
  graphQLUploadSchemaIsValid (operation query variables) = true ->
  fst (limiter w (acquired w)) = None ->
  network w (calls w) = Respond r ->
  let result :=
    fst (requestGraphQL JSON_stringify isFile graphQLUploadSchemaIsValid this (S n)
           query variables clientOptions w) in
  (forall data,
     status r < 300 ->
     Obj.get (or_empty clientOptions) "dataType" = VStr "json" ->
     json r = Some data ->
     result = Resolved {| gql_statusCode := VNum (Number.of_Z (status r));
                          gql_data := data;
                          gql_errors := VUndefined |})
  /\ (forall fields,
        300 <= status r ->
        status r <> 429 ->
        json r = Some (VObj fields) ->
        truthy (Obj.get fields "errors") = true ->
        result = Resolved {| gql_statusCode := VNum (Number.of_Z (status r));
                             gql_data := VUndefined;
                             gql_errors := Obj.get fields "errors" |}).
Proof.
  intros Hvalid Hlim Hnet. cbv zeta.
  rewrite requestGraphQL_unfold, Hvalid. cbn [negb]. split.
  - intros data Hst Hdt Hjson. unfold bind at 1.
    rewrite (wrapRequest_json this "/graphql" _ clientOptions n w r data Hlim Hnet Hst
               Hdt Hjson).
    reflexivity.
  - intros fields Hge Hne Hjson Herr. unfold bind at 1.
    rewrite (wrapRequest_failure this "/graphql" _ clientOptions n w r (VObj fields)
               Hlim Hnet Hge Hne Hjson eq_refl).
    unfold failure_of. rewrite Herr. reflexivity.
Qed.

End GraphQLResults.

Lemma extraction_separates_files_witness :
  (forall x,
     within x (fst (extractFiles (operation Sample.query Sample.withFile) ""
                      Validation.isFile)) ->
     Validation.isFile x = false)
  /\ Forall (fun entry => Validation.isFile (fst entry) = true)
       (snd (extractFiles (operation Sample.query Sample.withFile) ""
               Validation.isFile)).
Proof.
  exact (extraction_separates_files Validation.isFile Sample.query Sample.withFile
           (fun _ => eq_refl) (fun _ => eq_refl) eq_refl).
Defined.

Lemma requestGraphQL_result_witness :
  fst (requestGraphQL Sample.stringify Validation.isFile
         Validation.graphQLUploadSchemaIsValid Sample.client 1
         Sample.query Sample.withoutFile (Some [("dataType", VStr "json")])
         (Sample.world [] Sample.signed))
  = Resolved {| gql_statusCode := VNum (Number.of_Z 200);
                gql_data :=
                  VObj [("data",
                         VObj [("generateEtchSignURL",
                                VStr "https://app.useanvil.com/sign")])];
                gql_errors := VUndefined |}.
Proof.
  destruct (requestGraphQL_result Sample.stringify Validation.isFile
              Validation.graphQLUploadSchemaIsValid Sample.client
              Sample.query Sample.withoutFile (Some [("dataType", VStr "json")])
              0 (Sample.world [] Sample.signed) Sample.signed
              eq_refl eq_refl eq_refl) as [Hok _].
  exact (Hok _ ltac:(cbv; reflexivity) eq_refl eq_refl).
Defined.

(** ** The headers and the signal of a GraphQL request *)

Section GraphQLHeaders.

Variable JSON_stringify : value -> string.
Variable this : Anvil.

Lemma listened_streams (files : FilesMap) (r : nat) :
  In r (listened files) <->
  exists entry path,
    In entry files
    /\ (fst entry = VFile (ReadStream r path)
        \/ exists ref options, fst entry = VUpload ref (ReadStream r path) options).
Proof.
  unfold listened. rewrite in_flat_map. split.
  - intros ([file paths] & Hin & Hr). cbn [fst] in Hr.
    destruct file as [| | | | | | |[ref bytes|ref path]|ref0 [ref bytes|ref path] options];
      cbn in Hr; try contradiction; destruct Hr as [<-|[]].
    + exists (VFile (ReadStream ref path), paths), path. split; [exact Hin|].
      left. reflexivity.
    + exists (VUpload ref0 (ReadStream ref path) options, paths), path.
      split; [exact Hin|]. right. exists ref0, options. reflexivity.
  - intros ([file paths] & path & Hin & [Hf|(ref & options & Hf)]); cbn [fst] in Hf;
      subst file; eexists; (split; [exact Hin|]); left; reflexivity.
Qed.

(** X25. A request with files carries the headers [User-Agent] and
    [Authorization] and no [Content-Type], which is left to the form, and a
    signal that is aborted by an error of exactly the streams among the
    files, bare or wrapped in an [UploadWithOptions]; buffers get no
    listener.  A request without files carries [Content-Type:
    application/json] before the two and no signal. *)
Theorem multipart_headers_and_signal (operationJSON : string) (files : FilesMap) :
  let sent := _addDefaultHeaders this (graphQLOptions JSON_stringify operationJSON files) in
  (files <> [] ->
     headers sent = Some [("User-Agent", VStr (options_userAgent this));
                          ("Authorization", VStr (authHeader this))]
     /\ exists streams,
          signal sent = Some {| abort_on_error_of := streams |}
          /\ forall r,
               In r streams <->
               exists entry path,
                 In entry files
                 /\ (fst entry = VFile (ReadStream r path)
                     \/ exists ref options,
                          fst entry = VUpload ref (ReadStream r path) options))
  /\ (files = [] ->
      headers sent = Some [("Content-Type", VStr "application/json");
                           ("User-Agent", VStr (options_userAgent this));
                           ("Authorization", VStr (authHeader this))]
      /\ signal sent = None).
Proof.
  cbv zeta. split.
  - intros Hfiles. destruct files as [|entry rest]; [contradiction|].
    split; [reflexivity|].
    exists (listened (entry :: rest)). split; [reflexivity|]. apply listened_streams.
  - intros ->. split; reflexivity.
Qed.

End GraphQLHeaders.

(** ** Why the executor sleeps *)

Section Sleeps.

Variable this : Anvil.
Variables (url : string) (options : RequestInit) (clientOptions : obj).




End Sleeps.

